(** * Tianyancha_Spider: the shareholder-table scraper of [main.py]

    A shallow embedding of [scrape_company_tables], [scrape_table],
    [append_to_excel], [retry_open_browser] and [run].

    The program talks to three things it does not own: a Playwright
    browser, the clock and the file that holds the workbook.  They are
    modelled as a deterministic state machine [E] (class [External]) whose
    operations either return or raise; the program itself is written in a
    small state / exception / trace monad [M] so that [try], [except] and
    [finally] read as in the source.  Every external call and every logging
    call leaves an [Event] in the trace, in program order. *)

From stdpp Require Import gmap strings list fin_maps pretty.

Open Scope string_scope.
Open Scope list_scope.

(** ** Exceptions

    Only subclasses of Python's [Exception] are modelled: those are the ones
    the handlers of the source ([except Exception]) catch. *)

Inductive Exn : Type :=
| TimeoutError
| TargetClosedError
| AttributeError
| UnboundLocalError
| ValueError
| IndexError
| InvalidIndexError
| FileNotFoundError
| PermissionError
| EOFError
| OSError.

Definition Exc (A : Type) : Type := (Exn + A)%type.

(** ** pandas data frames *)

Inductive cell : Type :=
| Str (s : string)
| Num (z : Z)
| NaN.

Record DataFrame : Type := mkDF {
  columns : list string;
  rows : list (list cell)
}.

Definition max_width (data : list (list string)) : nat :=
  foldr (fun r w => Nat.max (length r) w) 0 data.

Definition pad_row (w : nat) (r : list string) : list cell :=
  map Str r ++ replicate (w - length r) NaN.

(** [pd.DataFrame(rows, columns=headers)] on a list of lists: short lists
    are filled with missing values up to the longest one, and the call
    raises [ValueError] when that width is not the number of columns. *)
Definition DataFrame_new (data : list (list string)) (cols : list string)
  : Exc DataFrame :=
  match data with
  | [] => inr (mkDF cols [])
  | _ =>
      let w := max_width data in
      if Nat.eqb w (length cols)
      then inr (mkDF cols (map (pad_row w) data))
      else inl ValueError
  end.

Definition insert_at {A : Type} (loc : nat) (x : A) (l : list A) : list A :=
  take loc l ++ x :: drop loc l.

Definition has_column (c : string) (cols : list string) : bool :=
  existsb (String.eqb c) cols.

(** [df.insert(loc, column, value)] with a scalar [value]: raises
    [ValueError] when the column already exists ([allow_duplicates] is
    left at its default) and [IndexError] when [loc] is out of bounds. *)
Definition df_insert (loc : nat) (column value : string) (df : DataFrame)
  : Exc DataFrame :=
  if has_column column (columns df) then inl ValueError
  else if Nat.leb loc (length (columns df))
  then inr (mkDF (insert_at loc column (columns df))
                 (map (insert_at loc (Str value)) (rows df)))
  else inl IndexError.

Fixpoint cell_at (c : string) (cols : list string) (r : list cell) : cell :=
  match cols, r with
  | c' :: cols', x :: r' => if String.eqb c c' then x else cell_at c cols' r'
  | _, _ => NaN
  end.

Definition reindex (src dst : list string) (r : list cell) : list cell :=
  map (fun c => cell_at c src r) dst.

Fixpoint unique (cols : list string) : bool :=
  match cols with
  | [] => true
  | c :: cols' => negb (has_column c cols') && unique cols'
  end.

Definition same_columns (a b : list string) : bool :=
  bool_decide (a = b).

(** [pd.concat([a, b], ignore_index=True)]: rows of [a] then rows of [b].
    With equal column labels the rows are taken as they are; otherwise the
    frames are aligned by label on the union of the columns (labels of [a]
    first), which pandas refuses when a frame has a repeated label. *)
Definition pd_concat (a b : DataFrame) : Exc DataFrame :=
  if same_columns (columns a) (columns b)
  then inr (mkDF (columns a) (rows a ++ rows b))
  else if unique (columns a) && unique (columns b)
  then
    let cols := columns a
                ++ List.filter (fun c => negb (has_column c (columns a))) (columns b) in
    inr (mkDF cols (map (reindex (columns a) cols) (rows a)
                    ++ map (reindex (columns b) cols) (rows b)))
  else inl InvalidIndexError.

(** What a write that raised in the middle of [df.to_excel] had put into
    the sheet when [n] cells had made it.  The labels are written first, in
    order; the cells of the body follow column by column, each column from
    top to bottom.  A cell that was not reached is empty, and a row none of
    whose cells was reached is not there. *)
Definition written_part (n : nat) (df : DataFrame) : DataFrame :=
  let ncols := length (columns df) in
  let nrows := length (rows df) in
  if Nat.ltb n ncols then mkDF (take n (columns df)) []
  else
    mkDF (columns df)
         (imap (fun i r =>
                  imap (fun j c =>
                          if Nat.ltb (j * nrows + i) (n - ncols) then c else NaN)
                       r)
               (take (n - ncols) (rows df))).

(** ** BeautifulSoup

    What the scraper reads off the parsed markup: the stripped text of the
    [th] cells under the first [thead], and for every [tr] under the first
    [tbody] the stripped text of its [td] cells.  [None] stands for
    [soup.find] finding nothing. *)
Record Soup : Type := mkSoup {
  thead : option (list string);
  tbody : option (list (list string))
}.

(** ** Python truthiness of a Playwright locator *)

Inductive Locator : Type :=
| LocatorOf (selector : string)
| LocatorFirst (l : Locator).

(** [Locator] defines neither [__bool__] nor [__len__], so [bool(locator)]
    is [True] for every locator object, matched or not. *)
Definition truthy (l : Locator) : bool := true.

(** ** Log records and the trace *)

Inductive Level : Type := DEBUG | INFO | WARNING | ERROR | CRITICAL.

Definition Popup : Type := nat.

(** One constructor per logging call of the source; the arguments are the
    values interpolated into the message. *)
Inductive Msg : Type :=
| MsgStart (company : string)
| MsgNoResults (company : string)
| MsgPopupLoaded (company : string)
| MsgAttemptHistorical
| MsgClickedTab (tab : string)
| MsgTabNotFound (tab : string)
| MsgNoHistoricalTab (company : string)
| MsgHistoricalError (company : string) (e : Exn)
| MsgCompanyError (company : string) (e : Exn)
| MsgScraping (title original : string)
| MsgStillLoading (retry : nat)
| MsgNotLoaded (title original : string)
| MsgTableHtml (title : string)
| MsgIncompleteRow (cols : list string)
| MsgTableError (title : string) (e : Exn)
| MsgSheetMissing (sheet : string)
| MsgAppended (file sheet : string)
| MsgAppendError (e : Exn)
| MsgLaunched (attempt : nat)
| MsgLaunchFailed (attempt : nat) (e : Exn)
| MsgLaunchGaveUp
| MsgExiting
| MsgWaitCaptcha
| MsgUnexpected (e : Exn).

Inductive Call : Type :=
| CFill (text : string)
| CPress (key : string)
| CTextContent
| CWaitLoadState (p : Popup) (state : string)
| CInnerHtml (p : Popup)
| CClickTab (p : Popup) (label : string)
| CWaitTimeout (p : Popup) (ms : nat)
| CClose (p : Popup)
| CGoto (url : string)
| CSleep (seconds : nat)
| CReadExcel (file sheet : string)
| CWriteExcel (file sheet : string) (append : bool)
| CLaunch
| CLogin
| CInput
| CLoadCompanies
| CBrowserClose.

(** [Log lvl msg]: a call of [logging.<lvl>], whether or not the level
    configured for the log file lets the record through.
    [Did c None]: the call returned; [Did c (Some e)]: it raised [e].
    [Opened r] is the outcome of the click that is expected to open the
    detail popup. *)
Inductive Event : Type :=
| Log (lvl : Level) (msg : Msg)
| Did (c : Call) (r : option Exn)
| Opened (r : Exc Popup).

(** ** The outside world

    Besides the browser and the clock, the world decides what happens to the
    workbook file:
    - [excel_read_fault]: whether [pd.read_excel] raises for a reason other
      than a missing sheet;
    - [excel_write_fault]: whether the [with pd.ExcelWriter(..)] block
      raises, and if so where: [Some (e, None)] when the writer could not be
      opened (nothing is saved), [Some (e, Some n)] when [to_excel] raised
      after [n] cells and the block saved on its way out what was there;
    - [read_cell], [read_label]: what [pd.read_excel] makes of a stored
      cell, given the cells of its column, whose type is inferred from all
      of them (in a column of text that all looks like numbers a cell comes
      back as a number; empty text comes back as a missing value), and of a
      stored column label, given the labels to its left (a repeated label
      comes back with a suffix, an empty one under a positional name). *)

Class External (E : Type) : Type := {
  search_fill : string -> E -> Exc unit * E;
  search_press : string -> E -> Exc unit * E;
  link_text_content : E -> Exc (option string) * E;
  link_click_expect_popup : E -> Exc Popup * E;
  page_goto : string -> E -> Exc unit * E;
  wait_for_load_state : Popup -> string -> E -> Exc unit * E;
  table_inner_html : Popup -> E -> Exc string * E;
  tab_click : Popup -> string -> E -> Exc unit * E;
  wait_for_timeout : Popup -> nat -> E -> Exc unit * E;
  popup_close : Popup -> E -> Exc unit * E;
  time_sleep : nat -> E -> E;
  excel_read_fault : string -> string -> E -> option Exn * E;
  excel_write_fault : string -> string -> E -> option (Exn * option nat) * E;
  read_cell : list cell -> cell -> cell;
  read_label : list string -> string -> string;
  chromium_launch : E -> Exc unit * E;
  login_steps : E -> Exc unit * E;
  console_input : E -> Exc unit * E;
  load_company_list : E -> Exc (list string) * E;
  browser_close : E -> Exc unit * E;
  BeautifulSoup : string -> Soup;
  py_strip : string -> string
}.

(** A Python local variable that may not have been assigned yet. *)
Inductive Local (A : Type) : Type :=
| Unbound
| Bound (v : A).
Arguments Unbound {A}.
Arguments Bound {A} v.

Definition exn_of {A : Type} (r : Exc A) : option Exn :=
  match r with
  | inl e => Some e
  | inr _ => None
  end.

Definition output_file : string := "L1_share.xlsx".
Definition landing_url : string := "https://www.tianyancha.com/".
Definition loading_marker : string := "加载中".
Definition max_retries : nat := 5.
Definition tab_labels : list string := ["历史股东信息"; "历史主要股东"].

Fixpoint starts_with (needle hay : string) : bool :=
  match needle, hay with
  | EmptyString, _ => true
  | String a n', String b h' => Ascii.eqb a b && starts_with n' h'
  | String _ _, EmptyString => false
  end.

(** [needle in hay] on Python strings.  Both are held as UTF-8 here, where
    a match of well-formed text always falls on character boundaries. *)
Fixpoint contains (needle hay : string) : bool :=
  starts_with needle hay ||
  match hay with
  | EmptyString => false
  | String _ h' => contains needle h'
  end.

(** The program state: the outside world, the workbook files on disk
    (path to sheet name to stored frame; labels and cells are kept as the
    frame written held them, and [read_back] is what reading makes of
    them), and the two locals that the [finally] blocks read: [popup_page]
    of [scrape_company_tables] and [browser] of [run]. *)
Record St (E : Type) : Type := mkSt {
  ext : E;
  fs : gmap string (gmap string DataFrame);
  popup_page : Local Popup;
  browser : Local (option unit)
}.
Arguments mkSt {E} _ _ _ _.
Arguments ext {E} _.
Arguments fs {E} _.
Arguments popup_page {E} _.
Arguments browser {E} _.

Definition set_ext {E : Type} (e : E) (st : St E) : St E :=
  mkSt e (fs st) (popup_page st) (browser st).
Definition set_fs {E : Type} (f : gmap string (gmap string DataFrame))
  (st : St E) : St E :=
  mkSt (ext st) f (popup_page st) (browser st).
Definition set_popup_page {E : Type} (p : Local Popup) (st : St E) : St E :=
  mkSt (ext st) (fs st) p (browser st).
Definition set_browser {E : Type} (b : Local (option unit)) (st : St E) : St E :=
  mkSt (ext st) (fs st) (popup_page st) b.

(** Outcome, final state, events emitted. *)
Definition M (E A : Type) : Type := St E -> Exc A * St E * list Event.

Definition ret {E A : Type} (a : A) : M E A := fun st => (inr a, st, []).

Definition raise {E A : Type} (e : Exn) : M E A := fun st => (inl e, st, []).

Definition bind {E A B : Type} (m : M E A) (f : A -> M E B) : M E B :=
  fun st =>
    match m st with
    | (inl e, st1, t1) => (inl e, st1, t1)
    | (inr a, st1, t1) =>
        match f a st1 with
        | (r, st2, t2) => (r, st2, t1 ++ t2)
        end
    end.

(** [try: m except Exception as e: h e] *)
Definition try_except {E A : Type} (m : M E A) (h : Exn -> M E A) : M E A :=
  fun st =>
    match m st with
    | (inl e, st1, t1) =>
        match h e st1 with
        | (r, st2, t2) => (r, st2, t1 ++ t2)
        end
    | (inr a, st1, t1) => (inr a, st1, t1)
    end.

(** [try: m finally: fin].  The [finally] block always runs; when it raises,
    its exception replaces the outcome of [m]. *)
Definition try_finally {E A : Type} (m : M E A) (fin : M E unit) : M E A :=
  fun st =>
    match m st with
    | (r, st1, t1) =>
        match fin st1 with
        | (inl e, st2, t2) => (inl e, st2, t1 ++ t2)
        | (inr _, st2, t2) => (r, st2, t1 ++ t2)
        end
    end.

Definition lift {E A : Type} (r : Exc A) : M E A :=
  match r with
  | inl e => raise e
  | inr a => ret a
  end.

Definition logging {E : Type} (lvl : Level) (msg : Msg) : M E unit :=
  fun st => (inr tt, st, [Log lvl msg]).

Definition call {E A : Type} (c : Call) (op : E -> Exc A * E) : M E A :=
  fun st =>
    match op (ext st) with
    | (r, e') => (r, set_ext e' st, [Did c (exn_of r)])
    end.

Definition sleep {E : Type} `{External E} (seconds : nat) : M E unit :=
  fun st => (inr tt, set_ext (time_sleep seconds (ext st)) st,
             [Did (CSleep seconds) None]).

Definition get {E A : Type} (f : St E -> A) : M E A :=
  fun st => (inr (f st), st, []).

Definition put {E : Type} (f : St E -> St E) : M E unit :=
  fun st => (inr tt, f st, []).

Notation "x <- m ;; k" := (bind m (fun x => k))
  (at level 100, m at next level, right associativity).
Notation "m ;; k" := (bind m (fun _ => k))
  (at level 100, right associativity).

Section Scraper.

Context {E : Type} `{External E}.

(** ** [append_to_excel] *)

(** Column [j] of the body of a frame, top to bottom. *)
Definition column (j : nat) (rs : list (list cell)) : list cell :=
  omap (fun r => r !! j) rs.

(** A stored frame as [pd.read_excel] returns it: label by label and cell
    by cell, the rows and the columns being those stored.  (A sheet whose
    last rows are entirely empty would come back without them; the rows the
    scraper stores start with the identifier of the company.) *)
Definition read_back (df : DataFrame) : DataFrame :=
  mkDF (imap (fun i c => read_label (take i (columns df)) c) (columns df))
       (map (imap (fun j c => read_cell (column j (rows df)) c)) (rows df)).

Definition os_path_exists (path : string) : M E bool :=
  get (fun st => bool_decide (is_Some (fs st !! path))).

(** [pd.read_excel(path, sheet_name=sheet)] *)
Definition read_excel (path sheet : string) : M E DataFrame :=
  fun st =>
    match excel_read_fault path sheet (ext st) with
    | (Some e, e') => (inl e, set_ext e' st, [Did (CReadExcel path sheet) (Some e)])
    | (None, e') =>
        let r := match fs st !! path with
                 | None => inl FileNotFoundError
                 | Some wb =>
                     match wb !! sheet with
                     | None => inl ValueError
                     | Some df => inr (read_back df)
                     end
                 end in
        (r, set_ext e' st, [Did (CReadExcel path sheet) (exn_of r)])
    end.

(** [with pd.ExcelWriter(path, mode="w") as writer:
       df.to_excel(writer, sheet_name=sheet, index=False)]:
    the file becomes a workbook holding that one sheet.  When the writer
    cannot be opened the file is as it was; when [to_excel] raises, the
    block still saves, and the file holds what had been written. *)
Definition to_excel_new (df : DataFrame) (path sheet : string) : M E unit :=
  fun st =>
    match excel_write_fault path sheet (ext st) with
    | (Some (e, None), e') =>
        (inl e, set_ext e' st, [Did (CWriteExcel path sheet false) (Some e)])
    | (Some (e, Some n), e') =>
        (inl e,
         set_fs (<[path := {[sheet := written_part n df]}]> (fs st))
                (set_ext e' st),
         [Did (CWriteExcel path sheet false) (Some e)])
    | (None, e') =>
        (inr tt, set_fs (<[path := {[sheet := df]}]> (fs st)) (set_ext e' st),
         [Did (CWriteExcel path sheet false) None])
    end.

(** [with pd.ExcelWriter(path, mode="a", if_sheet_exists="replace") as writer:
       df.to_excel(writer, sheet_name=sheet, index=False)]:
    the named sheet is replaced or added, the other sheets are kept.  When
    [to_excel] raises, the sheet has already been replaced and the block
    saves it with what had been written. *)
Definition to_excel_replace (df : DataFrame) (path sheet : string) : M E unit :=
  fun st =>
    match excel_write_fault path sheet (ext st) with
    | (Some (e, None), e') =>
        (inl e, set_ext e' st, [Did (CWriteExcel path sheet true) (Some e)])
    | (Some (e, Some n), e') =>
        match fs st !! path with
        | None =>
            (inl FileNotFoundError, set_ext e' st,
             [Did (CWriteExcel path sheet true) (Some FileNotFoundError)])
        | Some wb =>
            (inl e,
             set_fs (<[path := <[sheet := written_part n df]> wb]> (fs st))
                    (set_ext e' st),
             [Did (CWriteExcel path sheet true) (Some e)])
        end
    | (None, e') =>
        match fs st !! path with
        | None =>
            (inl FileNotFoundError, set_ext e' st,
             [Did (CWriteExcel path sheet true) (Some FileNotFoundError)])
        | Some wb =>
            (inr tt, set_fs (<[path := <[sheet := df]> wb]> (fs st)) (set_ext e' st),
             [Did (CWriteExcel path sheet true) None])
        end
    end.

Definition append_to_excel (df : DataFrame) (output_file sheet_name : string)
  : M E unit :=
  try_except
    (file_exists <- os_path_exists output_file ;;
     (if negb file_exists
      then to_excel_new df output_file sheet_name
      else
        existing_df <-
          try_except
            (d <- read_excel output_file sheet_name ;; ret (Some d))
            (fun _ => logging WARNING (MsgSheetMissing sheet_name) ;; ret None) ;;
        df' <- match existing_df with
               | Some existing => lift (pd_concat existing df)
               | None => ret df
               end ;;
        to_excel_replace df' output_file sheet_name) ;;
     logging INFO (MsgAppended output_file sheet_name))
    (fun e => logging ERROR (MsgAppendError e)).

(** ** [scrape_table] *)

(** The [while retries < max_retries] loop; [remaining] is
    [max_retries - retries].  [Some html]: the markup that no longer shows
    the marker ([table_loaded]); [None]: the loop ran out. *)
Fixpoint poll_table (page : Popup) (remaining retries : nat)
  : M E (option string) :=
  match remaining with
  | 0 => ret None
  | S remaining' =>
      table_html <- call (CInnerHtml page) (table_inner_html page) ;;
      if negb (contains loading_marker table_html)
      then ret (Some table_html)
      else
        logging INFO (MsgStillLoading (retries + 1)) ;;
        sleep 2 ;;
        poll_table page remaining' (retries + 1)
  end.

(** [soup.find(tag).find_all(..)]: [None] has no [find_all]. *)
Definition find_section {A : Type} (found : option A) : M E A :=
  match found with
  | Some a => ret a
  | None => raise AttributeError
  end.

(** The [for tr in ...] loop that fills [rows]. *)
Fixpoint collect_rows (headers : list string) (trs : list (list string))
  (rows : list (list string)) : M E (list (list string)) :=
  match trs with
  | [] => ret rows
  | cols :: trs' =>
      if Nat.eqb (length cols) (length headers)
      then collect_rows headers trs' (rows ++ [cols])
      else
        logging WARNING (MsgIncompleteRow cols) ;;
        collect_rows headers trs' rows
  end.

(** From the parsed markup to the frame: the part of [scrape_table] after
    the table has loaded. *)
Definition build_frame (soup : Soup) (original_name matched_name : string)
  : M E DataFrame :=
  headers <- find_section (thead soup) ;;
  trs <- find_section (tbody soup) ;;
  rows <- collect_rows headers trs [] ;;
  df <- lift (DataFrame_new rows headers) ;;
  df <- lift (df_insert 0 "Original Company Name" original_name df) ;;
  df <- lift (df_insert 1 "Matched Company Name" matched_name df) ;;
  ret df.

Definition scrape_table (page : Popup)
  (original_name matched_name table_title : string) : M E (option DataFrame) :=
  try_except
    (logging INFO (MsgScraping table_title original_name) ;;
     loaded <- poll_table page max_retries 0 ;;
     match loaded with
     | None =>
         logging ERROR (MsgNotLoaded table_title original_name) ;;
         ret None
     | Some table_html =>
         logging DEBUG (MsgTableHtml table_title) ;;
         df <- build_frame (BeautifulSoup table_html) original_name matched_name ;;
         ret (Some df)
     end)
    (fun e => logging ERROR (MsgTableError table_title e) ;; ret None).

(** ** [scrape_company_tables] *)

(** Lines 41-44: the default shareholder table. *)
Definition main_table_step (popup : Popup)
  (company_name company_name_text : string) : M E unit :=
  df_shareholders <- scrape_table popup company_name company_name_text "股东信息" ;;
  match df_shareholders with
  | Some df => append_to_excel df output_file "Shareholders"
  | None => ret tt
  end.

(** One round of the [for tab_text in ...] loop: [true] when the click and
    the settle wait both went through ([tab_found = True; break]). *)
Definition activate_tab (popup : Popup) (tab_text : string) : M E bool :=
  try_except
    (call (CClickTab popup tab_text) (tab_click popup tab_text) ;;
     call (CWaitTimeout popup 3000) (wait_for_timeout popup 3000) ;;
     logging INFO (MsgClickedTab tab_text) ;;
     ret true)
    (fun _ => logging WARNING (MsgTabNotFound tab_text) ;; ret false).

(** The loop over the candidate labels: [Some tab_text] is [tab_found] with
    the value the loop variable holds after the [break]. *)
Fixpoint switch_tab (popup : Popup) (labels : list string)
  : M E (option string) :=
  match labels with
  | [] => ret None
  | tab_text :: labels' =>
      tab_found <- activate_tab popup tab_text ;;
      if tab_found then ret (Some tab_text) else switch_tab popup labels'
  end.

(** Lines 64-67: the extraction behind the tab that was activated. *)
Definition historical_table_step (popup : Popup)
  (company_name company_name_text tab_text : string) : M E unit :=
  df_historical <- scrape_table popup company_name company_name_text tab_text ;;
  match df_historical with
  | Some df => append_to_excel df output_file "Historical Shareholders"
  | None => ret tt
  end.

(** Lines 46-69: the historical shareholder table. *)
Definition historical_step (popup : Popup)
  (company_name company_name_text : string) : M E unit :=
  try_except
    (logging INFO MsgAttemptHistorical ;;
     found <- switch_tab popup tab_labels ;;
     match found with
     | None => logging ERROR (MsgNoHistoricalTab company_name)
     | Some tab_text =>
         historical_table_step popup company_name company_name_text tab_text
     end)
    (fun e => logging ERROR (MsgHistoricalError company_name e)).

(** [company_name_element.text_content().strip()] *)
Definition stripped_text : M E string :=
  text <- call CTextContent link_text_content ;;
  match text with
  | Some s => ret (py_strip s)
  | None => raise AttributeError
  end.

(** [with page.expect_popup() as popup_info: company_link.click()] followed
    by [popup_page = popup_info.value]. *)
Definition open_popup : M E Popup :=
  fun st =>
    match link_click_expect_popup (ext st) with
    | (inl e, e') => (inl e, set_ext e' st, [Opened (inl e)])
    | (inr p, e') =>
        (inr p, set_popup_page (Bound p) (set_ext e' st), [Opened (inr p)])
    end.

(** The body of the outer [try] (lines 19-69). *)
Definition company_body (company_name : string) : M E unit :=
  logging INFO (MsgStart company_name) ;;
  call (CFill company_name) (search_fill company_name) ;;
  call (CPress "Enter") (search_press "Enter") ;;
  sleep 2 ;;
  let company_link := LocatorFirst (LocatorOf "a.index_alink__zcia5") in
  if negb (truthy company_link)
  then logging WARNING (MsgNoResults company_name)
  else
    company_name_text <- stripped_text ;;
    popup <- open_popup ;;
    call (CWaitLoadState popup "domcontentloaded")
         (wait_for_load_state popup "domcontentloaded") ;;
    logging INFO (MsgPopupLoaded company_name) ;;
    main_table_step popup company_name company_name_text ;;
    historical_step popup company_name company_name_text.

(** [popup_page.close()]: reading the local raises when it was never
    assigned. *)
Definition close_popup_page : M E unit :=
  local <- get popup_page ;;
  match local with
  | Unbound => raise UnboundLocalError
  | Bound p => call (CClose p) (popup_close p)
  end.

(** The [finally] block (lines 74-79). *)
Definition cleanup : M E unit :=
  try_except close_popup_page (fun _ => ret tt) ;;
  call (CGoto landing_url) (page_goto landing_url).

Definition scrape_company_tables (company_name : string) : M E unit :=
  put (set_popup_page Unbound) ;;
  try_finally
    (try_except
       (company_body company_name)
       (fun e => logging ERROR (MsgCompanyError company_name e)))
    cleanup.

(** ** [retry_open_browser] and [run] *)

(** The [for attempt in range(3)] loop, [attempts] being the values still to
    come; past the loop the function gives up with [None, None]. *)
Fixpoint launch_loop (attempts : list nat) : M E (option unit) :=
  match attempts with
  | [] => logging ERROR MsgLaunchGaveUp ;; ret None
  | attempt :: attempts' =>
      launched <-
        try_except
          (call CLaunch chromium_launch ;;
           logging INFO (MsgLaunched (attempt + 1)) ;;
           ret true)
          (fun e => logging WARNING (MsgLaunchFailed (attempt + 1) e) ;; ret false) ;;
      if launched then ret (Some tt) else launch_loop attempts'
  end.

Definition retry_open_browser : M E (option unit) := launch_loop (seq 0 3).

(** The [for company_name in company_list] loop (lines 191-192). *)
Fixpoint scrape_all (company_list : list string) : M E unit :=
  match company_list with
  | [] => ret tt
  | company_name :: company_list' =>
      scrape_company_tables company_name ;;
      scrape_all company_list'
  end.

(** [browser.close()] in the [finally] of [run]. *)
Definition close_browser : M E unit :=
  local <- get browser ;;
  match local with
  | Unbound => raise UnboundLocalError
  | Bound None => raise AttributeError
  | Bound (Some _) => call CBrowserClose browser_close
  end.

(** [run]; lines 172-181 (open the site and submit the login form) are the
    one external step [login_steps]. *)
Definition run : M E unit :=
  put (set_browser Unbound) ;;
  try_finally
    (try_except
       (opened <- retry_open_browser ;;
        put (set_browser (Bound opened)) ;;
        match opened with
        | None => logging CRITICAL MsgExiting
        | Some _ =>
            call CLogin login_steps ;;
            logging INFO MsgWaitCaptcha ;;
            call CInput console_input ;;
            company_list <- call CLoadCompanies load_company_list ;;
            scrape_all company_list
        end)
       (fun e => logging CRITICAL (MsgUnexpected e)))
    (try_except close_browser (fun _ => ret tt)).

End Scraper.

(** ** Observations on states and traces *)

(** The frame stored under a sheet of a workbook file, if any. *)
Definition sheet_of {E : Type} (st : St E) (path sheet : string)
  : option DataFrame :=
  match fs st !! path with
  | Some wb => wb !! sheet
  | None => None
  end.

(** The value of [popup_page] after the events of a trace, from its value
    before: only an opened popup assigns it. *)
Fixpoint track (local : Local Popup) (tr : list Event) : Local Popup :=
  match tr with
  | [] => local
  | Opened (inr p) :: tr' => track (Bound p) tr'
  | _ :: tr' => track local tr'
  end.

(** The companies whose processing was started, in order: one
    [MsgStart] record is written at the head of every call of
    [scrape_company_tables]. *)
Fixpoint started (tr : list Event) : list string :=
  match tr with
  | [] => []
  | Log INFO (MsgStart c) :: tr' => c :: started tr'
  | _ :: tr' => started tr'
  end.

(** The table of [page] still shows the loading marker at each of the next
    [n] polls, two seconds apart. *)
Fixpoint keeps_loading {E : Type} `{External E} (n : nat) (page : Popup)
  (e : E) : Prop :=
  match n with
  | 0 => True
  | S n' =>
      exists html e',
        table_inner_html page e = (inr html, e')
        /\ contains loading_marker html = true
        /\ keeps_loading n' page (time_sleep 2 e')
  end.

(** What one poll of a table that is still loading leaves in the trace. *)
Definition loading_round (page : Popup) (retries : nat) : list Event :=
  [Did (CInnerHtml page) None;
   Log INFO (MsgStillLoading (retries + 1));
   Did (CSleep 2) None].

(** A body row the way it stands in the returned frame. *)
Definition frame_row (original_name matched_name : string)
  (cols : list string) : list cell :=
  Str original_name :: Str matched_name :: map Str cols.

Definition fits (headers cols : list string) : bool :=
  Nat.eqb (length cols) (length headers).

Definition is_warning (cols : list string) : Event :=
  Log WARNING (MsgIncompleteRow cols).

(** A relation between the state before, the state after and the events
    emitted that holds of doing nothing and composes along sequencing. *)
Class Frame {E : Type} (R : St E -> St E -> list Event -> Prop) : Prop := {
  frame_nil : forall st, R st st [];
  frame_app : forall s1 s2 s3 t1 t2,
      R s1 s2 t1 -> R s2 s3 t2 -> R s1 s3 (t1 ++ t2)
}.

Definition respects {E A : Type} (R : St E -> St E -> list Event -> Prop)
  (m : M E A) : Prop :=
  forall st, R st (m st).1.2 (m st).2.

(** [m] never raises. *)
Definition returns {E A : Type} (m : M E A) : Prop :=
  forall st, exists a, (m st).1.1 = inr a.

(** The relations the proofs carry through the program. *)

(** [popup_page] is what the trace says it is. *)
Definition popup_tracked {E : Type} : St E -> St E -> list Event -> Prop :=
  fun st st' tr => popup_page st' = track (popup_page st) tr.

(** Every event emitted satisfies [P]. *)
Definition emits {E : Type} (P : Event -> Prop)
  : St E -> St E -> list Event -> Prop :=
  fun _ _ tr => Forall P tr.

(** An observation of the state is unchanged. *)
Definition keeps {E X : Type} (f : St E -> X)
  : St E -> St E -> list Event -> Prop :=
  fun st st' _ => f st' = f st.

(** The files are unchanged unless a write of [sheet] of [path] was
    attempted. *)
Definition writes_through {E : Type} (path sheet : string)
  : St E -> St E -> list Event -> Prop :=
  fun st st' tr =>
    fs st' = fs st \/ exists b r, In (Did (CWriteExcel path sheet b) r) tr.

(** The calls made inside the guarded body of a company: all but the two
    of the cleanup and those of [run]. *)
Definition inner_call (c : Call) : Prop :=
  match c with
  | CClose _ | CGoto _ | CLaunch | CLogin | CInput | CLoadCompanies
  | CBrowserClose => False
  | _ => True
  end.

(** The calls made inside the batch loop: all but those of [run]. *)
Definition batch_call (c : Call) : Prop :=
  match c with
  | CLaunch | CLogin | CInput | CLoadCompanies | CBrowserClose => False
  | _ => True
  end.

(** The records written inside a company's processing, after the one that
    opens it. *)
Definition inner_msg (msg : Msg) : Prop :=
  match msg with
  | MsgStart _ | MsgNoResults _ => False
  | _ => True
  end.

Definition inner_event (ev : Event) : Prop :=
  match ev with
  | Log _ msg => inner_msg msg
  | _ => True
  end.

(** What the guarded body may leave in the trace past its opening
    record. *)
Definition body_event (ev : Event) : Prop :=
  match ev with
  | Log _ msg => inner_msg msg
  | Did c _ => inner_call c
  | Opened _ => True
  end.

(** What the loop over the tab labels may leave in the trace. *)
Definition tab_event (ev : Event) : Prop :=
  match ev with
  | Did (CClickTab _ _) _ | Did (CWaitTimeout _ _) _ => True
  | Log _ (MsgClickedTab _) | Log _ (MsgTabNotFound _) => True
  | _ => False
  end.

(** The [Did (CClose p) r] event of the cleanup, when there is a popup to
    close. *)
Definition close_events (local : Local Popup) (r : option Exn) : list Event :=
  match local with
  | Bound p => [Did (CClose p) r]
  | Unbound => []
  end.

(** The outer [try ... except] of [scrape_company_tables], entered with
    [popup_page] not yet assigned. *)
Definition guarded_body {E : Type} `{External E} (company_name : string)
  : M E unit :=
  try_except
    (company_body company_name)
    (fun e => logging ERROR (MsgCompanyError company_name e)).

(** ** A scripted outside world, for running the program on examples *)

Record Sim : Type := mkSim {
  sim_results : list bool;
  sim_html : list string;
  sim_tabs : list string;
  sim_goto : list (option Exn);
  sim_write : list (option Exn);
  sim_read : list (option Exn);
  sim_companies : list string
}.

Definition table_markup : string :=
  "<thead><tr><th>股东</th><th>持股比例</th></tr></thead><tbody><tr><td>甲</td><td>60%</td></tr><tr><td>乙</td></tr><tr><td>丙</td><td>40%</td></tr></tbody>".

Definition loading_markup : string := "<tbody><tr><td>加载中</td></tr></tbody>".

(** The parse of the two fixtures above; anything else has no table
    sections. *)
Definition sim_soup (html : string) : Soup :=
  if String.eqb html table_markup
  then mkSoup (Some ["股东"; "持股比例"])
              (Some [["甲"; "60%"]; ["乙"]; ["丙"; "40%"]])
  else mkSoup None None.

Fixpoint lstrip (s : string) : string :=
  match s with
  | String a s' => if Ascii.is_space a then lstrip s' else s
  | EmptyString => s
  end.

(** [str.strip()] on text whose white space is ASCII. *)
Definition sim_strip (s : string) : string :=
  String.rev (lstrip (String.rev (lstrip s))).

Fixpoint digits (acc : N) (s : string) : option N :=
  match s with
  | EmptyString => Some acc
  | String a s' =>
      match Ascii.is_nat a with
      | Some d => digits (10 * acc + N.of_nat d) s'
      | None => None
      end
  end.

(** A cell that a column of numbers can hold. *)
Definition numeric (c : cell) : bool :=
  match c with
  | Str EmptyString => true
  | Str s => bool_decide (is_Some (digits 0 s))
  | _ => true
  end.

(** Reading a cell back: empty text is a missing value; in a column all of
    whose cells are numbers, missing, or text made of digits, text made of
    digits is the number it spells. *)
Definition sim_read_cell (col : list cell) (c : cell) : cell :=
  match c with
  | Str EmptyString => NaN
  | Str s =>
      if forallb numeric col
      then match digits 0 s with
           | Some n => Num (Z.of_N n)
           | None => c
           end
      else c
  | _ => c
  end.

(** Reading a label back: an empty label gets a positional name, a label
    seen [k] times to its left the suffix [.k]. *)
Definition sim_read_label (left : list string) (c : string) : string :=
  match c with
  | EmptyString => String.app "Unnamed: " (pretty (length left))
  | _ =>
      match length (List.filter (String.eqb c) left) with
      | 0 => c
      | k => String.app c (String.app "." (pretty k))
      end
  end.

(** Where a write that raises strikes: an error of the file system when
    the writer is opened, anything else after the labels of a frame of
    three columns and the first cell of its body. *)
Definition sim_saved (e : Exn) : option nat :=
  match e with
  | PermissionError | FileNotFoundError | OSError => None
  | _ => Some 4
  end.

Definition next_outcome (script : list (option Exn)) : option Exn :=
  match script with
  | o :: _ => o
  | [] => None
  end.

Definition as_exc (o : option Exn) : Exc unit :=
  match o with
  | Some e => inl e
  | None => inr tt
  end.

Definition sim_pop_results (s : Sim) : Sim :=
  mkSim (tail (sim_results s)) (sim_html s) (sim_tabs s) (sim_goto s)
        (sim_write s) (sim_read s) (sim_companies s).
Definition sim_pop_goto (s : Sim) : Sim :=
  mkSim (sim_results s) (sim_html s) (sim_tabs s) (tail (sim_goto s))
        (sim_write s) (sim_read s) (sim_companies s).
Definition sim_pop_write (s : Sim) : Sim :=
  mkSim (sim_results s) (sim_html s) (sim_tabs s) (sim_goto s)
        (tail (sim_write s)) (sim_read s) (sim_companies s).
Definition sim_pop_read (s : Sim) : Sim :=
  mkSim (sim_results s) (sim_html s) (sim_tabs s) (sim_goto s)
        (sim_write s) (tail (sim_read s)) (sim_companies s).
Definition sim_pop_html (s : Sim) : Sim :=
  mkSim (sim_results s)
        (match sim_html s with _ :: (_ :: _) as rest => rest | l => l end)
        (sim_tabs s) (sim_goto s) (sim_write s) (sim_read s) (sim_companies s).

#[global] Instance Sim_External : External Sim := {|
  search_fill := fun _ s => (inr tt, s);
  search_press := fun _ s => (inr tt, s);
  link_text_content := fun s =>
    (match sim_results s with
     | false :: _ => inl TimeoutError
     | _ => inr (Some " 天眼查科技有限公司 ")
     end, sim_pop_results s);
  link_click_expect_popup := fun s => (inr 1, s);
  page_goto := fun _ s => (as_exc (next_outcome (sim_goto s)), sim_pop_goto s);
  wait_for_load_state := fun _ _ s => (inr tt, s);
  table_inner_html := fun _ s =>
    (match sim_html s with
     | html :: _ => inr html
     | [] => inl TimeoutError
     end, sim_pop_html s);
  tab_click := fun _ label s =>
    (if has_column label (sim_tabs s) then inr tt else inl TimeoutError, s);
  wait_for_timeout := fun _ _ s => (inr tt, s);
  popup_close := fun _ s => (inr tt, s);
  time_sleep := fun _ s => s;
  excel_read_fault := fun _ _ s => (next_outcome (sim_read s), sim_pop_read s);
  excel_write_fault := fun _ _ s =>
    (match next_outcome (sim_write s) with
     | Some e => Some (e, sim_saved e)
     | None => None
     end, sim_pop_write s);
  read_cell := sim_read_cell;
  read_label := sim_read_label;
  chromium_launch := fun s => (inr tt, s);
  login_steps := fun s => (inr tt, s);
  console_input := fun s => (inr tt, s);
  load_company_list := fun s => (inr (sim_companies s), s);
  browser_close := fun s => (inr tt, s);
  BeautifulSoup := sim_soup;
  py_strip := sim_strip
|}.

Definition sim_state (s : Sim) (files : gmap string (gmap string DataFrame))
  : St Sim :=
  mkSt s files Unbound Unbound.

(** A world where everything goes well: results, a loaded table, the second
    historical tab only. *)
Definition sim_ok : Sim :=
  mkSim [] [table_markup] ["历史主要股东"] [] [] [] ["甲公司"; "乙公司"; "丙公司"].

Definition cols3 : list string :=
  ["Original Company Name"; "Matched Company Name"; "股东"].
Definition rowA : list cell := [Str "A公司"; Str "A"; Str "甲"].
Definition rowB : list cell := [Str "B公司"; Str "B"; Str "乙"].
Definition dfA : DataFrame := mkDF cols3 [rowA].
Definition dfB : DataFrame := mkDF cols3 [rowB].

(** The workbook after a first merge of [dfA] into a sheet that did not
    exist. *)
Definition st_after_A : St Sim :=
  (append_to_excel dfA output_file "Shareholders" (sim_state sim_ok ∅)).1.2.

(** The workbook file cannot be written (say, it is open elsewhere). *)
Definition sim_locked : Sim :=
  mkSim [] [table_markup] [] [] [Some PermissionError] [] [].

Definition book_A : gmap string (gmap string DataFrame) :=
  {[ output_file := {[ "Shareholders" := dfA ]} ]}.

(** A stored sheet whose first cell is a code written with leading
    zeros. *)
Definition rowCode : list cell := [Str "000001"; Str "A"; Str "甲"].
Definition book_code : gmap string (gmap string DataFrame) :=
  {[ output_file := {[ "Shareholders" := mkDF cols3 [rowCode] ]} ]}.

(** A snapshot whose third column has another label. *)
Definition dfC : DataFrame :=
  mkDF ["Original Company Name"; "Matched Company Name"; "持股比例"]
       [[Str "B公司"; Str "B"; Str "40%"]].



(** The table never finishes loading. *)
Definition sim_loading : Sim :=
  mkSim [] [loading_markup] [] [] [] [] [].

(** The cleanup navigation of the first company raises. *)
Definition sim_nav_first : Sim :=
  mkSim [] [table_markup] ["历史主要股东"] [Some TimeoutError] [] []
        ["甲公司"; "乙公司"; "丙公司"].

(** The cleanup navigation of the second company raises. *)
Definition sim_nav_second : Sim :=
  mkSim [] [table_markup] ["历史主要股东"] [None; Some TimeoutError] [] []
        ["甲公司"; "乙公司"; "丙公司"].

(** The search for the second company matches nothing. *)
Definition sim_second_missing : Sim :=
  mkSim [true; false; true] [table_markup] ["历史主要股东"] [] [] []
        ["甲公司"; "乙公司"; "丙公司"].

(** The search matches nothing. *)
Definition sim_no_results : Sim :=
  mkSim [false] [table_markup] [] [] [] [] ["甲公司"].

(** The outcomes of the navigations of the primary page, in order. *)
Fixpoint navigations (tr : list Event) : list (option Exn) :=
  match tr with
  | [] => []
  | Did (CGoto _) r :: tr' => r :: navigations tr'
  | _ :: tr' => navigations tr'
  end.

(** The error records of a trace. *)
Fixpoint errors (tr : list Event) : list Msg :=
  match tr with
  | [] => []
  | Log ERROR msg :: tr' => msg :: errors tr'
  | _ :: tr' => errors tr'
  end.

(** ** Further observations on traces and worlds *)

Definition is_poll (page : Popup) (ev : Event) : bool :=
  match ev with
  | Did (CInnerHtml p) _ => Nat.eqb p page
  | _ => false
  end.

(** How many times the markup of the table of [page] was read. *)
Definition polls (page : Popup) (tr : list Event) : nat :=
  length (List.filter (is_poll page) tr).

(** The seconds spent in [time.sleep]. *)
Fixpoint slept (tr : list Event) : nat :=
  match tr with
  | [] => 0
  | Did (CSleep seconds) _ :: tr' => seconds + slept tr'
  | _ :: tr' => slept tr'
  end.

(** The table of [page] shows the marker at the next [k] polls, two seconds
    apart, and the poll after them has the outcome [r], which is either an
    exception or a markup without the marker; [e_final] is the world after
    that poll. *)
Fixpoint settles_after {E : Type} `{External E} (k : nat) (page : Popup)
  (e : E) (r : Exc string) (e_final : E) : Prop :=
  match k with
  | 0 =>
      table_inner_html page e = (r, e_final)
      /\ match r with
         | inr html => contains loading_marker html = false
         | inl _ => True
         end
  | S k' =>
      exists html e',
        table_inner_html page e = (inr html, e')
        /\ contains loading_marker html = true
        /\ settles_after k' page (time_sleep 2 e') r e_final
  end.

(** The trace of [k] polls that found the table still loading, [j] having
    been made before them. *)
Definition loading_rounds (page : Popup) (j k : nat) : list Event :=
  concat (map (loading_round page) (seq j k)).

Definition is_log (ev : Event) : Prop :=
  match ev with
  | Log _ _ => True
  | _ => False
  end.

(** ** A second scripted world

    [Sim] with more that can go wrong: the launches of the browser, the
    login, the opening of the popup and the settle wait after a tab click
    follow scripts too, and the parser knows one more fixture. *)

Record Lab : Type := mkLab {
  lab_base : Sim;
  lab_launch : list (option Exn);
  lab_login : option Exn;
  lab_popup : option Exn;
  lab_wait : option Exn
}.

Definition lab_set_base (s : Sim) (l : Lab) : Lab :=
  mkLab s (lab_launch l) (lab_login l) (lab_popup l) (lab_wait l).

Definition on_base {A : Type} (op : Sim -> A * Sim) (l : Lab) : A * Lab :=
  match op (lab_base l) with
  | (r, s) => (r, lab_set_base s l)
  end.

(** A table one of whose headers is the label of the first identifier
    column. *)
Definition clash_markup : string :=
  "<thead><tr><th>Original Company Name</th><th>股东</th></tr></thead><tbody><tr><td>甲</td><td>乙</td></tr></tbody>".

(** A table without a body section. *)
Definition headless_markup : string :=
  "<thead><tr><th>股东</th></tr></thead>".

Definition lab_soup (html : string) : Soup :=
  if String.eqb html clash_markup
  then mkSoup (Some ["Original Company Name"; "股东"]) (Some [["甲"; "乙"]])
  else if String.eqb html headless_markup
  then mkSoup (Some ["股东"]) None
  else sim_soup html.

#[global] Instance Lab_External : External Lab | 100 := {|
  search_fill := fun text => on_base (search_fill text);
  search_press := fun key => on_base (search_press key);
  link_text_content := on_base link_text_content;
  link_click_expect_popup := fun l =>
    (match lab_popup l with
     | Some e => inl e
     | None => inr 1
     end, l);
  page_goto := fun url => on_base (page_goto url);
  wait_for_load_state := fun p state => on_base (wait_for_load_state p state);
  table_inner_html := fun p => on_base (table_inner_html p);
  tab_click := fun p label => on_base (tab_click p label);
  wait_for_timeout := fun _ _ l => (as_exc (lab_wait l), l);
  popup_close := fun p => on_base (popup_close p);
  time_sleep := fun n l => lab_set_base (time_sleep n (lab_base l)) l;
  excel_read_fault := fun path sheet => on_base (excel_read_fault path sheet);
  excel_write_fault := fun path sheet => on_base (excel_write_fault path sheet);
  read_cell := sim_read_cell;
  read_label := sim_read_label;
  chromium_launch := fun l =>
    (as_exc (next_outcome (lab_launch l)),
     mkLab (lab_base l) (tail (lab_launch l)) (lab_login l) (lab_popup l)
           (lab_wait l));
  login_steps := fun l => (as_exc (lab_login l), l);
  console_input := on_base console_input;
  load_company_list := on_base load_company_list;
  browser_close := on_base browser_close;
  BeautifulSoup := lab_soup;
  py_strip := sim_strip
|}.

Definition lab_state (l : Lab) (files : gmap string (gmap string DataFrame))
  : St Lab :=
  mkSt l files Unbound Unbound.

(** The table finishes loading at the third poll. *)
Definition sim_slow : Sim :=
  mkSim [] [loading_markup; loading_markup; table_markup] [] [] [] [] [].

(** The markup of the table cannot be read. *)
Definition sim_no_table : Sim := mkSim [] [] [] [] [] [] [].

Definition lab_headless : Lab :=
  mkLab (mkSim [] [headless_markup] [] [] [] [] []) [] None None None.

Definition lab_clash : Lab :=
  mkLab (mkSim [] [clash_markup] [] [] [] [] []) [] None None None.

(** Every row of a frame has one cell per column. *)
Definition rectangular (df : DataFrame) : Prop :=
  Forall (fun r => length r = length (columns df)) (rows df).

(** The read of the sheet raises once. *)
Definition sim_read_fails : Sim :=
  mkSim [] [table_markup] [] [] [] [Some OSError] [].

(** A sheet that is there stays there. *)
Definition sheets_stay {E : Type} : St E -> St E -> list Event -> Prop :=
  fun st st' _ =>
    forall p s, is_Some (sheet_of st p s) -> is_Some (sheet_of st' p s).

(** Rectangular sheets stay rectangular. *)
Definition stays_rectangular {E : Type} : St E -> St E -> list Event -> Prop :=
  fun st st' _ =>
    (forall p s d, sheet_of st p s = Some d -> rectangular d) ->
    forall p s d, sheet_of st' p s = Some d -> rectangular d.

(** The labels clicked, in order. *)
Fixpoint clicked (tr : list Event) : list string :=
  match tr with
  | [] => []
  | Did (CClickTab _ label) _ :: tr' => label :: clicked tr'
  | _ :: tr' => clicked tr'
  end.

(** The labels reported as not found, in order. *)
Fixpoint not_found (tr : list Event) : list string :=
  match tr with
  | [] => []
  | Log WARNING (MsgTabNotFound label) :: tr' => label :: not_found tr'
  | _ :: tr' => not_found tr'
  end.

(** The first tab is there but the page never settles after the click. *)
Definition lab_unsettled : Lab :=
  mkLab (mkSim [] [table_markup] ["历史股东信息"] [] [] [] []) [] None None
        (Some TimeoutError).

(** The click on the company link opens no popup. *)
Definition lab_no_popup : Lab :=
  mkLab sim_ok [] None (Some TimeoutError) None.

(** The launches that raised, with the warnings they left; [attempt] is the
    number logged for the first of them. *)
Fixpoint launch_failures (attempt : nat) (es : list Exn) : list Event :=
  match es with
  | [] => []
  | e :: es' =>
      Did CLaunch (Some e)
      :: Log WARNING (MsgLaunchFailed attempt e)
      :: launch_failures (S attempt) es'
  end.

(** The outcomes of the closes of the browser, in order. *)
Fixpoint browser_closes (tr : list Event) : list (option Exn) :=
  match tr with
  | [] => []
  | Did CBrowserClose r :: tr' => r :: browser_closes tr'
  | _ :: tr' => browser_closes tr'
  end.

(** Any event but a close of the browser. *)
Definition not_a_close (ev : Event) : Prop :=
  match ev with
  | Did CBrowserClose _ => False
  | _ => True
  end.

(** The browser cannot be launched. *)
Definition lab_no_browser : Lab :=
  mkLab sim_ok [Some OSError; Some OSError; Some OSError] None None None.

(** The login form cannot be submitted. *)
Definition lab_login_fails : Lab :=
  mkLab sim_ok [] (Some TimeoutError) None None.

(** All goes well. *)
Definition lab_plain : Lab := mkLab sim_ok [] None None None.

(** What [run] does once [retry_open_browser] has returned [opened]
    (lines 168-192). *)
Definition after_launch {E : Type} `{External E} (opened : option unit)
  : M E unit :=
  match opened with
  | None => logging CRITICAL MsgExiting
  | Some _ =>
      call CLogin login_steps ;;
      logging INFO MsgWaitCaptcha ;;
      call CInput console_input ;;
      company_list <- call CLoadCompanies load_company_list ;;
      scrape_all company_list
  end.

(** * Proofs *)

Ltac in_list := simpl; repeat (first [left; reflexivity | right]).

(** ** The monad *)

Section MonadFacts.

Context {E : Type} `{External E}.

Lemma bind_ok {A B : Type} (m : M E A) (f : A -> M E B) st a st1 t1 :
  m st = (inr a, st1, t1) ->
  bind m f st = ((f a st1).1.1, (f a st1).1.2, t1 ++ (f a st1).2).
Proof.
  intros Hm. unfold bind. rewrite Hm.
  destruct (f a st1) as [[r st2] t2]. reflexivity.
Qed.

Lemma bind_raise {A B : Type} (m : M E A) (f : A -> M E B) st e st1 t1 :
  m st = (inl e, st1, t1) -> bind m f st = (inl e, st1, t1).
Proof. intros Hm. unfold bind. rewrite Hm. reflexivity. Qed.

Section Respects.

Variable R : St E -> St E -> list Event -> Prop.
Context `{!Frame R}.

Lemma respects_ret {A : Type} (a : A) : respects R (ret a).
Proof. intros st. apply frame_nil. Qed.

Lemma respects_raise {A : Type} (e : Exn) : respects R (raise (A := A) e).
Proof. intros st. apply frame_nil. Qed.

Lemma respects_get {A : Type} (f : St E -> A) : respects R (get f).
Proof. intros st. apply frame_nil. Qed.

Lemma respects_lift {A : Type} (r : Exc A) : respects R (lift r).
Proof. destruct r; [apply respects_raise | apply respects_ret]. Qed.

Lemma respects_bind {A B : Type} (m : M E A) (f : A -> M E B) :
  respects R m -> (forall a, respects R (f a)) -> respects R (bind m f).
Proof.
  intros Hm Hf st. specialize (Hm st). unfold bind.
  destruct (m st) as [[[e | a] st1] t1]; simpl in *; [assumption |].
  specialize (Hf a st1). destruct (f a st1) as [[r st2] t2]; simpl in *.
  eapply frame_app; eassumption.
Qed.

Lemma respects_try_except {A : Type} (m : M E A) (h : Exn -> M E A) :
  respects R m -> (forall e, respects R (h e)) -> respects R (try_except m h).
Proof.
  intros Hm Hh st. specialize (Hm st). unfold try_except.
  destruct (m st) as [[[e | a] st1] t1]; simpl in *; [| assumption].
  specialize (Hh e st1). destruct (h e st1) as [[r st2] t2]; simpl in *.
  eapply frame_app; eassumption.
Qed.

Lemma respects_try_finally {A : Type} (m : M E A) (fin : M E unit) :
  respects R m -> respects R fin -> respects R (try_finally m fin).
Proof.
  intros Hm Hf st. specialize (Hm st). unfold try_finally.
  destruct (m st) as [[r st1] t1]; simpl in *.
  specialize (Hf st1). destruct (fin st1) as [[[e | u] st2] t2]; simpl in *;
    eapply frame_app; eassumption.
Qed.

Lemma respects_logging lvl msg :
  (forall st, R st st [Log lvl msg]) -> respects R (logging lvl msg).
Proof. intros HR st. apply HR. Qed.

Lemma respects_call {A : Type} c (op : E -> Exc A * E) :
  (forall st e r, R st (set_ext e st) [Did c r]) -> respects R (call c op).
Proof.
  intros HR st. unfold call. destruct (op (ext st)) as [r e']. apply HR.
Qed.

Lemma respects_put (g : St E -> St E) :
  (forall st, R st (g st) []) -> respects R (put g).
Proof. intros HR st. apply HR. Qed.

Lemma respects_sleep n :
  (forall st e, R st (set_ext e st) [Did (CSleep n) None]) ->
  respects R (sleep n).
Proof. intros HR st. apply HR. Qed.

End Respects.

(** ** Code that cannot raise *)

Lemma returns_ret {A : Type} (a : A) : returns (ret (E := E) a).
Proof. intros st. exists a. reflexivity. Qed.

Lemma returns_logging lvl msg : returns (logging (E := E) lvl msg).
Proof. intros st. exists tt. reflexivity. Qed.

Lemma returns_bind {A B : Type} (m : M E A) (f : A -> M E B) :
  returns m -> (forall a, returns (f a)) -> returns (bind m f).
Proof.
  intros Hm Hf st. destruct (Hm st) as [a Ha]. unfold bind.
  destruct (m st) as [[r st1] t1]; simpl in Ha; subst r.
  destruct (Hf a st1) as [b Hb].
  destruct (f a st1) as [[r st2] t2]; simpl in *. exists b. assumption.
Qed.

Lemma returns_try_except {A : Type} (m : M E A) (h : Exn -> M E A) :
  (forall e, returns (h e)) -> returns (try_except m h).
Proof.
  intros Hh st. unfold try_except.
  destruct (m st) as [[[e | a] st1] t1]; simpl.
  - destruct (Hh e st1) as [b Hb].
    destruct (h e st1) as [[r st2] t2]; simpl in *. exists b. assumption.
  - exists a. reflexivity.
Qed.

Lemma returns_unit (m : M E unit) st :
  returns m -> m st = (inr tt, (m st).1.2, (m st).2).
Proof.
  intros Hm. destruct (Hm st) as [[] Ha].
  destruct (m st) as [[r st1] t1]; simpl in *. subst r. reflexivity.
Qed.

Lemma bind_inv {A B : Type} (m : M E A) (f : A -> M E B) st r st' tr :
  bind m f st = (r, st', tr) ->
  (exists e, m st = (inl e, st', tr) /\ r = inl e)
  \/ (exists a st1 t1 t2,
        m st = (inr a, st1, t1) /\ f a st1 = (r, st', t2) /\ tr = t1 ++ t2).
Proof.
  unfold bind. destruct (m st) as [[[e | a] st1] t1].
  - intros Hrun. injection Hrun as <- <- <-. left. eauto.
  - destruct (f a st1) as [[r2 st2] t2] eqn:Hf.
    intros Hrun. injection Hrun as <- <- <-. right. eauto 10.
Qed.

Lemma try_except_inv {A : Type} (m : M E A) h st r st' tr :
  try_except m h st = (r, st', tr) ->
  (exists a, m st = (inr a, st', tr) /\ r = inr a)
  \/ (exists e st1 t1 t2,
        m st = (inl e, st1, t1) /\ h e st1 = (r, st', t2) /\ tr = t1 ++ t2).
Proof.
  unfold try_except. destruct (m st) as [[[e | a] st1] t1].
  - destruct (h e st1) as [[r2 st2] t2] eqn:Hh.
    intros Hrun. injection Hrun as <- <- <-. right. eauto 10.
  - intros Hrun. injection Hrun as <- <- <-. left. eauto.
Qed.

End MonadFacts.

(** Going through a program along its structure; [prim] settles the
    primitive steps. *)
Ltac walk prim :=
  repeat match goal with
  | |- respects ?R (bind _ _) => apply (respects_bind R); [| intros ?]
  | |- respects ?R (try_except _ _) =>
      apply (respects_try_except R); [| intros ?]
  | |- respects ?R (try_finally _ _) => apply (respects_try_finally R)
  | |- respects ?R (ret _) => apply (respects_ret R)
  | |- respects ?R (raise _) => apply (respects_raise R)
  | |- respects ?R (get _) => apply (respects_get R)
  | |- respects ?R (lift _) => apply (respects_lift R)
  | |- respects _ (find_section _) => unfold find_section
  | |- respects ?R (logging _ _) => apply (respects_logging R); prim
  | |- respects ?R (call _ _) => apply (respects_call R); prim
  | |- respects ?R (sleep _) => apply (respects_sleep R); prim
  | |- respects ?R (put _) => apply (respects_put R); prim
  | |- respects _ (match ?x with _ => _ end) => destruct x
  end.

(** ** [append_to_excel] *)

Ltac run_merge :=
  unfold append_to_excel, try_except, bind, os_path_exists, get,
    to_excel_new, read_excel, to_excel_replace, lift, logging, ret, raise.

(** The cases of one merge: the file is there or not, the read raises or
    not, the sheet is there or not, the concatenation raises or not, the
    write goes through, cannot start, or raises part of the way. *)
Ltac merge_cases st path sheet df :=
  let wb := fresh "wb" in
  let Hwb := fresh "Hwb" in
  run_merge; simpl;
  destruct (fs st !! path) as [wb |] eqn:Hwb; simpl;
  [ destruct (excel_read_fault path sheet (ext st)) as [[? |] ?];
      simpl; rewrite ?Hwb; simpl;
      [ | destruct (wb !! sheet) as [? |] eqn:?;
            simpl; rewrite ?Hwb; simpl;
            [ destruct (pd_concat _ df) as [? | ?] eqn:?; simpl | ] ]
  | ];
  try (destruct (excel_write_fault path sheet _) as [[[? [? |]] |] ?];
       simpl; rewrite ?Hwb; simpl).

Section Merge.

Context {E : Type} `{External E}.

Lemma append_to_excel_returns df path sheet :
  returns (append_to_excel (E := E) df path sheet).
Proof.
  apply returns_try_except. intros e. apply returns_logging.
Qed.

(** What a merge can do to the files: nothing, or set the target sheet of
    the target file.  It ends with an error record or with the record that
    the data was appended. *)
Lemma append_to_excel_fs df path sheet (st : St E) :
  let st' := (append_to_excel df path sheet st).1.2 in
  (fs st' = fs st
   \/ exists df', fs st' =
        <[path := <[sheet := df']> (default ∅ (fs st !! path))]> (fs st))
  /\ ((exists e, In (Log ERROR (MsgAppendError e))
                   (append_to_excel df path sheet st).2)
      \/ In (Log INFO (MsgAppended path sheet))
            (append_to_excel df path sheet st).2).
Proof.
  merge_cases st path sheet df;
    (split;
     [ first [ left; reflexivity
             | right; eexists; reflexivity
             | right; eexists; rewrite insert_empty; reflexivity ]
     | first [ solve [left; eexists; in_list] | solve [right; in_list] ] ]).
Qed.


Lemma sheet_of_insert (st st' : St E) path sheet df' p s :
  fs st' = <[path := <[sheet := df']> (default ∅ (fs st !! path))]> (fs st) ->
  (p, s) <> (path, sheet) ->
  sheet_of st' p s = sheet_of st p s.
Proof.
  intros Hfs Hne. unfold sheet_of. rewrite Hfs.
  destruct (decide (path = p)) as [-> | Hp].
  - rewrite lookup_insert_eq.
    rewrite lookup_insert_ne by (intros ->; apply Hne; reflexivity).
    destruct (fs st !! p); [reflexivity | apply lookup_empty].
  - rewrite lookup_insert_ne by assumption. reflexivity.
Qed.

(** C8. A merge into one sheet of a workbook leaves every other sheet of
    that workbook, and every sheet of every other file, as it was: whatever
    the outside world does, the frame stored under any other (file, sheet)
    pair after [append_to_excel] is the one stored there before. *)
Theorem append_to_excel_other_sheets df path sheet (st : St E) p s :
  (p, s) <> (path, sheet) ->
  sheet_of (append_to_excel df path sheet st).1.2 p s = sheet_of st p s.
Proof.
  intros Hne.
  destruct (append_to_excel_fs df path sheet st) as [[Hfs | [df' Hfs]] _].
  - unfold sheet_of. rewrite Hfs. reflexivity.
  - eapply sheet_of_insert; eassumption.
Qed.

(** C1 (amended). When the target sheet of an existing workbook holds a
    frame that reads back as it was stored (no cell and no label comes back
    changed), under the column labels of the new snapshot, and neither the
    read of that sheet nor the write of the workbook raises,
    [append_to_excel] returns with the sheet holding the stored rows, in
    their order, followed by the rows of the snapshot, in theirs; the other
    sheets are those of the workbook read. *)
Theorem append_to_excel_appends df path sheet (st : St E) wb existing e1 e2 :
  fs st !! path = Some wb ->
  wb !! sheet = Some existing ->
  read_back existing = existing ->
  columns existing = columns df ->
  excel_read_fault path sheet (ext st) = (None, e1) ->
  excel_write_fault path sheet e1 = (None, e2) ->
  append_to_excel df path sheet st =
    (inr tt,
     set_fs (<[path := <[sheet := mkDF (columns existing)
                                       (rows existing ++ rows df)]> wb]> (fs st))
            (set_ext e2 st),
     [Did (CReadExcel path sheet) None;
      Did (CWriteExcel path sheet true) None;
      Log INFO (MsgAppended path sheet)])
  /\ sheet_of (append_to_excel df path sheet st).1.2 path sheet =
       Some (mkDF (columns existing) (rows existing ++ rows df)).
Proof.
  intros Hwb Hsheet Hback Hcols Hread Hwrite.
  assert (Hrun : append_to_excel df path sheet st =
    (inr tt,
     set_fs (<[path := <[sheet := mkDF (columns existing)
                                       (rows existing ++ rows df)]> wb]> (fs st))
            (set_ext e2 st),
     [Did (CReadExcel path sheet) None;
      Did (CWriteExcel path sheet true) None;
      Log INFO (MsgAppended path sheet)])).
  { run_merge. simpl. rewrite Hwb. simpl. rewrite Hread. simpl.
    rewrite Hwb, Hsheet, Hback. simpl.
    unfold pd_concat, same_columns.
    rewrite bool_decide_eq_true_2 by assumption. simpl.
    rewrite Hwrite. simpl. rewrite Hwb. reflexivity. }
  split; [exact Hrun |].
  rewrite Hrun. unfold sheet_of. simpl.
  rewrite lookup_insert_eq. apply lookup_insert_eq.
Qed.

(** A writer that cannot be opened is logged and leaves every file as it
    was. *)
Lemma append_to_excel_write_raises df path sheet (st : St E) e e1 e2 :
  excel_read_fault path sheet (ext st) = (None, e1) ->
  excel_write_fault path sheet e1 = (Some (e, None), e2) ->
  is_Some (fs st !! path) ->
  fs (append_to_excel df path sheet st).1.2 = fs st
  /\ (append_to_excel df path sheet st).1.1 = inr tt.
Proof.
  intros Hread Hwrite [wb Hwb].
  run_merge. simpl. rewrite Hwb. simpl. rewrite Hread. simpl. rewrite Hwb.
  destruct (wb !! sheet) as [existing |]; simpl.
  - destruct (pd_concat (read_back existing) df) as [e' | df']; simpl.
    + split; reflexivity.
    + rewrite Hwrite. simpl. split; reflexivity.
  - rewrite Hwrite. simpl. split; reflexivity.
Qed.

End Merge.

(** ** [scrape_table] *)

Section Table.

Context {E : Type} `{External E}.

Lemma collect_rows_spec headers trs rows (st : St E) :
  collect_rows headers trs rows st =
    (inr (rows ++ List.filter (fits headers) trs), st,
     map is_warning (List.filter (fun cols => negb (fits headers cols)) trs)).
Proof.
  revert rows. induction trs as [| cols trs IH]; intros rows; simpl.
  - rewrite app_nil_r. reflexivity.
  - change (Nat.eqb (length cols) (length headers)) with (fits headers cols).
    destruct (fits headers cols) eqn:Hfit; simpl.
    + rewrite IH, <- app_assoc. reflexivity.
    + unfold bind, logging. rewrite IH. reflexivity.
Qed.

Lemma max_width_fitting (data : list (list string)) n :
  Forall (fun r => length r = n) data -> data <> [] -> max_width data = n.
Proof.
  induction 1 as [| r data Hr Hdata IH]; intros Hne; [congruence |].
  simpl. destruct data as [| r' data'].
  - simpl. lia.
  - rewrite IH by discriminate. lia.
Qed.

Lemma pad_row_fitting w r : length r = w -> pad_row w r = map Str r.
Proof.
  intros <-. unfold pad_row. rewrite Nat.sub_diag. apply app_nil_r.
Qed.

Lemma DataFrame_new_fitting (data : list (list string)) cols :
  Forall (fun r => length r = length cols) data ->
  DataFrame_new data cols = inr (mkDF cols (map (map Str) data)).
Proof.
  intros Hfit. unfold DataFrame_new.
  destruct data as [| r data']; [reflexivity |].
  rewrite (max_width_fitting _ _ Hfit) by discriminate.
  rewrite Nat.eqb_refl. f_equal. f_equal.
  apply map_ext_in. intros r' Hin. apply pad_row_fitting.
  rewrite Forall_forall in Hfit. apply Hfit.
  apply list_elem_of_In. assumption.
Qed.

Lemma filter_fits_Forall headers trs :
  Forall (fun r : list string => length r = length headers)
         (List.filter (fits headers) trs).
Proof.
  apply Forall_forall. intros r Hin.
  apply list_elem_of_In, filter_In in Hin. destruct Hin as [_ Hfit].
  apply Nat.eqb_eq. exact Hfit.
Qed.

(** What [build_frame] returns when it returns. *)
Lemma build_frame_ok soup original_name matched_name (st st' : St E) df tr :
  build_frame soup original_name matched_name st = (inr df, st', tr) ->
  exists headers trs,
    thead soup = Some headers
    /\ tbody soup = Some trs
    /\ df = mkDF ("Original Company Name" :: "Matched Company Name" :: headers)
                 (map (frame_row original_name matched_name)
                      (List.filter (fits headers) trs))
    /\ st' = st
    /\ tr = map is_warning
               (List.filter (fun cols => negb (fits headers cols)) trs).
Proof.
  unfold build_frame, find_section.
  destruct (thead soup) as [headers |]; [| discriminate].
  destruct (tbody soup) as [trs |]; [| discriminate].
  intros Hrun. exists headers, trs. split; [reflexivity |]. split; [reflexivity |].
  revert Hrun. unfold bind at 1 2 3. simpl.
  rewrite collect_rows_spec. simpl.
  rewrite (DataFrame_new_fitting _ _ (filter_fits_Forall headers trs)).
  unfold bind, lift, ret, raise, df_insert. simpl.
  destruct (has_column "Original Company Name" headers); simpl; [discriminate |].
  unfold has_column. cbn [existsb]. fold (has_column "Matched Company Name" headers).
  replace (String.eqb "Matched Company Name" "Original Company Name")
    with false by reflexivity.
  cbn [orb].
  destruct (existsb (String.eqb "Matched Company Name") (drop 0 headers));
    simpl; [discriminate |].
  intros Hrun. injection Hrun as <- <- <-.
  split; [| split; [reflexivity | rewrite !app_nil_r; reflexivity]].
  f_equal. rewrite !map_map. apply map_ext. intros cols. reflexivity.
Qed.

Lemma poll_table_some page n k (st st1 : St E) html t1 :
  poll_table page n k st = (inr (Some html), st1, t1) ->
  contains loading_marker html = false
  /\ In (Did (CInnerHtml page) None) t1
  /\ exists e e', table_inner_html page e = (inr html, e').
Proof.
  revert k st t1. induction n as [| n IH]; intros k st t1; simpl.
  - discriminate.
  - unfold bind at 1, call.
    destruct (table_inner_html page (ext st)) as [[e | h] e'] eqn:Hpoll; simpl.
    + discriminate.
    + destruct (contains loading_marker h) eqn:Hmark; simpl.
      * unfold bind at 1 2, logging, sleep. simpl.
        destruct (poll_table page n (k + 1) _) as [[r st2] t2] eqn:Hrest.
        intros Hrun. injection Hrun as -> -> <-.
        destruct (IH _ _ _ Hrest) as (Hc & Hin & Hex).
        split; [exact Hc |]. split; [| exact Hex]. left. reflexivity.
      * intros Hrun. injection Hrun as <- <- <-.
        split; [exact Hmark |]. split; [left; reflexivity | eauto].
Qed.

(** Where a returned frame comes from: a poll that found the table loaded,
    then [build_frame] on its markup. *)
Lemma scrape_table_some page original_name matched_name title
  (st st' : St E) df tr :
  scrape_table page original_name matched_name title st
    = (inr (Some df), st', tr) ->
  exists html st1 t1 t2,
    poll_table page max_retries 0 st = (inr (Some html), st1, t1)
    /\ build_frame (BeautifulSoup html) original_name matched_name st1
         = (inr df, st', t2)
    /\ tr = Log INFO (MsgScraping title original_name)
            :: t1 ++ Log DEBUG (MsgTableHtml title) :: t2.
Proof.
  unfold scrape_table. intros Hrun.
  apply try_except_inv in Hrun.
  destruct Hrun as [(a & Hbody & Ha) | (e & st1 & t1 & t2 & _ & Hh & _)].
  2:{ apply bind_inv in Hh.
      destruct Hh as [(e' & Hlog & _) | (u & s1 & u1 & u2 & _ & Hret & _)];
        discriminate. }
  injection Ha as <-.
  apply bind_inv in Hbody.
  destruct Hbody as [(e & _ & He) | (u & s0 & u1 & u2 & Hlog & Hrest & ->)];
    [discriminate |].
  injection Hlog as <- <- <-.
  apply bind_inv in Hrest.
  destruct Hrest as [(e & _ & He) | (loaded & s1 & t1 & t2 & Hpoll & Hrest & ->)];
    [discriminate |].
  destruct loaded as [html |].
  2:{ apply bind_inv in Hrest.
      destruct Hrest as [(e' & Hlog & _) | (u' & s2 & v1 & v2 & _ & Hret & _)];
        discriminate. }
  apply bind_inv in Hrest.
  destruct Hrest as [(e & _ & He) | (u' & s2 & v1 & v2 & Hlog & Hrest & ->)];
    [discriminate |].
  injection Hlog as <- <- <-.
  apply bind_inv in Hrest.
  destruct Hrest as [(e & _ & He) | (df' & s3 & w1 & w2 & Hframe & Hret & ->)];
    [discriminate |].
  injection Hret as <- <- <-.
  exists html, s1, t1, w1. split; [exact Hpoll |]. split; [exact Hframe |].
  simpl. rewrite app_nil_r. reflexivity.
Qed.

Lemma frame_row_inj o m a b : frame_row o m a = frame_row o m b -> a = b.
Proof.
  unfold frame_row. intros Heq. injection Heq as Heq.
  revert b Heq. induction a as [| x a IH]; intros [| y b] Heq;
    simpl in Heq; try discriminate; [reflexivity |].
  injection Heq as -> Heq. f_equal. apply IH. exact Heq.
Qed.

(** C3. When [scrape_table] returns a frame, the frame is made from a
    markup in which the loading marker no longer shows, and a body row of
    that markup stands in the frame if and only if it has as many cells as
    there are headers: the rows of the frame are the fitting body rows, in
    order, each behind the two identifier cells; every other body row has
    left a warning in the log and is absent; so every row of the frame has
    [len(headers)] scraped cells behind the two identifiers. *)
Theorem scrape_table_row_shape page original_name matched_name title
  (st st' : St E) df tr :
  scrape_table page original_name matched_name title st
    = (inr (Some df), st', tr) ->
  exists html headers trs,
    contains loading_marker html = false
    /\ thead (BeautifulSoup html) = Some headers
    /\ tbody (BeautifulSoup html) = Some trs
    /\ columns df
       = "Original Company Name" :: "Matched Company Name" :: headers
    /\ rows df = map (frame_row original_name matched_name)
                     (List.filter (fits headers) trs)
    /\ (forall cols, In cols trs ->
          (In (frame_row original_name matched_name cols) (rows df)
           <-> length cols = length headers))
    /\ (forall cols, In cols trs -> length cols <> length headers ->
          In (Log WARNING (MsgIncompleteRow cols)) tr)
    /\ (forall r, In r (rows df) ->
          exists cols, r = frame_row original_name matched_name cols
                       /\ In cols trs
                       /\ length cols = length headers
                       /\ length r = 2 + length headers).
Proof.
  intros Hrun.
  destruct (scrape_table_some _ _ _ _ _ _ _ _ Hrun)
    as (html & st1 & t1 & t2 & Hpoll & Hframe & ->).
  destruct (poll_table_some _ _ _ _ _ _ _ Hpoll) as (Hmark & _ & _).
  destruct (build_frame_ok _ _ _ _ _ _ _ Hframe)
    as (headers & trs & Hhead & Hbody & -> & _ & ->).
  exists html, headers, trs. simpl.
  repeat (split; [solve [assumption | reflexivity] |]).
  split; [| split].
  - intros cols Hin. rewrite in_map_iff. split.
    + intros (cols' & Heq & Hin'). apply frame_row_inj in Heq. subst cols'.
      apply filter_In in Hin'. destruct Hin' as [_ Hfit].
      apply Nat.eqb_eq. exact Hfit.
    + intros Hlen. exists cols. split; [reflexivity |].
      apply filter_In. split; [exact Hin |]. apply Nat.eqb_eq. exact Hlen.
  - intros cols Hin Hlen. right. apply in_or_app. right. right.
    apply in_map_iff. exists cols. split; [reflexivity |].
    apply filter_In. split; [exact Hin |].
    apply negb_true_iff, Nat.eqb_neq. exact Hlen.
  - intros r Hin. apply in_map_iff in Hin. destruct Hin as (cols & <- & Hin).
    apply filter_In in Hin. destruct Hin as [Hin Hfit].
    apply Nat.eqb_eq in Hfit. exists cols.
    repeat split; try assumption.
    unfold frame_row. simpl. rewrite length_map, Hfit. reflexivity.
Qed.

(** A table that shows the marker at each of the [n] polls left uses all
    of them up. *)
Lemma poll_table_loading page n k (st : St E) :
  keeps_loading n page (ext st) ->
  exists st',
    poll_table page n k st
      = (inr None, st', concat (map (loading_round page) (seq k n)))
    /\ fs st' = fs st.
Proof.
  revert k st. induction n as [| n IH]; intros k st Hload.
  - exists st. split; reflexivity.
  - destruct Hload as (html & e' & Hpoll & Hmark & Hrest).
    destruct (IH (k + 1) (set_ext (time_sleep 2 e') st) Hrest)
      as (st' & Hrun & Hfs).
    exists st'. split; [| exact Hfs].
    cbn [poll_table]. unfold bind at 1, call. rewrite Hpoll. cbn [exn_of].
    rewrite Hmark. cbn [negb].
    unfold bind at 1 2, logging, sleep. cbn [ext set_ext] in *.
    replace (set_ext (time_sleep 2 e') (set_ext e' st))
      with (set_ext (time_sleep 2 e') st) by reflexivity.
    rewrite Hrun. cbn [seq map concat loading_round app].
    replace (S k) with (k + 1) by lia. reflexivity.
Qed.

(** C4. On a table whose markup shows the loading marker at every one of
    [max_retries] polls two seconds apart, [scrape_table] returns [None]
    after exactly five polls, each followed by a two-second pause, and a
    final error record; no further call is made. *)
Theorem scrape_table_gives_up page original_name matched_name title
  (st : St E) :
  keeps_loading max_retries page (ext st) ->
  exists st',
    scrape_table page original_name matched_name title st
      = (inr None, st',
         Log INFO (MsgScraping title original_name)
         :: (loading_round page 0 ++ loading_round page 1
             ++ loading_round page 2 ++ loading_round page 3
             ++ loading_round page 4)
         ++ [Log ERROR (MsgNotLoaded title original_name)])
    /\ fs st' = fs st
    /\ max_retries = 5.
Proof.
  intros Hload.
  destruct (poll_table_loading page max_retries 0 st Hload)
    as (st' & Hrun & Hfs).
  exists st'. split; [| split; [exact Hfs | reflexivity]].
  unfold scrape_table, try_except.
  unfold bind at 1, logging.
  unfold bind at 1. rewrite Hrun.
  reflexivity.
Qed.

End Table.

(** ** Relations that hold along the whole program *)

Section Walk.

Context {E : Type} `{External E}.

Variable R : St E -> St E -> list Event -> Prop.
Context `{!Frame R}.

(** The sheets a merge may target. *)
Variable ok : string -> string -> Prop.

Hypothesis Hlog : forall lvl msg st, inner_msg msg -> R st st [Log lvl msg].
Hypothesis Hcall : forall c r (st : St E) e,
  inner_call c -> R st (set_ext e st) [Did c r].
Hypothesis Happend : forall df path sheet,
  ok path sheet -> respects R (append_to_excel df path sheet).
Hypothesis Hopen : respects R open_popup.

Ltac prim := intros; first [apply Hcall; exact I | apply Hlog; exact I].

Lemma poll_table_respects page n k : respects R (poll_table page n k).
Proof.
  revert k. induction n as [| n IH]; intros k; simpl; walk prim. apply IH.
Qed.

Lemma collect_rows_respects headers trs rows :
  respects R (collect_rows headers trs rows).
Proof.
  revert rows. induction trs as [| cols trs IH]; intros rows; simpl;
    walk prim; apply IH.
Qed.

Lemma build_frame_respects soup o m : respects R (build_frame soup o m).
Proof. unfold build_frame. walk prim. apply collect_rows_respects. Qed.

Lemma scrape_table_respects page o m title :
  respects R (scrape_table page o m title).
Proof.
  unfold scrape_table. walk prim.
  - apply poll_table_respects.
  - apply build_frame_respects.
Qed.

Lemma activate_tab_respects popup tab : respects R (activate_tab popup tab).
Proof. unfold activate_tab. walk prim. Qed.

Lemma switch_tab_respects popup labels : respects R (switch_tab popup labels).
Proof.
  induction labels as [| tab labels IH]; simpl; walk prim;
    [apply activate_tab_respects | apply IH].
Qed.

Lemma main_table_step_respects popup name text :
  ok output_file "Shareholders" ->
  respects R (main_table_step popup name text).
Proof.
  intros Hok. unfold main_table_step. walk prim.
  - apply scrape_table_respects.
  - apply Happend, Hok.
Qed.

Lemma historical_step_respects popup name text :
  ok output_file "Historical Shareholders" ->
  respects R (historical_step popup name text).
Proof.
  intros Hok. unfold historical_step. walk prim.
  - apply switch_tab_respects.
  - unfold historical_table_step. walk prim.
    + apply scrape_table_respects.
    + apply Happend, Hok.
Qed.

(** The body writes its opening record and then goes on within [R]. *)
Lemma company_body_inner name (st : St E) :
  ok output_file "Shareholders" ->
  ok output_file "Historical Shareholders" ->
  exists tr',
    (company_body name st).2 = Log INFO (MsgStart name) :: tr'
    /\ R st (company_body name st).1.2 tr'.
Proof.
  intros Hmain Hhist. unfold company_body. cbn [truthy negb].
  match goal with
  | |- context [bind (logging INFO (MsgStart name)) ?k] =>
      assert (Hk : respects R (k tt))
  end.
  { unfold stripped_text. walk prim.
    - apply Hopen.
    - apply main_table_step_respects, Hmain.
    - apply historical_step_respects, Hhist. }
  specialize (Hk st).
  rewrite (bind_ok _ _ st tt st [Log INFO (MsgStart name)]) by reflexivity.
  cbn [fst snd app]. eexists. split; [reflexivity | exact Hk].
Qed.

Lemma guarded_body_inner name (st : St E) :
  ok output_file "Shareholders" ->
  ok output_file "Historical Shareholders" ->
  exists tr',
    (guarded_body name st).2 = Log INFO (MsgStart name) :: tr'
    /\ R st (guarded_body name st).1.2 tr'.
Proof.
  intros Hmain Hhist.
  destruct (company_body_inner name st Hmain Hhist) as (tr' & Htr & HR).
  unfold guarded_body, try_except.
  destruct (company_body name st) as [[[e | []] st1] t1]; simpl in *; subst t1.
  - exists (tr' ++ [Log ERROR (MsgCompanyError name e)]).
    split; [reflexivity |].
    eapply frame_app; [exact HR | apply Hlog; exact I].
  - exists tr'. split; [reflexivity | exact HR].
Qed.

End Walk.

(** ** The relations are frames *)

Section Frames.

Context {E : Type} `{External E}.

Lemma track_app local t1 t2 : track local (t1 ++ t2) = track (track local t1) t2.
Proof.
  revert local. induction t1 as [| ev t1 IH]; intros local; [reflexivity |].
  destruct ev as [lvl msg | c r | [e | p]]; simpl; apply IH.
Qed.

#[global] Instance popup_tracked_frame : Frame (popup_tracked (E := E)).
Proof.
  split; unfold popup_tracked.
  - reflexivity.
  - intros s1 s2 s3 t1 t2 H1 H2. rewrite track_app, <- H1. exact H2.
Qed.

#[global] Instance emits_frame P : Frame (emits (E := E) P).
Proof.
  split; unfold emits.
  - intros _. constructor.
  - intros _ _ _ t1 t2 H1 H2. apply Forall_app. split; assumption.
Qed.

#[global] Instance keeps_frame {X : Type} (f : St E -> X) : Frame (keeps f).
Proof.
  split; unfold keeps.
  - reflexivity.
  - intros s1 s2 s3 _ _ H1 H2. congruence.
Qed.

#[global] Instance writes_through_frame path sheet :
  Frame (writes_through (E := E) path sheet).
Proof.
  split; unfold writes_through.
  - intros st. left. reflexivity.
  - intros s1 s2 s3 t1 t2 [H1 | (b & r & H1)] [H2 | (b' & r' & H2)].
    + left. congruence.
    + right. exists b', r'. apply in_or_app. right. exact H2.
    + right. exists b, r. apply in_or_app. left. exact H1.
    + right. exists b, r. apply in_or_app. left. exact H1.
Qed.

(** Relations that do not look at the files or at the outside world hold
    of [append_to_excel] whatever its target. *)
Section Insensitive.

Variable R : St E -> St E -> list Event -> Prop.
Context `{!Frame R}.

Hypothesis Hlog : forall lvl msg st, inner_msg msg -> R st st [Log lvl msg].
Hypothesis Hdid : forall c r (st st' : St E),
  popup_page st' = popup_page st -> R st st' [Did c r].

Lemma append_to_excel_insensitive df path sheet :
  respects R (append_to_excel df path sheet).
Proof.
  assert (Hread : respects R (read_excel path sheet)).
  { intros st. unfold read_excel.
    destruct (excel_read_fault path sheet (ext st)) as [[e |] e'];
      apply Hdid; reflexivity. }
  assert (Hnew : forall d, respects R (to_excel_new d path sheet)).
  { intros d st. unfold to_excel_new.
    destruct (excel_write_fault path sheet (ext st)) as [[[e [n |]] |] e'];
      apply Hdid; reflexivity. }
  assert (Hrep : forall d, respects R (to_excel_replace d path sheet)).
  { intros d st. unfold to_excel_replace.
    destruct (excel_write_fault path sheet (ext st)) as [[[e [n |]] |] e'];
      try destruct (fs st !! path); apply Hdid; reflexivity. }
  unfold append_to_excel, os_path_exists.
  walk ltac:(intros; apply Hlog; exact I);
    first [apply Hread | apply Hnew | apply Hrep].
Qed.

End Insensitive.

Lemma open_popup_tracked : respects popup_tracked (open_popup (E := E)).
Proof.
  intros st. unfold open_popup, popup_tracked.
  destruct (link_click_expect_popup (ext st)) as [[e | p] e']; reflexivity.
Qed.

(** After the guarded body, [popup_page] is bound exactly when the trace
    shows that a popup was opened, and to that popup. *)
Lemma guarded_body_tracked name (st : St E) :
  popup_page (guarded_body name st).1.2
  = track (popup_page st) (guarded_body name st).2.
Proof.
  destruct (guarded_body_inner popup_tracked (fun _ _ => True)) with
    (name := name) (st := st) as (tr' & Htr & HR);
    try exact I; try exact open_popup_tracked.
  - intros lvl msg st0 _. reflexivity.
  - intros c r st0 e _. reflexivity.
  - intros df path sheet _. apply (append_to_excel_insensitive popup_tracked).
    + intros lvl msg st0 _. reflexivity.
    + intros c r st0 st' Hpop. exact Hpop.
  - rewrite Htr. exact HR.
Qed.

Lemma emits_one P (ev : Event) (st st' : St E) : P ev -> emits P st st' [ev].
Proof. intros HP. constructor; [exact HP | constructor]. Qed.

(** The guarded body writes its opening record once, at the head, and
    never the no-results warning. *)
Lemma guarded_body_events name (st : St E) :
  exists tr',
    (guarded_body name st).2 = Log INFO (MsgStart name) :: tr'
    /\ Forall inner_event tr'.
Proof.
  destruct (guarded_body_inner (emits inner_event) (fun _ _ => True)) with
    (name := name) (st := st) as (tr' & Htr & HR); try exact I.
  - intros lvl msg st0 Hmsg. apply emits_one. exact Hmsg.
  - intros c r st0 e _. apply emits_one. exact I.
  - intros df path sheet _.
    apply (append_to_excel_insensitive (emits inner_event)).
    + intros lvl msg st0 Hmsg. apply emits_one. exact Hmsg.
    + intros c r st0 st' _. apply emits_one. exact I.
  - intros st0. unfold open_popup.
    destruct (link_click_expect_popup (ext st0)) as [[e | p] e'];
      apply emits_one; exact I.
  - exists tr'. split; [exact Htr | exact HR].
Qed.

(** The merge makes no call but on the workbook. *)
Lemma append_to_excel_no_navigation df path sheet :
  respects (emits (E := E) body_event) (append_to_excel df path sheet).
Proof.
  assert (Hread : respects (emits (E := E) body_event)
                           (read_excel path sheet)).
  { intros st. unfold read_excel.
    destruct (excel_read_fault path sheet (ext st)) as [[e |] e'];
      apply emits_one; exact I. }
  assert (Hnew : forall d, respects (emits (E := E) body_event)
                                    (to_excel_new d path sheet)).
  { intros d st. unfold to_excel_new.
    destruct (excel_write_fault path sheet (ext st)) as [[[e [n |]] |] e'];
      apply emits_one; exact I. }
  assert (Hrep : forall d, respects (emits (E := E) body_event)
                                    (to_excel_replace d path sheet)).
  { intros d st. unfold to_excel_replace.
    destruct (excel_write_fault path sheet (ext st)) as [[[e [n |]] |] e'];
      try destruct (fs st !! path); apply emits_one; exact I. }
  unfold append_to_excel, os_path_exists.
  walk ltac:(intros; apply emits_one; exact I);
    first [apply Hread | apply Hnew | apply Hrep].
Qed.

(** Past its opening record, the guarded body writes inner records only
    and makes inner calls only: it never navigates, and closes nothing. *)
Lemma guarded_body_calls name (st : St E) :
  exists tr',
    (guarded_body name st).2 = Log INFO (MsgStart name) :: tr'
    /\ Forall body_event tr'.
Proof.
  destruct (guarded_body_inner (emits body_event) (fun _ _ => True)) with
    (name := name) (st := st) as (tr' & Htr & HR); try exact I.
  - intros lvl msg st0 Hmsg. apply emits_one. exact Hmsg.
  - intros c r st0 e Hc. apply emits_one. exact Hc.
  - intros df path sheet _. apply append_to_excel_no_navigation.
  - intros st0. unfold open_popup.
    destruct (link_click_expect_popup (ext st0)) as [[e | p] e'];
      apply emits_one; exact I.
  - exists tr'. split; [exact Htr | exact HR].
Qed.

(** A merge into another sheet keeps a sheet. *)
Lemma append_to_excel_keeps df path sheet p s :
  (p, s) <> (path, sheet) ->
  respects (keeps (fun st : St E => sheet_of st p s))
           (append_to_excel df path sheet).
Proof.
  intros Hne st. unfold keeps.
  destruct (append_to_excel_fs df path sheet st) as [[Hfs | [df' Hfs]] _].
  - unfold sheet_of. rewrite Hfs. reflexivity.
  - eapply sheet_of_insert; eassumption.
Qed.


(** Clicking through the tabs and reading a table do not touch the
    files. *)
Lemma switch_tab_keeps_files popup labels :
  respects (keeps (fun st : St E => fs st)) (switch_tab popup labels).
Proof. apply (switch_tab_respects (keeps (fun st : St E => fs st))); intros; exact eq_refl. Qed.



End Frames.

(** ** [scrape_company_tables] *)

Section Orchestrator.

Context {E : Type} `{External E}.

Lemma scrape_table_returns page o m title :
  returns (scrape_table (E := E) page o m title).
Proof.
  apply returns_try_except. intros e.
  apply returns_bind; [apply returns_logging | intros _; apply returns_ret].
Qed.

Lemma main_table_step_returns popup name text :
  returns (main_table_step (E := E) popup name text).
Proof.
  apply returns_bind; [apply scrape_table_returns |].
  intros [df |]; [apply append_to_excel_returns | apply returns_ret].
Qed.




Lemma guarded_body_returns name : returns (guarded_body (E := E) name).
Proof. apply returns_try_except. intros e. apply returns_logging. Qed.

(** The [finally] block from a state whose [popup_page] is [local]. *)
Lemma cleanup_run (st : St E) :
  exists close_r goto_r st',
    cleanup st
    = (as_exc goto_r, st',
       close_events (popup_page st) close_r ++ [Did (CGoto landing_url) goto_r])
    /\ fs st' = fs st.
Proof.
  unfold cleanup, close_popup_page, try_except, bind, get, call, raise, ret.
  destruct (popup_page st) as [| p]; simpl.
  - destruct (page_goto landing_url (ext st)) as [[e | []] e3]; simpl.
    + exists None, (Some e). eexists. split; reflexivity.
    + exists None, None. eexists. split; reflexivity.
  - destruct (popup_close p (ext st)) as [[ec | []] e2]; simpl;
      destruct (page_goto landing_url e2) as [[e | []] e3]; simpl.
    + exists (Some ec), (Some e). eexists. split; reflexivity.
    + exists (Some ec), None. eexists. split; reflexivity.
    + exists None, (Some e). eexists. split; reflexivity.
    + exists None, None. eexists. split; reflexivity.
Qed.

(** One call of the orchestrator: the guarded body, which returns, then the
    cleanup, whose navigation decides the outcome. *)
Lemma scrape_company_tables_shape name (st : St E) :
  exists st1 body_tr close_r goto_r st',
    guarded_body name (set_popup_page Unbound st) = (inr tt, st1, body_tr)
    /\ scrape_company_tables name st
       = (as_exc goto_r, st',
          body_tr ++ close_events (popup_page st1) close_r
                  ++ [Did (CGoto landing_url) goto_r])
    /\ fs st' = fs st1.
Proof.
  pose proof (returns_unit (guarded_body name) (set_popup_page Unbound st)
                (guarded_body_returns name)) as Hbody.
  destruct (guarded_body name (set_popup_page Unbound st))
    as [[rb st1] body_tr] eqn:Hrun.
  simpl in Hbody. injection Hbody as ->.
  destruct (cleanup_run st1) as (close_r & goto_r & st' & Hclean & Hfs).
  exists st1, body_tr, close_r, goto_r, st'.
  split; [reflexivity |]. split; [| exact Hfs].
  unfold scrape_company_tables.
  rewrite (bind_ok _ _ st tt (set_popup_page Unbound st) []) by reflexivity.
  unfold try_finally. fold (guarded_body name). rewrite Hrun, Hclean.
  destruct goto_r as [e |]; reflexivity.
Qed.

(** C5. Every call of [scrape_company_tables], wherever its body stopped
    (the body itself returns, having caught what was raised in it), goes
    through the cleanup: the popup that the trace shows opened, if any, is
    closed, the outcome of the close is dropped, and the primary page is
    then sent to the landing page, whose outcome is the outcome of the
    call. *)
Theorem cleanup_always_runs name (st : St E) :
  exists st1 body_tr close_r goto_r st',
    guarded_body name (set_popup_page Unbound st) = (inr tt, st1, body_tr)
    /\ scrape_company_tables name st
       = (as_exc goto_r, st',
          body_tr ++ close_events (track Unbound body_tr) close_r
                  ++ [Did (CGoto landing_url) goto_r]).
Proof.
  destruct (scrape_company_tables_shape name st)
    as (st1 & body_tr & close_r & goto_r & st' & Hbody & Hrun & _).
  exists st1, body_tr, close_r, goto_r, st'. split; [exact Hbody |].
  rewrite Hrun.
  pose proof (guarded_body_tracked name (set_popup_page Unbound st)) as Htr.
  rewrite Hbody in Htr. simpl in Htr. rewrite Htr. reflexivity.
Qed.



End Orchestrator.

(** ** Switching to the historical tab *)

Section Tabs.

Context {E : Type} `{External E}.

Lemma historical_table_step_returns popup name text tab :
  returns (historical_table_step (E := E) popup name text tab).
Proof.
  apply returns_bind; [apply scrape_table_returns |].
  intros [df |]; [apply append_to_excel_returns | apply returns_ret].
Qed.

(** The loop over the labels only clicks, waits and logs. *)
Lemma switch_tab_events popup labels :
  respects (emits (E := E) tab_event) (switch_tab popup labels).
Proof.
  induction labels as [| tab labels IH]; simpl;
    [apply (respects_ret (emits tab_event)) |].
  unfold activate_tab.
  walk ltac:(intros; apply emits_one; exact I). exact IH.
Qed.

Lemma activate_tab_raises popup tab (st : St E) e e' :
  tab_click popup tab (ext st) = (inl e, e') ->
  activate_tab popup tab st
  = (inr false, set_ext e' st,
     [Did (CClickTab popup tab) (Some e); Log WARNING (MsgTabNotFound tab)]).
Proof.
  intros Hclick. unfold activate_tab, try_except, bind, call, logging, ret.
  rewrite Hclick. reflexivity.
Qed.

Lemma activate_tab_succeeds popup tab (st : St E) e1 e2 :
  tab_click popup tab (ext st) = (inr tt, e1) ->
  wait_for_timeout popup 3000 e1 = (inr tt, e2) ->
  activate_tab popup tab st
  = (inr true, set_ext e2 st,
     [Did (CClickTab popup tab) None; Did (CWaitTimeout popup 3000) None;
      Log INFO (MsgClickedTab tab)]).
Proof.
  intros Hclick Hwait.
  unfold activate_tab, try_except, bind, call, logging, ret.
  rewrite Hclick. simpl. rewrite Hwait. reflexivity.
Qed.

Lemma activate_tab_unsettled popup tab (st : St E) e e1 e2 :
  tab_click popup tab (ext st) = (inr tt, e1) ->
  wait_for_timeout popup 3000 e1 = (inl e, e2) ->
  activate_tab popup tab st
  = (inr false, set_ext e2 st,
     [Did (CClickTab popup tab) None;
      Did (CWaitTimeout popup 3000) (Some e);
      Log WARNING (MsgTabNotFound tab)]).
Proof.
  intros Hclick Hwait.
  unfold activate_tab, try_except, bind, call, logging, ret.
  rewrite Hclick. simpl. rewrite Hwait. reflexivity.
Qed.

(** The three ways one round of the loop can go. *)
Lemma activate_tab_cases popup tab (st : St E) :
  (exists e e1,
      tab_click popup tab (ext st) = (inl e, e1)
      /\ activate_tab popup tab st
         = (inr false, set_ext e1 st,
            [Did (CClickTab popup tab) (Some e);
             Log WARNING (MsgTabNotFound tab)]))
  \/ (exists e1 e e2,
      tab_click popup tab (ext st) = (inr tt, e1)
      /\ wait_for_timeout popup 3000 e1 = (inl e, e2)
      /\ activate_tab popup tab st
         = (inr false, set_ext e2 st,
            [Did (CClickTab popup tab) None;
             Did (CWaitTimeout popup 3000) (Some e);
             Log WARNING (MsgTabNotFound tab)]))
  \/ (exists e1 e2,
      tab_click popup tab (ext st) = (inr tt, e1)
      /\ wait_for_timeout popup 3000 e1 = (inr tt, e2)
      /\ activate_tab popup tab st
         = (inr true, set_ext e2 st,
            [Did (CClickTab popup tab) None;
             Did (CWaitTimeout popup 3000) None;
             Log INFO (MsgClickedTab tab)])).
Proof.
  unfold activate_tab, try_except, bind, call, logging, ret.
  destruct (tab_click popup tab (ext st)) as [[e | []] e1]; simpl.
  - left. exists e, e1. split; reflexivity.
  - destruct (wait_for_timeout popup 3000 e1) as [[e | []] e2] eqn:Hwait;
      simpl.
    + right. left. exists e1, e, e2.
      repeat split; first [exact Hwait | reflexivity].
    + right. right. exists e1, e2.
      repeat split; first [exact Hwait | reflexivity].
Qed.

(** What the historical step does once the loop has settled on [found]. *)
Lemma historical_step_after_switch popup name text (st st1 : St E) found t1 :
  switch_tab popup tab_labels st = (inr found, st1, t1) ->
  historical_step popup name text st
  = match found with
    | None =>
        (inr tt, st1,
         Log INFO MsgAttemptHistorical
         :: t1 ++ [Log ERROR (MsgNoHistoricalTab name)])
    | Some tab =>
        (inr tt, (historical_table_step popup name text tab st1).1.2,
         Log INFO MsgAttemptHistorical
         :: t1 ++ (historical_table_step popup name text tab st1).2)
    end.
Proof.
  intros Hswitch. unfold historical_step, try_except.
  rewrite (bind_ok _ _ st tt st [Log INFO MsgAttemptHistorical])
    by reflexivity.
  rewrite (bind_ok _ _ st found st1 t1) by exact Hswitch.
  destruct found as [tab |]; simpl.
  - rewrite (returns_unit _ st1 (historical_table_step_returns popup name text tab)).
    reflexivity.
  - reflexivity.
Qed.


(** C7. The labels are tried in the order given.  A label whose click and
    settle wait both go through ends the loop with that label, the labels
    after it untried.  A label whose click raises, and a label whose click
    goes through but whose settle wait raises, is logged as not found and
    the loop goes on with the next one.  When the click on the first of the
    two labels raises and the second label activates, the second label is
    what the loop yields and the historical extraction is run under it.
    When the loop yields no label, each of the two labels was clicked and
    logged as not found, and the step ends with an error record, the files
    untouched and no extraction made. *)
Theorem tab_fallback popup name text (st : St E) :
  (forall tab rest e1 e2,
      tab_click popup tab (ext st) = (inr tt, e1) ->
      wait_for_timeout popup 3000 e1 = (inr tt, e2) ->
      switch_tab popup (tab :: rest) st
      = (inr (Some tab), set_ext e2 st,
         [Did (CClickTab popup tab) None;
          Did (CWaitTimeout popup 3000) None;
          Log INFO (MsgClickedTab tab)]))
  /\ (forall tab rest e e',
      tab_click popup tab (ext st) = (inl e, e') ->
      switch_tab popup (tab :: rest) st
      = ((switch_tab popup rest (set_ext e' st)).1.1,
         (switch_tab popup rest (set_ext e' st)).1.2,
         [Did (CClickTab popup tab) (Some e); Log WARNING (MsgTabNotFound tab)]
         ++ (switch_tab popup rest (set_ext e' st)).2))
  /\ (forall tab rest e e1 e2,
      tab_click popup tab (ext st) = (inr tt, e1) ->
      wait_for_timeout popup 3000 e1 = (inl e, e2) ->
      switch_tab popup (tab :: rest) st
      = ((switch_tab popup rest (set_ext e2 st)).1.1,
         (switch_tab popup rest (set_ext e2 st)).1.2,
         [Did (CClickTab popup tab) None;
          Did (CWaitTimeout popup 3000) (Some e);
          Log WARNING (MsgTabNotFound tab)]
         ++ (switch_tab popup rest (set_ext e2 st)).2))
  /\ (forall e e1 e2 e3,
      tab_click popup "历史股东信息" (ext st) = (inl e, e1) ->
      tab_click popup "历史主要股东" e1 = (inr tt, e2) ->
      wait_for_timeout popup 3000 e2 = (inr tt, e3) ->
      switch_tab popup tab_labels st
      = (inr (Some "历史主要股东"), set_ext e3 st,
         [Did (CClickTab popup "历史股东信息") (Some e);
          Log WARNING (MsgTabNotFound "历史股东信息");
          Did (CClickTab popup "历史主要股东") None;
          Did (CWaitTimeout popup 3000) None;
          Log INFO (MsgClickedTab "历史主要股东")])
      /\ exists st' tr',
          historical_step popup name text st
          = (inr tt, st',
             [Log INFO MsgAttemptHistorical;
              Did (CClickTab popup "历史股东信息") (Some e);
              Log WARNING (MsgTabNotFound "历史股东信息");
              Did (CClickTab popup "历史主要股东") None;
              Did (CWaitTimeout popup 3000) None;
              Log INFO (MsgClickedTab "历史主要股东");
              Log INFO (MsgScraping "历史主要股东" name)] ++ tr'))
  /\ (forall st1 t1,
      switch_tab popup tab_labels st = (inr None, st1, t1) ->
      historical_step popup name text st
      = (inr tt, st1,
         Log INFO MsgAttemptHistorical
         :: t1 ++ [Log ERROR (MsgNoHistoricalTab name)])
      /\ fs st1 = fs st
      /\ Forall tab_event t1
      /\ clicked t1 = tab_labels
      /\ not_found t1 = tab_labels).
Proof.
  split; [| split; [| split; [| split]]].
  - intros tab rest e1 e2 Hclick Hwait. cbn [switch_tab].
    rewrite (bind_ok _ _ _ _ _ _
               (activate_tab_succeeds _ _ _ _ _ Hclick Hwait)).
    reflexivity.
  - intros tab rest e e' Hclick. cbn [switch_tab].
    rewrite (bind_ok _ _ _ _ _ _ (activate_tab_raises _ _ _ _ _ Hclick)).
    reflexivity.
  - intros tab rest e e1 e2 Hclick Hwait. cbn [switch_tab].
    rewrite (bind_ok _ _ _ _ _ _
               (activate_tab_unsettled _ _ _ _ _ _ Hclick Hwait)).
    reflexivity.
  - intros e e1 e2 e3 Hfirst Hsecond Hwait.
    assert (Hswitch : switch_tab popup tab_labels st
      = (inr (Some "历史主要股东"), set_ext e3 st,
         [Did (CClickTab popup "历史股东信息") (Some e);
          Log WARNING (MsgTabNotFound "历史股东信息");
          Did (CClickTab popup "历史主要股东") None;
          Did (CWaitTimeout popup 3000) None;
          Log INFO (MsgClickedTab "历史主要股东")])).
    { unfold tab_labels. cbn [switch_tab].
      rewrite (bind_ok _ _ _ _ _ _ (activate_tab_raises _ _ _ _ _ Hfirst)).
      cbv beta iota.
      rewrite (bind_ok _ _ _ _ _ _
                 (activate_tab_succeeds popup "历史主要股东"
                    (set_ext e1 st) e2 e3 Hsecond Hwait)).
      reflexivity. }
    split; [exact Hswitch |].
    rewrite (historical_step_after_switch _ _ _ _ _ _ _ Hswitch).
    destruct (historical_table_step popup name text "历史主要股东" (set_ext e3 st))
      as [[r st'] tr] eqn:Hstep.
    unfold historical_table_step, scrape_table in Hstep.
    cbn [fst snd]. apply bind_inv in Hstep.
    destruct Hstep as [(x & Hraise & _) | (a & s1 & u1 & u2 & Hscrape & _ & ->)].
    + pose proof (scrape_table_returns popup name text "历史主要股东"
                    (set_ext e3 st)) as [y Hy].
      unfold scrape_table in Hy. rewrite Hraise in Hy. discriminate.
    + assert (Hhead : exists u, u1 = Log INFO (MsgScraping "历史主要股东" name) :: u).
      { apply try_except_inv in Hscrape.
        destruct Hscrape as [(b & Hbody & _) | (x & s2 & v1 & v2 & Hbody & _ & ->)];
          apply bind_inv in Hbody;
          destruct Hbody as [(y & Hlog & _) | (c & s3 & w1 & w2 & Hlog & _ & ->)];
          try discriminate; injection Hlog as _ _ <-; eexists; reflexivity. }
      destruct Hhead as [u ->].
      exists st', (u ++ u2). simpl. reflexivity.
  - intros st1 t1 Hswitch.
    split; [exact (historical_step_after_switch _ _ _ _ _ _ _ Hswitch) |].
    pose proof (switch_tab_events popup tab_labels st) as Hev.
    pose proof (switch_tab_keeps_files popup tab_labels st) as Hkeep.
    unfold keeps in Hkeep. unfold emits in Hev.
    rewrite Hswitch in Hev, Hkeep.
    split; [exact Hkeep |]. split; [exact Hev |].
    revert Hswitch. unfold tab_labels. cbn [switch_tab].
    destruct (activate_tab_cases popup "历史股东信息" st)
      as [(e & e1 & _ & Hrun) | [(e1 & e & e2 & _ & _ & Hrun)
                                | (e1 & e2 & _ & _ & Hrun)]];
      rewrite (bind_ok _ _ _ _ _ _ Hrun); cbv beta iota;
      try (unfold ret; cbn [fst snd app]; intros Heq; discriminate Heq);
      match goal with
      | |- context [bind (activate_tab popup "历史主要股东") _ ?s] =>
          destruct (activate_tab_cases popup "历史主要股东" s)
            as [(x & x1 & _ & Hrun') | [(x1 & x & x2 & _ & _ & Hrun')
                                       | (x1 & x2 & _ & _ & Hrun')]]
      end;
      rewrite (bind_ok _ _ _ _ _ _ Hrun'); cbv beta iota;
      unfold ret; cbn [fst snd app]; intros Heq;
      try discriminate; injection Heq as _ <-; split; reflexivity.
Qed.

End Tabs.

(** ** What escapes the orchestrator, and the batch loop *)

Section Batch.

Context {E : Type} `{External E}.

Lemma started_app t1 t2 : started (t1 ++ t2) = started t1 ++ started t2.
Proof.
  induction t1 as [| ev t1 IH]; [reflexivity |].
  destruct ev as [[] [] | c r | r]; simpl; rewrite ?IH; reflexivity.
Qed.

Lemma started_inner tr : Forall inner_event tr -> started tr = [].
Proof.
  induction 1 as [| ev tr Hev _ IH]; [reflexivity |].
  destruct ev as [[] [] | c r | r]; simpl in *; try exact IH; contradiction.
Qed.

Lemma started_close local r : started (close_events local r) = [].
Proof. destruct local; reflexivity. Qed.

(** One call of the orchestrator writes one opening record, its own. *)
Lemma scrape_company_tables_started name (st : St E) :
  started (scrape_company_tables name st).2 = [name].
Proof.
  destruct (scrape_company_tables_shape name st)
    as (st1 & body_tr & close_r & goto_r & st' & Hbody & Hrun & _).
  destruct (guarded_body_events name (set_popup_page Unbound st))
    as (tr' & Htr & Hinner).
  rewrite Hbody in Htr. simpl in Htr. subst body_tr.
  rewrite Hrun. cbn [snd]. rewrite !started_app, started_close.
  simpl. rewrite (started_inner _ Hinner). reflexivity.
Qed.

(** An exception that leaves the orchestrator is the one the cleanup
    navigation raised. *)
Lemma scrape_company_tables_raises name (st st' : St E) e tr :
  scrape_company_tables name st = (inl e, st', tr) ->
  exists tr0, tr = tr0 ++ [Did (CGoto landing_url) (Some e)].
Proof.
  intros Hrun.
  destruct (scrape_company_tables_shape name st)
    as (st1 & body_tr & close_r & goto_r & st2 & _ & Hshape & _).
  rewrite Hshape in Hrun. destruct goto_r as [e' |]; [| discriminate].
  injection Hrun as <- <- <-.
  exists (body_tr ++ close_events (popup_page st1) close_r).
  rewrite <- app_assoc. reflexivity.
Qed.

Lemma navigations_app t1 t2 :
  navigations (t1 ++ t2) = navigations t1 ++ navigations t2.
Proof.
  induction t1 as [| ev t1 IH]; [reflexivity |].
  destruct ev as [lvl msg | [] r | r]; simpl; rewrite ?IH; reflexivity.
Qed.

Lemma navigations_body tr : Forall body_event tr -> navigations tr = [].
Proof.
  induction 1 as [| ev tr Hev _ IH]; [reflexivity |].
  destruct ev as [lvl msg | [] r | r]; simpl in *; try exact IH; contradiction.
Qed.

(** One call of the orchestrator navigates once, at its very end, and the
    outcome of that navigation is the outcome of the call. *)
Lemma scrape_company_tables_navigates name (st : St E) :
  exists goto_r,
    navigations (scrape_company_tables name st).2 = [goto_r]
    /\ (scrape_company_tables name st).1.1 = as_exc goto_r.
Proof.
  destruct (scrape_company_tables_shape name st)
    as (st1 & body_tr & close_r & goto_r & st' & Hbody & Hrun & _).
  destruct (guarded_body_calls name (set_popup_page Unbound st))
    as (tr' & Htr & Hinner).
  rewrite Hbody in Htr. simpl in Htr. subst body_tr.
  exists goto_r. rewrite Hrun. cbn [fst snd]. split; [| reflexivity].
  rewrite !navigations_app. cbn [navigations app].
  rewrite (navigations_body _ Hinner).
  destruct (popup_page st1); reflexivity.
Qed.

(** C2 (amended). The batch loop calls the orchestrator on the identifiers
    in input order, once each, and each call ends with one navigation of
    the primary page.  The loop goes on as long as these navigations
    succeed and stops at the first one that raises, with its exception:
    exceptions raised while searching, extracting, merging or closing the
    popup never end the loop, a failed cleanup navigation always does.  So
    the loop returns only after the whole list, every navigation having
    succeeded; when it raises, the exception is the one the cleanup
    navigation of the last company started has raised, the last event of
    the trace, and every navigation before it has succeeded. *)
Theorem scrape_all_in_order companies (st : St E) :
  exists done rest,
    companies = done ++ rest
    /\ started (scrape_all companies st).2 = done
    /\ ((scrape_all companies st).1.1 = inr tt -> rest = [])
    /\ (forall e, (scrape_all companies st).1.1 = inl e ->
          done <> []
          /\ exists tr0,
              (scrape_all companies st).2
                = tr0 ++ [Did (CGoto landing_url) (Some e)])
    /\ navigations (scrape_all companies st).2
       = match (scrape_all companies st).1.1 with
         | inr _ => replicate (length done) None
         | inl e => replicate (length done - 1) None ++ [Some e]
         end.
Proof.
  revert st. induction companies as [| c cs IH]; intros st.
  - exists [], []. simpl. repeat split; try reflexivity; discriminate.
  - pose proof (scrape_company_tables_started c st) as Hstart.
    destruct (scrape_company_tables_navigates c st) as (goto_r & Hnav & Hres).
    destruct (scrape_company_tables c st) as [[[e | []] st1] t1] eqn:Hrun.
    + exists [c], cs. cbn [scrape_all].
      rewrite (bind_raise _ _ _ _ _ _ Hrun). cbn [fst snd] in *.
      split; [reflexivity |]. split; [exact Hstart |].
      split; [discriminate |]. split.
      * intros e' He'. injection He' as <-.
        destruct (scrape_company_tables_raises _ _ _ _ _ Hrun) as [tr0 ->].
        split; [discriminate | exists tr0; reflexivity].
      * destruct goto_r as [e' |]; [| discriminate].
        injection Hres as ->. exact Hnav.
    + destruct (IH st1)
        as (done & rest & Hsplit & Hdone & Hret & Hraise & Hnavs).
      exists (c :: done), rest. cbn [scrape_all].
      rewrite (bind_ok _ _ _ _ _ _ Hrun). cbn [fst snd] in *.
      split; [rewrite Hsplit; reflexivity |].
      split; [rewrite started_app, Hstart, Hdone; reflexivity |].
      split; [exact Hret |]. split.
      * intros e He. destruct (Hraise e He) as (_ & tr0 & Htr).
        split; [discriminate |].
        exists (t1 ++ tr0). rewrite Htr, <- app_assoc. reflexivity.
      * destruct goto_r as [e' |]; [discriminate |].
        rewrite navigations_app, Hnav, Hnavs.
        destruct ((scrape_all cs st1).1.1) as [e | u] eqn:Hout;
          [| reflexivity].
        destruct (Hraise e eq_refl) as (Hne & _).
        destruct done as [| d done']; [contradiction |].
        simpl. rewrite ?Nat.sub_0_r. reflexivity.
Qed.

(** C10. The warning of the no-results branch is never written, by any
    call on any input: a locator object is always truthy.  When the search
    has matched nothing, the read of the first link's text raises, and that
    exception is what the outer handler logs. *)
Theorem no_results_branch_unreachable name (st : St E) :
  (forall l, truthy l = true)
  /\ (forall lvl c,
        ~ In (Log lvl (MsgNoResults c)) (scrape_company_tables name st).2)
  /\ (forall e e1 e2 e3,
        search_fill name (ext st) = (inr tt, e1) ->
        search_press "Enter" e1 = (inr tt, e2) ->
        link_text_content (time_sleep 2 e2) = (inl e, e3) ->
        guarded_body name (set_popup_page Unbound st)
        = (inr tt, set_ext e3 (set_popup_page Unbound st),
           [Log INFO (MsgStart name); Did (CFill name) None;
            Did (CPress "Enter") None; Did (CSleep 2) None;
            Did CTextContent (Some e);
            Log ERROR (MsgCompanyError name e)])).
Proof.
  split; [reflexivity |]. split.
  - intros lvl c Hin.
    destruct (scrape_company_tables_shape name st)
      as (st1 & body_tr & close_r & goto_r & st' & Hbody & Hrun & _).
    destruct (guarded_body_events name (set_popup_page Unbound st))
      as (tr' & Htr & Hinner).
    rewrite Hbody in Htr. simpl in Htr. subst body_tr.
    rewrite Hrun in Hin. cbn [snd] in Hin.
    destruct Hin as [Heq | Hin]; [discriminate |].
    apply in_app_or in Hin. destruct Hin as [Hin | Hin].
    + rewrite Forall_forall in Hinner.
      apply list_elem_of_In, Hinner in Hin. exact Hin.
    + apply in_app_or in Hin. destruct Hin as [Hin | [Heq | []]].
      * destruct (popup_page st1); simpl in Hin; [contradiction |].
        destruct Hin as [Heq | []]. discriminate.
      * discriminate.
  - intros e e1 e2 e3 Hfill Hpress Htext.
    unfold guarded_body, company_body, stripped_text, try_except, bind, call,
      sleep, logging. cbn [truthy negb ext set_popup_page set_ext].
    rewrite Hfill. cbn [ext set_ext exn_of]. rewrite Hpress.
    cbn [ext set_ext exn_of]. rewrite Htext. reflexivity.
Qed.

End Batch.

(** C9. An exception leaves [scrape_company_tables] only through the
    navigation that ends its cleanup: the outcome of a call is the outcome
    of that navigation, the last event of its trace, everything raised
    before it having been caught.  When it raises, the batch loop stops
    there with the same exception and none of the remaining companies is
    started; in the scripted world [sim_nav_first] this happens at the
    first of three companies. *)
Theorem navigation_failure_escapes :
  (forall (E : Type) (HE : External E) name (st : St E),
      exists tr0 goto_r,
        (scrape_company_tables name st).2
          = tr0 ++ [Did (CGoto landing_url) goto_r]
        /\ (scrape_company_tables name st).1.1 = as_exc goto_r)
  /\ (forall (E : Type) (HE : External E) name rest (st st' : St E) e tr,
      scrape_company_tables name st = (inl e, st', tr) ->
      (exists tr0, tr = tr0 ++ [Did (CGoto landing_url) (Some e)])
      /\ scrape_all (name :: rest) st = (inl e, st', tr))
  /\ ((scrape_all ["甲公司"; "乙公司"; "丙公司"] (sim_state sim_nav_first ∅)).1.1
        = inl TimeoutError
      /\ started (scrape_all ["甲公司"; "乙公司"; "丙公司"]
                    (sim_state sim_nav_first ∅)).2
         = ["甲公司"]).
Proof.
  split; [| split].
  - intros E HE name st.
    destruct (scrape_company_tables_shape name st)
      as (st1 & body_tr & close_r & goto_r & st' & _ & Hrun & _).
    exists (body_tr ++ close_events (popup_page st1) close_r), goto_r.
    rewrite Hrun. cbn [fst snd]. rewrite <- app_assoc. split; reflexivity.
  - intros E HE name rest st st' e tr Hrun.
    split; [exact (scrape_company_tables_raises _ _ _ _ _ Hrun) |].
    cbn [scrape_all]. apply bind_raise. exact Hrun.
  - split; vm_compute; reflexivity.
Qed.

(** * The program on examples *)

(** Merging [rowA] and then [rowB] into a sheet that did not exist. *)
Lemma merge_rowA_then_rowB :
  sheet_of (append_to_excel dfB output_file "Shareholders" st_after_A).1.2
           output_file "Shareholders"
  = Some (mkDF cols3 [rowA; rowB]).
Proof.
  refine (proj2 (append_to_excel_appends dfB output_file "Shareholders"
                   st_after_A {[ "Shareholders" := dfA ]} dfA sim_ok sim_ok
                   _ _ _ _ _ _)); vm_compute; reflexivity.
Defined.

(** A merge whose write raises leaves the sheet without the new rows; a
    merge under another column label realigns both the stored and the new
    rows; a stored code written with leading zeros comes back from the
    merge as a number. *)
Lemma merge_can_miss_rows :
  sheet_of (append_to_excel dfB output_file "Shareholders"
              (sim_state sim_locked book_A)).1.2
           output_file "Shareholders"
  = Some (mkDF cols3 [rowA])
  /\ sheet_of (append_to_excel dfB output_file "Shareholders"
                 (sim_state sim_locked book_A)).1.2
              output_file "Shareholders"
     <> Some (mkDF cols3 ([rowA] ++ rows dfB))
  /\ sheet_of (append_to_excel dfC output_file "Shareholders"
                 (sim_state sim_ok book_A)).1.2
              output_file "Shareholders"
     = Some (mkDF ["Original Company Name"; "Matched Company Name";
                   "股东"; "持股比例"]
                  [[Str "A公司"; Str "A"; Str "甲"; NaN];
                   [Str "B公司"; Str "B"; NaN; Str "40%"]])
  /\ sheet_of (append_to_excel dfC output_file "Shareholders"
                 (sim_state sim_ok book_A)).1.2
              output_file "Shareholders"
     <> Some (mkDF cols3 ([rowA] ++ rows dfC))
  /\ sheet_of (append_to_excel dfB output_file "Shareholders"
                 (sim_state sim_ok book_code)).1.2
              output_file "Shareholders"
     = Some (mkDF cols3 [[Num 1; Str "A"; Str "甲"]; rowB])
  /\ sheet_of (append_to_excel dfB output_file "Shareholders"
                 (sim_state sim_ok book_code)).1.2
              output_file "Shareholders"
     <> Some (mkDF cols3 ([rowCode] ++ rows dfB)).
Proof.
  repeat split; try (vm_compute; reflexivity); vm_compute; discriminate.
Qed.

(** Merging into the historical sheet leaves the sheet of the default
    table as it was. *)
Lemma merge_historical_keeps_shareholders :
  sheet_of (append_to_excel dfB output_file "Historical Shareholders"
              st_after_A).1.2
           output_file "Shareholders"
  = sheet_of st_after_A output_file "Shareholders".
Proof.
  apply (append_to_excel_other_sheets dfB output_file "Historical Shareholders"
           st_after_A output_file "Shareholders").
  vm_compute. discriminate.
Defined.

(** The fixture table: the row of one cell is dropped, the two rows of two
    cells stand behind the identifiers. *)
Lemma scrape_table_on_fixture :
  exists html headers trs,
    contains loading_marker html = false
    /\ thead (BeautifulSoup html) = Some headers
    /\ tbody (BeautifulSoup html) = Some trs
    /\ ["Original Company Name"; "Matched Company Name"; "股东"; "持股比例"]
       = "Original Company Name" :: "Matched Company Name" :: headers
    /\ [[Str "甲公司"; Str "天眼查"; Str "甲"; Str "60%"];
        [Str "甲公司"; Str "天眼查"; Str "丙"; Str "40%"]]
       = map (frame_row "甲公司" "天眼查") (List.filter (fits headers) trs)
    /\ (forall cols, In cols trs ->
          (In (frame_row "甲公司" "天眼查" cols)
              [[Str "甲公司"; Str "天眼查"; Str "甲"; Str "60%"];
               [Str "甲公司"; Str "天眼查"; Str "丙"; Str "40%"]]
           <-> length cols = length headers))
    /\ (forall cols, In cols trs -> length cols <> length headers ->
          In (Log WARNING (MsgIncompleteRow cols))
             (scrape_table 1 "甲公司" "天眼查" "股东信息"
                (sim_state sim_ok ∅)).2)
    /\ (forall r,
          In r [[Str "甲公司"; Str "天眼查"; Str "甲"; Str "60%"];
                [Str "甲公司"; Str "天眼查"; Str "丙"; Str "40%"]] ->
          exists cols, r = frame_row "甲公司" "天眼查" cols
                       /\ In cols trs
                       /\ length cols = length headers
                       /\ length r = 2 + length headers).
Proof.
  apply (scrape_table_row_shape 1 "甲公司" "天眼查" "股东信息"
           (sim_state sim_ok ∅)
           (scrape_table 1 "甲公司" "天眼查" "股东信息" (sim_state sim_ok ∅)).1.2
           (mkDF ["Original Company Name"; "Matched Company Name";
                  "股东"; "持股比例"]
                 [[Str "甲公司"; Str "天眼查"; Str "甲"; Str "60%"];
                  [Str "甲公司"; Str "天眼查"; Str "丙"; Str "40%"]])).
  vm_compute. reflexivity.
Defined.

(** A table that keeps loading: five polls, five pauses, no frame. *)
Lemma scrape_table_on_loading_table :
  exists st',
    scrape_table 1 "甲公司" "天眼查" "股东信息" (sim_state sim_loading ∅)
      = (inr None, st',
         Log INFO (MsgScraping "股东信息" "甲公司")
         :: (loading_round 1 0 ++ loading_round 1 1 ++ loading_round 1 2
             ++ loading_round 1 3 ++ loading_round 1 4)
         ++ [Log ERROR (MsgNotLoaded "股东信息" "甲公司")])
    /\ fs st' = fs (sim_state sim_loading ∅)
    /\ max_retries = 5.
Proof.
  apply (scrape_table_gives_up 1 "甲公司" "天眼查" "股东信息"
           (sim_state sim_loading ∅)).
  simpl.
  repeat (exists loading_markup, sim_loading;
          split; [reflexivity | split; [vm_compute; reflexivity |]]).
  exact I.
Defined.

(** Three companies, the search for the second one matching nothing: all
    three are started, the first and the third are merged, one error is
    logged. *)
Lemma batch_with_one_company_missing :
  started (scrape_all ["甲公司"; "乙公司"; "丙公司"]
             (sim_state sim_second_missing ∅)).2
  = ["甲公司"; "乙公司"; "丙公司"]
  /\ errors (scrape_all ["甲公司"; "乙公司"; "丙公司"]
               (sim_state sim_second_missing ∅)).2
     = [MsgCompanyError "乙公司" TimeoutError]
  /\ (rows <$> sheet_of (scrape_all ["甲公司"; "乙公司"; "丙公司"]
                          (sim_state sim_second_missing ∅)).1.2
                        output_file "Shareholders")
     = Some [[Str "甲公司"; Str "天眼查科技有限公司"; Str "甲"; Str "60%"];
             [Str "甲公司"; Str "天眼查科技有限公司"; Str "丙"; Str "40%"];
             [Str "丙公司"; Str "天眼查科技有限公司"; Str "甲"; Str "60%"];
             [Str "丙公司"; Str "天眼查科技有限公司"; Str "丙"; Str "40%"]].
Proof. repeat split; vm_compute; reflexivity. Qed.

(** The batch on [sim_second_missing], by the theorem. *)
Lemma batch_in_order_example :
  exists done rest,
    ["甲公司"; "乙公司"; "丙公司"] = done ++ rest
    /\ started (scrape_all ["甲公司"; "乙公司"; "丙公司"]
                  (sim_state sim_second_missing ∅)).2 = done
    /\ ((scrape_all ["甲公司"; "乙公司"; "丙公司"]
           (sim_state sim_second_missing ∅)).1.1 = inr tt -> rest = [])
    /\ (forall e,
          (scrape_all ["甲公司"; "乙公司"; "丙公司"]
             (sim_state sim_second_missing ∅)).1.1 = inl e ->
          done <> []
          /\ exists tr0,
              (scrape_all ["甲公司"; "乙公司"; "丙公司"]
                 (sim_state sim_second_missing ∅)).2
                = tr0 ++ [Did (CGoto landing_url) (Some e)])
    /\ navigations (scrape_all ["甲公司"; "乙公司"; "丙公司"]
                      (sim_state sim_second_missing ∅)).2
       = match (scrape_all ["甲公司"; "乙公司"; "丙公司"]
                  (sim_state sim_second_missing ∅)).1.1 with
         | inr _ => replicate (length done) None
         | inl e => replicate (length done - 1) None ++ [Some e]
         end.
Proof.
  exact (scrape_all_in_order ["甲公司"; "乙公司"; "丙公司"]
           (sim_state sim_second_missing ∅)).
Defined.

(** Three companies, the cleanup navigation of the second one raising: the
    third company is never started, and [run] logs the exception as
    critical. *)
Lemma batch_stops_at_failed_navigation :
  sim_companies sim_nav_second = ["甲公司"; "乙公司"; "丙公司"]
  /\ started (run (sim_state sim_nav_second ∅)).2 = ["甲公司"; "乙公司"]
  /\ started (run (sim_state sim_nav_second ∅)).2
     <> sim_companies sim_nav_second
  /\ In (Log CRITICAL (MsgUnexpected TimeoutError))
        (run (sim_state sim_nav_second ∅)).2.
Proof.
  split; [reflexivity |]. split; [vm_compute; reflexivity |].
  split; [vm_compute; discriminate |]. vm_compute. in_list.
Qed.

(** Only the second label exists: it is the one activated, and the
    extraction runs under it. *)
Lemma second_tab_activated :
  switch_tab 1 tab_labels (sim_state sim_ok ∅)
  = (inr (Some "历史主要股东"), set_ext sim_ok (sim_state sim_ok ∅),
     [Did (CClickTab 1 "历史股东信息") (Some TimeoutError);
      Log WARNING (MsgTabNotFound "历史股东信息");
      Did (CClickTab 1 "历史主要股东") None;
      Did (CWaitTimeout 1 3000) None;
      Log INFO (MsgClickedTab "历史主要股东")])
  /\ exists st' tr',
      historical_step 1 "甲公司" "天眼查" (sim_state sim_ok ∅)
      = (inr tt, st',
         [Log INFO MsgAttemptHistorical;
          Did (CClickTab 1 "历史股东信息") (Some TimeoutError);
          Log WARNING (MsgTabNotFound "历史股东信息");
          Did (CClickTab 1 "历史主要股东") None;
          Did (CWaitTimeout 1 3000) None;
          Log INFO (MsgClickedTab "历史主要股东");
          Log INFO (MsgScraping "历史主要股东" "甲公司")] ++ tr').
Proof.
  apply (proj1 (proj2 (proj2 (proj2 (tab_fallback 1 "甲公司" "天眼查"
                                       (sim_state sim_ok ∅)))))
           TimeoutError sim_ok sim_ok sim_ok);
    vm_compute; reflexivity.
Defined.

(** The first label is there and its click goes through, but the page does
    not settle: the label is logged as not found, the loop goes on to the
    second label, and no label is activated. *)
Lemma clicked_label_not_activated :
  tab_click 1 "历史股东信息" (ext (lab_state lab_unsettled ∅))
  = (inr tt, lab_unsettled)
  /\ switch_tab 1 tab_labels (lab_state lab_unsettled ∅)
     = (inr None, lab_state lab_unsettled ∅,
        [Did (CClickTab 1 "历史股东信息") None;
         Did (CWaitTimeout 1 3000) (Some TimeoutError);
         Log WARNING (MsgTabNotFound "历史股东信息");
         Did (CClickTab 1 "历史主要股东") (Some TimeoutError);
         Log WARNING (MsgTabNotFound "历史主要股东")])
  /\ (switch_tab 1 tab_labels (lab_state lab_unsettled ∅)).1.1
     <> inr (Some "历史股东信息").
Proof.
  split; [vm_compute; reflexivity |].
  split; [vm_compute; reflexivity | vm_compute; discriminate].
Qed.


(** The first cleanup navigation raises: the loop ends there. *)
Lemma navigation_failure_example :
  (exists tr0,
      (scrape_company_tables "甲公司" (sim_state sim_nav_first ∅)).2
      = tr0 ++ [Did (CGoto landing_url) (Some TimeoutError)])
  /\ scrape_all ("甲公司" :: ["乙公司"; "丙公司"]) (sim_state sim_nav_first ∅)
     = (inl TimeoutError,
        (scrape_company_tables "甲公司" (sim_state sim_nav_first ∅)).1.2,
        (scrape_company_tables "甲公司" (sim_state sim_nav_first ∅)).2).
Proof.
  apply (proj1 (proj2 navigation_failure_escapes) Sim Sim_External
           "甲公司" ["乙公司"; "丙公司"] (sim_state sim_nav_first ∅)).
  vm_compute. reflexivity.
Defined.

(** The search matches nothing: the handler logs the timeout of the text
    read, and no warning is written. *)
Lemma no_results_example :
  guarded_body "甲公司" (set_popup_page Unbound (sim_state sim_no_results ∅))
  = (inr tt,
     set_ext (sim_pop_results sim_no_results)
             (set_popup_page Unbound (sim_state sim_no_results ∅)),
     [Log INFO (MsgStart "甲公司"); Did (CFill "甲公司") None;
      Did (CPress "Enter") None; Did (CSleep 2) None;
      Did CTextContent (Some TimeoutError);
      Log ERROR (MsgCompanyError "甲公司" TimeoutError)]).
Proof.
  apply (proj2 (proj2 (no_results_branch_unreachable "甲公司"
                         (sim_state sim_no_results ∅)))
           TimeoutError sim_no_results sim_no_results
           (sim_pop_results sim_no_results));
    vm_compute; reflexivity.
Defined.

(** * Beyond the claims *)

(** ** The substring test behind the loading check *)

Lemma starts_with_spec needle hay :
  starts_with needle hay = true <-> exists post, hay = String.app needle post.
Proof.
  revert hay. induction needle as [| a needle IH]; intros hay; simpl.
  - split; [intros _; exists hay; reflexivity | reflexivity].
  - destruct hay as [| b hay].
    + split; [discriminate | intros [post Hpost]; discriminate].
    + rewrite andb_true_iff, IH. split.
      * intros [Hab [post ->]]. apply Ascii.eqb_eq in Hab. subst b.
        exists post. reflexivity.
      * intros [post Hpost]. injection Hpost as -> ->.
        split; [apply Ascii.eqb_refl | exists post; reflexivity].
Qed.

(** X23. [contains needle hay], the test behind
    ["加载中" not in table_html], holds exactly when [needle] occurs in
    [hay]: [hay] is some text, then [needle], then some text. *)
Theorem contains_spec needle hay :
  contains needle hay = true
  <-> exists pre post, hay = String.app pre (String.app needle post).
Proof.
  induction hay as [| b hay IH].
  - simpl. rewrite orb_false_r, starts_with_spec. split.
    + intros [post Hpost]. exists "", post. exact Hpost.
    + intros (pre & post & Heq). destruct pre as [| c pre]; [| discriminate].
      exists post. exact Heq.
  - cbn [contains]. rewrite orb_true_iff, starts_with_spec, IH. split.
    + intros [[post Hpost] | (pre & post & Heq)].
      * exists "", post. exact Hpost.
      * exists (String b pre), post. simpl. rewrite Heq. reflexivity.
    + intros (pre & post & Heq). destruct pre as [| c pre].
      * left. exists post. exact Heq.
      * right. simpl in Heq. injection Heq as -> ->. eauto.
Qed.


(** ** More on [scrape_table] *)

Section TableMore.

Context {E : Type} `{External E}.

Lemma polls_app page t1 t2 : polls page (t1 ++ t2) = polls page t1 + polls page t2.
Proof. unfold polls. rewrite List.filter_app, length_app. reflexivity. Qed.

Lemma slept_app t1 t2 : slept (t1 ++ t2) = slept t1 + slept t2.
Proof.
  induction t1 as [| ev t1 IH]; [reflexivity |].
  destruct ev as [lvl msg | [] r | r]; simpl; rewrite ?IH; lia.
Qed.

Lemma polls_logs page tr : Forall is_log tr -> polls page tr = 0.
Proof.
  induction 1 as [| ev tr Hev _ IH]; [reflexivity |].
  destruct ev; try contradiction. exact IH.
Qed.

Lemma slept_logs tr : Forall is_log tr -> slept tr = 0.
Proof.
  induction 1 as [| ev tr Hev _ IH]; [reflexivity |].
  destruct ev; try contradiction. exact IH.
Qed.

(** The polling loop reads the markup at most [n] times, sleeps two seconds
    after each read but possibly the last, and touches no file. *)
Lemma poll_table_bounded page n k (st : St E) :
  polls page (poll_table page n k st).2 <= n
  /\ slept (poll_table page n k st).2 <= 2 * n
  /\ fs (poll_table page n k st).1.2 = fs st.
Proof.
  revert k st. induction n as [| n IH]; intros k st; [simpl; auto |].
  cbn [poll_table].
  destruct (table_inner_html page (ext st)) as [[e | html] e'] eqn:Hpoll.
  - rewrite (bind_raise _ _ st e (set_ext e' st)
               [Did (CInnerHtml page) (Some e)])
      by (unfold call; rewrite Hpoll; reflexivity).
    cbn. rewrite Nat.eqb_refl. cbn. split; [lia | split; [lia | reflexivity]].
  - rewrite (bind_ok _ _ st html (set_ext e' st)
               [Did (CInnerHtml page) None])
      by (unfold call; rewrite Hpoll; reflexivity).
    destruct (negb (contains loading_marker html)).
    + cbn. rewrite Nat.eqb_refl. cbn. split; [lia | split; [lia | reflexivity]].
    + rewrite (bind_ok _ _ (set_ext e' st) tt (set_ext e' st)
                 [Log INFO (MsgStillLoading (k + 1))]) by reflexivity.
      rewrite (bind_ok _ _ (set_ext e' st) tt
                 (set_ext (time_sleep 2 e') st) [Did (CSleep 2) None])
        by reflexivity.
      destruct (IH (k + 1) (set_ext (time_sleep 2 e') st)) as (Hp & Hs & Hfs).
      cbn [fst snd].
      rewrite !polls_app, !slept_app. cbn. rewrite Nat.eqb_refl. cbn.
      split; [lia | split; [lia | exact Hfs]].
Qed.

(** What [build_frame] leaves in the trace are log records, and it leaves
    the state alone. *)
Lemma build_frame_logs soup o m (st : St E) :
  Forall is_log (build_frame soup o m st).2
  /\ (build_frame soup o m st).1.2 = st.
Proof.
  split.
  - apply (build_frame_respects (emits is_log)).
    intros lvl msg st0 _. apply emits_one. exact I.
  - apply (build_frame_respects (keeps (fun st0 : St E => st0))).
    intros lvl msg st0 _. reflexivity.
Qed.

(** The trace of [scrape_table]: its opening record, the polls, then log
    records only; the state is the one the polls left. *)
Lemma scrape_table_trace page o m title (st : St E) :
  exists r tail,
    scrape_table page o m title st
    = (inr r, (poll_table page max_retries 0 st).1.2,
       Log INFO (MsgScraping title o)
       :: (poll_table page max_retries 0 st).2 ++ tail)
    /\ Forall is_log tail.
Proof.
  unfold scrape_table, try_except.
  rewrite (bind_ok _ _ st tt st [Log INFO (MsgScraping title o)])
    by reflexivity.
  destruct (poll_table page max_retries 0 st) as [[[e | loaded] st1] t1]
    eqn:Hpoll.
  - rewrite (bind_raise _ _ _ _ _ _ Hpoll). cbn.
    exists None, [Log ERROR (MsgTableError title e)].
    split; [reflexivity | repeat constructor].
  - rewrite (bind_ok _ _ _ _ _ _ Hpoll). destruct loaded as [html |].
    + rewrite (bind_ok _ _ st1 tt st1 [Log DEBUG (MsgTableHtml title)])
        by reflexivity.
      pose proof (build_frame_logs (BeautifulSoup html) o m st1)
        as [Hlogs Hst].
      destruct (build_frame (BeautifulSoup html) o m st1)
        as [[[e | df] st2] t2] eqn:Hframe; cbn [fst snd] in *; subst st2.
      * rewrite (bind_raise _ _ _ _ _ _ Hframe). cbn.
        exists None, (Log DEBUG (MsgTableHtml title)
                      :: t2 ++ [Log ERROR (MsgTableError title e)]).
        split; [rewrite ?app_nil_r, <- ?app_assoc; reflexivity |].
        constructor; [exact I |]. apply Forall_app.
        split; [exact Hlogs | repeat constructor].
      * rewrite (bind_ok _ _ _ _ _ _ Hframe). cbn.
        exists (Some df), (Log DEBUG (MsgTableHtml title) :: t2).
        split; [rewrite ?app_nil_r, <- ?app_assoc; reflexivity |].
        constructor; [exact I | exact Hlogs].
    + cbn. exists None, [Log ERROR (MsgNotLoaded title o)].
      split; [rewrite ?app_nil_r, <- ?app_assoc; reflexivity | repeat constructor].
Qed.

(** X1. Whatever the page does, [scrape_table] returns (it never raises),
    reads the markup of the table at most five times, sleeps at most ten
    seconds in all and leaves every file as it was. *)
Theorem scrape_table_bounded page original_name matched_name title
  (st : St E) :
  (exists r, (scrape_table page original_name matched_name title st).1.1
             = inr r)
  /\ polls page (scrape_table page original_name matched_name title st).2
     <= 5
  /\ slept (scrape_table page original_name matched_name title st).2 <= 10
  /\ fs (scrape_table page original_name matched_name title st).1.2 = fs st.
Proof.
  destruct (scrape_table_trace page original_name matched_name title st)
    as (r & tail & Hrun & Hlogs).
  pose proof (poll_table_bounded page max_retries 0 st) as (Hp & Hs & Hfs).
  rewrite Hrun. cbn [fst snd].
  change (Log INFO (MsgScraping title original_name)
          :: (poll_table page max_retries 0 st).2 ++ tail)
    with ([Log INFO (MsgScraping title original_name)]
          ++ (poll_table page max_retries 0 st).2 ++ tail).
  rewrite !polls_app, !slept_app, (polls_logs _ _ Hlogs), (slept_logs _ Hlogs).
  destruct (poll_table page max_retries 0 st) as [[rp stp] tp].
  cbn [fst snd] in *. change max_retries with 5 in Hp, Hs.
  change (polls page [Log INFO (MsgScraping title original_name)]) with 0.
  change (slept [Log INFO (MsgScraping title original_name)]) with 0.
  split; [eauto |]. split; [lia |]. split; [lia | exact Hfs].
Qed.

End TableMore.


(** ** What [scrape_table] yields, by what the page shows *)

Section TableOutcomes.

Context {E : Type} `{External E}.

Lemma df_insert_clash loc c v df :
  has_column c (columns df) = true -> df_insert loc c v df = inl ValueError.
Proof. intros Hc. unfold df_insert. rewrite Hc. reflexivity. Qed.

Lemma df_insert_front c v cols rs :
  has_column c cols = false ->
  df_insert 0 c v (mkDF cols rs)
  = inr (mkDF (c :: cols) (map (cons (Str v)) rs)).
Proof.
  intros Hc. unfold df_insert. cbn [columns rows]. rewrite Hc.
  reflexivity.
Qed.

Lemma df_insert_second c v c0 cols x (rs : list (list cell)) :
  has_column c (c0 :: cols) = false ->
  df_insert 1 c v (mkDF (c0 :: cols) (map (cons x) rs))
  = inr (mkDF (c0 :: c :: cols) (map (fun r => x :: Str v :: r) rs)).
Proof.
  intros Hc. unfold df_insert. cbn [columns rows]. rewrite Hc.
  cbn [length Nat.leb]. f_equal. f_equal.
  rewrite map_map. reflexivity.
Qed.

Lemma has_column_matched headers :
  has_column "Matched Company Name" ("Original Company Name" :: headers)
  = has_column "Matched Company Name" headers.
Proof. reflexivity. Qed.

(** The loop stops at the first poll that does not show the marker, or that
    raises. *)
Lemma poll_table_settles page k n j (st : St E) r e' :
  k < n ->
  settles_after k page (ext st) r e' ->
  poll_table page n j st
  = (match r with
     | inl e => inl e
     | inr html => inr (Some html)
     end, set_ext e' st,
     loading_rounds page j k ++ [Did (CInnerHtml page) (exn_of r)]).
Proof.
  revert n j st. induction k as [| k IH]; intros n j st Hlt Hsettle;
    destruct n as [| n]; try lia; cbn [poll_table].
  - destruct Hsettle as [Hpoll Hmark].
    destruct r as [e | html].
    + apply bind_raise. unfold call. rewrite Hpoll. reflexivity.
    + rewrite (bind_ok _ _ st html (set_ext e' st)
                 [Did (CInnerHtml page) None])
        by (unfold call; rewrite Hpoll; reflexivity).
      rewrite Hmark. reflexivity.
  - destruct Hsettle as (html & e1 & Hpoll & Hmark & Hrest).
    rewrite (bind_ok _ _ st html (set_ext e1 st)
               [Did (CInnerHtml page) None])
      by (unfold call; rewrite Hpoll; reflexivity).
    rewrite Hmark. cbn [negb fst snd].
    rewrite (bind_ok _ _ (set_ext e1 st) tt (set_ext e1 st)
               [Log INFO (MsgStillLoading (j + 1))]) by reflexivity.
    rewrite (bind_ok _ _ (set_ext e1 st) tt
               (set_ext (time_sleep 2 e1) st) [Did (CSleep 2) None])
      by reflexivity.
    rewrite (IH n (j + 1) (set_ext (time_sleep 2 e1) st)) by (auto; lia).
    cbn [fst snd]. unfold loading_rounds. cbn [seq map concat].
    replace (S j) with (j + 1) by lia.
    unfold loading_round at 2. cbn [app].
    destruct r; reflexivity.
Qed.

(** X2. The table is taken from the first poll, among the five, whose
    markup no longer shows the marker.  When that markup has a header and a
    body section and no header carries the label of an identifier column,
    [scrape_table] returns the frame of the fitting rows; the trace shows
    the polls made, the debug record, and a warning for each row dropped,
    and nothing else. *)
Theorem scrape_table_loaded page original_name matched_name title
  (st : St E) k html e' headers trs :
  k < max_retries ->
  settles_after k page (ext st) (inr html) e' ->
  thead (BeautifulSoup html) = Some headers ->
  tbody (BeautifulSoup html) = Some trs ->
  has_column "Original Company Name" headers = false ->
  has_column "Matched Company Name" headers = false ->
  scrape_table page original_name matched_name title st
  = (inr (Some (mkDF
                  ("Original Company Name" :: "Matched Company Name" :: headers)
                  (map (frame_row original_name matched_name)
                       (List.filter (fits headers) trs)))),
     set_ext e' st,
     Log INFO (MsgScraping title original_name)
     :: loading_rounds page 0 k
     ++ Did (CInnerHtml page) None
     :: Log DEBUG (MsgTableHtml title)
     :: map is_warning
          (List.filter (fun cols => negb (fits headers cols)) trs)).
Proof.
  intros Hlt Hsettle Hhead Hbody Ho Hm.
  pose proof (poll_table_settles page k max_retries 0 st _ _ Hlt Hsettle)
    as Hpoll. cbn [exn_of] in Hpoll.
  assert (Hframe :
    build_frame (BeautifulSoup html) original_name matched_name (set_ext e' st)
    = (inr (mkDF
              ("Original Company Name" :: "Matched Company Name" :: headers)
              (map (frame_row original_name matched_name)
                   (List.filter (fits headers) trs))),
       set_ext e' st,
       map is_warning
         (List.filter (fun cols => negb (fits headers cols)) trs))).
  { unfold build_frame, find_section. rewrite Hhead, Hbody.
    unfold bind at 1 2 3. cbn [ret]. rewrite collect_rows_spec. cbn [app].
    rewrite (DataFrame_new_fitting _ _ (filter_fits_Forall headers trs)).
    unfold bind, lift, ret, raise. cbn -[df_insert has_column].
    rewrite (df_insert_front _ _ _ _ Ho). cbn -[df_insert has_column].
    rewrite df_insert_second by (rewrite has_column_matched; exact Hm).
    cbn. rewrite !app_nil_r.
    f_equal. f_equal. f_equal. f_equal.
    rewrite !map_map. apply map_ext. intros cols. reflexivity. }
  unfold scrape_table, try_except.
  rewrite (bind_ok _ _ st tt st [Log INFO (MsgScraping title original_name)])
    by reflexivity.
  rewrite (bind_ok _ _ _ _ _ _ Hpoll). cbv beta iota.
  rewrite (bind_ok _ _ (set_ext e' st) tt (set_ext e' st)
             [Log DEBUG (MsgTableHtml title)]) by reflexivity.
  rewrite (bind_ok _ _ _ _ _ _ Hframe). cbn.
  rewrite ?app_nil_r, <- ?app_assoc. reflexivity.
Qed.

(** X3. When reading the markup raises, at the first poll or after polls
    that found the table loading, [scrape_table] stops polling, logs the
    exception as an error and returns [None]. *)
Theorem scrape_table_poll_raises page original_name matched_name title
  (st : St E) k e e' :
  k < max_retries ->
  settles_after k page (ext st) (inl e) e' ->
  scrape_table page original_name matched_name title st
  = (inr None, set_ext e' st,
     Log INFO (MsgScraping title original_name)
     :: loading_rounds page 0 k
     ++ [Did (CInnerHtml page) (Some e);
         Log ERROR (MsgTableError title e)]).
Proof.
  intros Hlt Hsettle.
  pose proof (poll_table_settles page k max_retries 0 st _ _ Hlt Hsettle)
    as Hpoll. cbn [exn_of] in Hpoll.
  unfold scrape_table, try_except.
  rewrite (bind_ok _ _ st tt st [Log INFO (MsgScraping title original_name)])
    by reflexivity.
  rewrite (bind_raise _ _ _ _ _ _ Hpoll). cbn.
  rewrite <- ?app_assoc. reflexivity.
Qed.

(** X4. A loaded markup without a header section, or without a body
    section, yields [None]: the failed lookup is logged as an error, and no
    row is looked at. *)
Theorem scrape_table_missing_section page original_name matched_name title
  (st : St E) k html e' :
  k < max_retries ->
  settles_after k page (ext st) (inr html) e' ->
  thead (BeautifulSoup html) = None \/ tbody (BeautifulSoup html) = None ->
  scrape_table page original_name matched_name title st
  = (inr None, set_ext e' st,
     Log INFO (MsgScraping title original_name)
     :: loading_rounds page 0 k
     ++ [Did (CInnerHtml page) None;
         Log DEBUG (MsgTableHtml title);
         Log ERROR (MsgTableError title AttributeError)]).
Proof.
  intros Hlt Hsettle Hmissing.
  pose proof (poll_table_settles page k max_retries 0 st _ _ Hlt Hsettle)
    as Hpoll. cbn [exn_of] in Hpoll.
  assert (Hframe :
    build_frame (BeautifulSoup html) original_name matched_name (set_ext e' st)
    = (inl AttributeError, set_ext e' st, [])).
  { unfold build_frame, find_section.
    destruct (thead (BeautifulSoup html)) as [headers |];
      [| reflexivity].
    destruct Hmissing as [Hhead | Hbody]; [discriminate |].
    rewrite Hbody. reflexivity. }
  unfold scrape_table, try_except.
  rewrite (bind_ok _ _ st tt st [Log INFO (MsgScraping title original_name)])
    by reflexivity.
  rewrite (bind_ok _ _ _ _ _ _ Hpoll). cbv beta iota.
  rewrite (bind_ok _ _ (set_ext e' st) tt (set_ext e' st)
             [Log DEBUG (MsgTableHtml title)]) by reflexivity.
  rewrite (bind_raise _ _ _ _ _ _ Hframe). cbn.
  rewrite <- ?app_assoc. reflexivity.
Qed.

(** X5. A table one of whose headers is already [Original Company Name] or
    [Matched Company Name] yields no frame: the insertion of the identifier
    column raises [ValueError], which is logged after the warnings for the
    rows dropped, and [scrape_table] returns [None]. *)
Theorem scrape_table_header_clash page original_name matched_name title
  (st : St E) k html e' headers trs :
  k < max_retries ->
  settles_after k page (ext st) (inr html) e' ->
  thead (BeautifulSoup html) = Some headers ->
  tbody (BeautifulSoup html) = Some trs ->
  has_column "Original Company Name" headers
  || has_column "Matched Company Name" headers = true ->
  scrape_table page original_name matched_name title st
  = (inr None, set_ext e' st,
     Log INFO (MsgScraping title original_name)
     :: loading_rounds page 0 k
     ++ Did (CInnerHtml page) None
     :: Log DEBUG (MsgTableHtml title)
     :: map is_warning
          (List.filter (fun cols => negb (fits headers cols)) trs)
     ++ [Log ERROR (MsgTableError title ValueError)]).
Proof.
  intros Hlt Hsettle Hhead Hbody Hclash.
  pose proof (poll_table_settles page k max_retries 0 st _ _ Hlt Hsettle)
    as Hpoll. cbn [exn_of] in Hpoll.
  assert (Hframe :
    build_frame (BeautifulSoup html) original_name matched_name (set_ext e' st)
    = (inl ValueError, set_ext e' st,
       map is_warning
         (List.filter (fun cols => negb (fits headers cols)) trs))).
  { unfold build_frame, find_section. rewrite Hhead, Hbody.
    unfold bind at 1 2 3. cbn [ret]. rewrite collect_rows_spec. cbn [app].
    rewrite (DataFrame_new_fitting _ _ (filter_fits_Forall headers trs)).
    unfold bind, lift, ret, raise. cbn -[df_insert has_column].
    destruct (has_column "Original Company Name" headers) eqn:Ho.
    - rewrite df_insert_clash by exact Ho.
      cbn. rewrite !app_nil_r. reflexivity.
    - cbn [orb] in Hclash. rewrite (df_insert_front _ _ _ _ Ho).
      cbn -[df_insert has_column].
      rewrite df_insert_clash
        by (cbn [columns]; rewrite has_column_matched; exact Hclash).
      cbn. rewrite !app_nil_r. reflexivity. }
  unfold scrape_table, try_except.
  rewrite (bind_ok _ _ st tt st [Log INFO (MsgScraping title original_name)])
    by reflexivity.
  rewrite (bind_ok _ _ _ _ _ _ Hpoll). cbv beta iota.
  rewrite (bind_ok _ _ (set_ext e' st) tt (set_ext e' st)
             [Log DEBUG (MsgTableHtml title)]) by reflexivity.
  rewrite (bind_raise _ _ _ _ _ _ Hframe). cbn.
  rewrite <- ?app_assoc. reflexivity.
Qed.

End TableOutcomes.


(** ** More on [append_to_excel] *)

Section MergeMore.

Context {E : Type} `{External E}.


(** X7. Without a workbook file, a merge whose write goes through creates
    the file with the one sheet, holding the frame as given; no read is
    attempted. *)
Theorem append_to_excel_creates_file df path sheet (st : St E) e' :
  fs st !! path = None ->
  excel_write_fault path sheet (ext st) = (None, e') ->
  append_to_excel df path sheet st
  = (inr tt, set_fs (<[path := {[sheet := df]}]> (fs st)) (set_ext e' st),
     [Did (CWriteExcel path sheet false) None;
      Log INFO (MsgAppended path sheet)]).
Proof.
  intros Hfile Hwrite. run_merge. simpl. rewrite Hfile. simpl.
  rewrite Hwrite. reflexivity.
Qed.

(** X8. With a workbook that lacks the target sheet, the read raises, a
    warning is logged, and the sheet is added with the frame as given, the
    sheets of the workbook being kept. *)
Theorem append_to_excel_adds_sheet df path sheet (st : St E) wb e1 e2 :
  fs st !! path = Some wb ->
  wb !! sheet = None ->
  excel_read_fault path sheet (ext st) = (None, e1) ->
  excel_write_fault path sheet e1 = (None, e2) ->
  append_to_excel df path sheet st
  = (inr tt, set_fs (<[path := <[sheet := df]> wb]> (fs st)) (set_ext e2 st),
     [Did (CReadExcel path sheet) (Some ValueError);
      Log WARNING (MsgSheetMissing sheet);
      Did (CWriteExcel path sheet true) None;
      Log INFO (MsgAppended path sheet)]).
Proof.
  intros Hfile Hsheet Hread Hwrite. run_merge. simpl.
  rewrite Hfile. simpl. rewrite Hread. simpl. rewrite Hfile, Hsheet. simpl.
  rewrite Hwrite. simpl. rewrite Hfile. reflexivity.
Qed.

(** X9. Any exception of the read is taken for a missing sheet: when the
    read of a sheet that does hold rows raises and the write then goes
    through, the sheet afterwards holds the new frame alone, and the rows
    stored before are gone. *)
Theorem append_to_excel_read_raises df path sheet (st : St E) wb e e1 e2 :
  fs st !! path = Some wb ->
  excel_read_fault path sheet (ext st) = (Some e, e1) ->
  excel_write_fault path sheet e1 = (None, e2) ->
  append_to_excel df path sheet st
  = (inr tt, set_fs (<[path := <[sheet := df]> wb]> (fs st)) (set_ext e2 st),
     [Did (CReadExcel path sheet) (Some e);
      Log WARNING (MsgSheetMissing sheet);
      Did (CWriteExcel path sheet true) None;
      Log INFO (MsgAppended path sheet)])
  /\ sheet_of (append_to_excel df path sheet st).1.2 path sheet = Some df.
Proof.
  intros Hfile Hread Hwrite.
  assert (Hrun : append_to_excel df path sheet st
    = (inr tt, set_fs (<[path := <[sheet := df]> wb]> (fs st)) (set_ext e2 st),
       [Did (CReadExcel path sheet) (Some e);
        Log WARNING (MsgSheetMissing sheet);
        Did (CWriteExcel path sheet true) None;
        Log INFO (MsgAppended path sheet)])).
  { run_merge. simpl. rewrite Hfile. simpl. rewrite Hread. simpl.
    rewrite Hwrite. simpl. rewrite Hfile. reflexivity. }
  split; [exact Hrun |]. rewrite Hrun. unfold sheet_of. simpl.
  rewrite lookup_insert_eq. apply lookup_insert_eq.
Qed.

(** Reading a frame back changes neither the number of its rows nor their
    widths nor the number of its columns. *)
Lemma read_back_rows (d : DataFrame) :
  length (rows (read_back (E := E) d)) = length (rows d).
Proof. unfold read_back. simpl. apply length_map. Qed.

Lemma read_back_rectangular (d : DataFrame) :
  rectangular d -> rectangular (read_back (E := E) d).
Proof.
  unfold rectangular, read_back. simpl. intros Hd.
  rewrite length_imap. apply Forall_map.
  eapply Forall_impl; [exact Hd |].
  intros r Hr. simpl. rewrite length_imap. exact Hr.
Qed.

Lemma written_part_rectangular n (d : DataFrame) :
  rectangular d -> rectangular (written_part n d).
Proof.
  unfold rectangular, written_part. intros Hd.
  destruct (Nat.ltb n (length (columns d))); simpl; [constructor |].
  apply Forall_forall. intros r Hin.
  apply elem_of_lookup_imap in Hin. destruct Hin as (i & r0 & -> & Hr0).
  rewrite length_imap.
  rewrite Forall_forall in Hd. apply Hd.
  apply lookup_take_Some in Hr0. destruct Hr0 as [Hr0 _].
  eapply list_elem_of_lookup_2. exact Hr0.
Qed.

Lemma pd_concat_rows a b df' :
  pd_concat a b = inr df' ->
  length (rows df') = length (rows a) + length (rows b).
Proof.
  unfold pd_concat. destruct (same_columns (columns a) (columns b)).
  - intros Heq. injection Heq as <-. simpl. apply length_app.
  - destruct (unique (columns a) && unique (columns b)); [| discriminate].
    intros Heq. injection Heq as <-. simpl.
    rewrite length_app, !length_map. reflexivity.
Qed.

(** X10. A merge never deduplicates and never drops rows: when the target
    sheet was read and the merge is logged as done, the sheet holds as many
    rows as it held before plus the rows of the snapshot. *)
Theorem append_to_excel_row_count df path sheet (st : St E) wb existing e1 :
  fs st !! path = Some wb ->
  wb !! sheet = Some existing ->
  excel_read_fault path sheet (ext st) = (None, e1) ->
  In (Log INFO (MsgAppended path sheet)) (append_to_excel df path sheet st).2 ->
  exists df',
    sheet_of (append_to_excel df path sheet st).1.2 path sheet = Some df'
    /\ length (rows df') = length (rows existing) + length (rows df).
Proof.
  intros Hfile Hsheet Hread. run_merge. simpl.
  rewrite Hfile. simpl. rewrite Hread. simpl. rewrite Hfile, Hsheet. simpl.
  destruct (pd_concat (read_back existing) df) as [e | df'] eqn:Hconcat; simpl.
  - intros [Heq | [Heq | []]]; discriminate.
  - destruct (excel_write_fault path sheet e1) as [[[e [n |]] |] e2];
      simpl; rewrite ?Hfile; simpl.
    + intros [Heq | [Heq | [Heq | []]]]; discriminate.
    + intros [Heq | [Heq | [Heq | []]]]; discriminate.
    + intros _. exists df'. split.
      * unfold sheet_of. simpl. rewrite lookup_insert_eq.
        apply lookup_insert_eq.
      * rewrite (pd_concat_rows _ _ _ Hconcat), read_back_rows. reflexivity.
Qed.

Lemma reindex_length src dst r : length (reindex src dst r) = length dst.
Proof. unfold reindex. apply length_map. Qed.

Lemma pd_concat_rectangular a b df' :
  rectangular a -> rectangular b ->
  pd_concat a b = inr df' -> rectangular df'.
Proof.
  unfold rectangular, pd_concat. intros Ha Hb.
  destruct (same_columns (columns a) (columns b)) eqn:Hsame.
  - intros Heq. injection Heq as <-. simpl.
    apply bool_decide_eq_true_1 in Hsame.
    apply Forall_app. split; [exact Ha | rewrite Hsame; exact Hb].
  - destruct (unique (columns a) && unique (columns b)); [| discriminate].
    intros Heq. injection Heq as <-. simpl.
    apply Forall_app. split; apply Forall_forall; intros r Hin;
      apply list_elem_of_In, in_map_iff in Hin;
      destruct Hin as (r0 & <- & _); apply reindex_length.
Qed.

Lemma merge_rectangular df path sheet (st : St E) :
  rectangular df ->
  (forall p s d, sheet_of st p s = Some d -> rectangular d) ->
  forall p s d,
    sheet_of (append_to_excel df path sheet st).1.2 p s = Some d ->
    rectangular d.
Proof.
  intros Hdf Hall p s d.
  destruct (decide ((p, s) = (path, sheet))) as [Heq | Hne].
  2:{ rewrite (append_to_excel_keeps df path sheet p s Hne st). apply Hall. }
  injection Heq as -> ->.
  assert (Hsame : forall (s0 : St E),
             fs s0 = fs st -> sheet_of s0 path sheet = Some d -> rectangular d).
  { intros s0 Hfs Hd. apply (Hall path sheet).
    unfold sheet_of in *. rewrite <- Hfs. exact Hd. }
  assert (Hset : forall (s0 : St E) wb0 d0,
             fs s0 = <[path := <[sheet := d0]> wb0]> (fs st) ->
             rectangular d0 ->
             sheet_of s0 path sheet = Some d -> rectangular d).
  { intros s0 wb0 d0 Hfs Hd0. unfold sheet_of. rewrite Hfs.
    rewrite !lookup_insert_eq. intros Hd. injection Hd as <-. exact Hd0. }
  assert (Hstored : forall wb0 existing,
             fs st !! path = Some wb0 -> wb0 !! sheet = Some existing ->
             rectangular existing).
  { intros wb0 existing Hfile Hsheet. apply (Hall path sheet).
    unfold sheet_of. rewrite Hfile. exact Hsheet. }
  merge_cases st path sheet df;
    first
      [ apply (Hsame _ eq_refl)
      | eapply Hset; [reflexivity |];
        first [ exact Hdf
              | apply written_part_rectangular; exact Hdf
              | eapply pd_concat_rectangular;
                [apply read_back_rectangular; eapply Hstored;
                 first [reflexivity | eassumption]
                | exact Hdf | eassumption]
              | apply written_part_rectangular;
                eapply pd_concat_rectangular;
                [apply read_back_rectangular; eapply Hstored;
                 first [reflexivity | eassumption]
                | exact Hdf | eassumption] ]
      | unfold sheet_of; simpl;
        rewrite lookup_insert_eq, lookup_singleton_eq;
        intros Hd; injection Hd as <-;
        first [exact Hdf | apply written_part_rectangular; exact Hdf] ].
Qed.

(** X11. Merging keeps the sheets rectangular: when every stored frame has
    one cell per column in each row, and so has the snapshot, the same holds
    of every stored frame after [append_to_excel]. *)
Theorem append_to_excel_rectangular df path sheet (st : St E) :
  rectangular df ->
  (forall p s d, sheet_of st p s = Some d -> rectangular d) ->
  forall p s d,
    sheet_of (append_to_excel df path sheet st).1.2 p s = Some d ->
    rectangular d.
Proof. apply merge_rectangular. Qed.

End MergeMore.


(** ** Relations that hold along a whole batch *)

Section Whole.

Context {E : Type} `{External E}.

Variable R : St E -> St E -> list Event -> Prop.
Context `{!Frame R}.

Hypothesis Hlog : forall lvl msg (st : St E), R st st [Log lvl msg].
Hypothesis Hcall : forall c r (st : St E) e,
  batch_call c -> R st (set_ext e st) [Did c r].
Hypothesis Hopen : respects R open_popup.
Hypothesis Hput : forall l (st : St E), R st (set_popup_page l st) [].
Hypothesis Hmain : forall popup name text,
  respects R (main_table_step popup name text).
Hypothesis Htable : forall popup name text tab,
  respects R (historical_table_step popup name text tab).

Ltac prim :=
  intros; first [apply Hcall; exact I | apply Hlog | apply Hput].

Lemma inner_call_batch c : inner_call c -> batch_call c.
Proof. destruct c; simpl; tauto. Qed.

Lemma historical_step_whole popup name text :
  respects R (historical_step popup name text).
Proof.
  unfold historical_step. walk prim.
  - apply (switch_tab_respects R); intros;
      [apply Hlog | apply Hcall, inner_call_batch; assumption].
  - apply Htable.
Qed.

Lemma scrape_company_tables_whole name :
  respects R (scrape_company_tables name).
Proof.
  unfold scrape_company_tables, company_body, stripped_text, cleanup,
    close_popup_page.
  cbn [truthy negb]. walk prim.
  - apply Hopen.
  - apply Hmain.
  - apply historical_step_whole.
Qed.

Lemma scrape_all_whole companies : respects R (scrape_all companies).
Proof.
  induction companies as [| c cs IH]; cbn [scrape_all]; walk prim.
  - apply scrape_company_tables_whole.
  - exact IH.
Qed.

End Whole.

Section Sheets.

Context {E : Type} `{External E}.

Lemma sheet_of_fs (st st' : St E) p s :
  fs st' = fs st -> sheet_of st' p s = sheet_of st p s.
Proof. intros Hfs. unfold sheet_of. rewrite Hfs. reflexivity. Qed.

Lemma scrape_table_fs page o m title (st : St E) :
  fs (scrape_table page o m title st).1.2 = fs st.
Proof.
  destruct (scrape_table_trace page o m title st) as (r & tail & Hrun & _).
  rewrite Hrun. cbn [fst snd]. apply poll_table_bounded.
Qed.

Lemma historical_table_step_keeps popup name text tab p s :
  (p, s) <> (output_file, "Historical Shareholders") ->
  respects (keeps (fun st : St E => sheet_of st p s))
           (historical_table_step popup name text tab).
Proof.
  intros Hne. unfold historical_table_step.
  walk ltac:(intros; reflexivity).
  - intros st. unfold keeps. apply sheet_of_fs, scrape_table_fs.
  - apply append_to_excel_keeps. exact Hne.
Qed.

Lemma main_table_step_keeps popup name text p s :
  (p, s) <> (output_file, "Shareholders") ->
  respects (keeps (fun st : St E => sheet_of st p s))
           (main_table_step popup name text).
Proof.
  intros Hne. unfold main_table_step.
  walk ltac:(intros; reflexivity).
  - intros st. unfold keeps. apply sheet_of_fs, scrape_table_fs.
  - apply append_to_excel_keeps. exact Hne.
Qed.

(** X12. A batch writes to two places only: whatever happens, every sheet
    other than [Shareholders] and [Historical Shareholders] of
    [L1_share.xlsx], and every sheet of every other file, holds after
    [scrape_all] what it held before. *)
Theorem scrape_all_touches_two_sheets companies (st : St E) p s :
  (p, s) <> (output_file, "Shareholders") ->
  (p, s) <> (output_file, "Historical Shareholders") ->
  sheet_of (scrape_all companies st).1.2 p s = sheet_of st p s.
Proof.
  intros Hmain Hhist.
  apply (scrape_all_whole (keeps (fun st0 : St E => sheet_of st0 p s)));
    try (intros; reflexivity).
  - intros st0. unfold keeps, open_popup.
    destruct (link_click_expect_popup (ext st0)) as [[e | q] e']; reflexivity.
  - intros popup name text. apply main_table_step_keeps. exact Hmain.
  - intros popup name text tab. apply historical_table_step_keeps. exact Hhist.
Qed.

#[global] Instance sheets_stay_frame : Frame (sheets_stay (E := E)).
Proof.
  split; unfold sheets_stay.
  - intros st p s Hs. exact Hs.
  - intros s1 s2 s3 _ _ H1 H2 p s Hs. apply H2, H1, Hs.
Qed.

Lemma append_to_excel_stays df path sheet :
  respects (sheets_stay (E := E)) (append_to_excel df path sheet).
Proof.
  intros st p s Hs.
  destruct (append_to_excel_fs df path sheet st) as [[Hfs | [df' Hfs]] _].
  - rewrite (sheet_of_fs _ _ p s Hfs). exact Hs.
  - destruct (decide ((p, s) = (path, sheet))) as [Heq | Hne].
    + injection Heq as -> ->. unfold sheet_of. rewrite Hfs.
      rewrite lookup_insert_eq, lookup_insert_eq. eauto.
    + rewrite (sheet_of_insert _ _ _ _ _ _ _ Hfs Hne). exact Hs.
Qed.

(** X13. Nothing is ever deleted: a sheet that exists before a batch exists
    after it, whatever goes wrong in between. *)
Theorem scrape_all_keeps_sheets companies (st : St E) p s :
  is_Some (sheet_of st p s) ->
  is_Some (sheet_of (scrape_all companies st).1.2 p s).
Proof.
  revert p s.
  apply (scrape_all_whole (sheets_stay (E := E)));
    try (intros; intros p s Hs; exact Hs).
  - intros st0 p s Hs. unfold open_popup.
    destruct (link_click_expect_popup (ext st0)) as [[e | q] e']; exact Hs.
  - intros popup name text. unfold main_table_step.
    walk ltac:(intros; intros p s Hs; exact Hs).
    + intros st0 p s Hs.
      rewrite (sheet_of_fs _ _ p s (scrape_table_fs _ _ _ _ st0)). exact Hs.
    + apply append_to_excel_stays.
  - intros popup name text tab. unfold historical_table_step.
    walk ltac:(intros; intros p s Hs; exact Hs).
    + intros st0 p s Hs.
      rewrite (sheet_of_fs _ _ p s (scrape_table_fs _ _ _ _ st0)). exact Hs.
    + apply append_to_excel_stays.
Qed.

End Sheets.


Section Rectangular.

Context {E : Type} `{External E}.

#[global] Instance stays_rectangular_frame : Frame (stays_rectangular (E := E)).
Proof.
  split; unfold stays_rectangular.
  - intros st Hall. exact Hall.
  - intros s1 s2 s3 _ _ H1 H2 Hall. apply H2, H1, Hall.
Qed.

Lemma stays_rectangular_fs (st st' : St E) tr :
  fs st' = fs st -> stays_rectangular st st' tr.
Proof.
  intros Hfs Hall p s d. rewrite (sheet_of_fs _ _ p s Hfs). apply Hall.
Qed.

(** The frame that [scrape_table] returns is rectangular. *)
Lemma scrape_table_rectangular page o m title (st st' : St E) df tr :
  scrape_table page o m title st = (inr (Some df), st', tr) ->
  rectangular df.
Proof.
  intros Hrun.
  destruct (scrape_table_some _ _ _ _ _ _ _ _ Hrun)
    as (html & st1 & t1 & t2 & _ & Hframe & _).
  destruct (build_frame_ok _ _ _ _ _ _ _ Hframe)
    as (headers & trs & _ & _ & -> & _ & _).
  unfold rectangular. simpl. apply Forall_forall. intros r Hin.
  apply list_elem_of_In, in_map_iff in Hin. destruct Hin as (cols & <- & Hin).
  apply filter_In in Hin. destruct Hin as [_ Hfit].
  apply Nat.eqb_eq in Hfit. unfold frame_row. simpl.
  rewrite length_map, Hfit. reflexivity.
Qed.

(** Scraping a table and merging what it yields into [sheet]. *)
Lemma scrape_then_merge_rectangular page o m title sheet :
  respects (stays_rectangular (E := E))
    (scraped <- scrape_table page o m title ;;
     match scraped with
     | Some df => append_to_excel df output_file sheet
     | None => ret tt
     end).
Proof.
  intros st.
  pose proof (scrape_table_fs page o m title st) as Hfs.
  destruct (scrape_table page o m title st) as [[[e | scraped] st1] t1]
    eqn:Hrun; cbn [fst snd] in Hfs.
  - rewrite (bind_raise _ _ _ _ _ _ Hrun). cbn [fst snd].
    apply stays_rectangular_fs. exact Hfs.
  - rewrite (bind_ok _ _ _ _ _ _ Hrun). cbn [fst snd].
    destruct scraped as [df |].
    + intros Hall. apply merge_rectangular.
      * exact (scrape_table_rectangular _ _ _ _ _ _ _ _ Hrun).
      * intros p s d. rewrite (sheet_of_fs _ _ p s Hfs). apply Hall.
    + cbn. apply stays_rectangular_fs. exact Hfs.
Qed.

(** X14. The workbook stays well formed through a batch: when every stored
    frame is rectangular before [scrape_all], every stored frame is
    rectangular after it. *)
Theorem scrape_all_rectangular companies (st : St E) :
  (forall p s d, sheet_of st p s = Some d -> rectangular d) ->
  forall p s d,
    sheet_of (scrape_all companies st).1.2 p s = Some d -> rectangular d.
Proof.
  apply (scrape_all_whole (stays_rectangular (E := E)));
    try (intros; apply stays_rectangular_fs; reflexivity).
  - intros st0. unfold open_popup.
    destruct (link_click_expect_popup (ext st0)) as [[e | q] e'];
      apply stays_rectangular_fs; reflexivity.
  - intros popup name text. apply scrape_then_merge_rectangular.
  - intros popup name text tab. apply scrape_then_merge_rectangular.
Qed.

End Rectangular.


(** ** More on the tab loop and on a call without popup *)

Section TabsMore.

Context {E : Type} `{External E}.

(** X15. A tab counts as activated exactly when both the click and the
    three-second settle wait return.  In particular a label whose click
    went through but whose wait raised is logged as not found, although the
    tab has been clicked. *)
Theorem activate_tab_outcome popup tab (st : St E) :
  ((activate_tab popup tab st).1.1 = inr true
   <-> exists e1 e2,
        tab_click popup tab (ext st) = (inr tt, e1)
        /\ wait_for_timeout popup 3000 e1 = (inr tt, e2))
  /\ (forall e1 e e2,
        tab_click popup tab (ext st) = (inr tt, e1) ->
        wait_for_timeout popup 3000 e1 = (inl e, e2) ->
        activate_tab popup tab st
        = (inr false, set_ext e2 st,
           [Did (CClickTab popup tab) None;
            Did (CWaitTimeout popup 3000) (Some e);
            Log WARNING (MsgTabNotFound tab)])).
Proof.
  destruct (activate_tab_cases popup tab st)
    as [(e & e1 & Hc & Hrun) | [(e1 & e & e2 & Hc & Hw & Hrun)
                               | (e1 & e2 & Hc & Hw & Hrun)]];
    rewrite Hrun; cbn [fst snd].
  - split.
    + split; [discriminate |].
      intros (x1 & x2 & Hc' & _). rewrite Hc in Hc'. discriminate.
    + intros x1 x x2 Hc'. rewrite Hc in Hc'. discriminate.
  - split.
    + split; [discriminate |].
      intros (x1 & x2 & Hc' & Hw'). rewrite Hc in Hc'. injection Hc' as <-.
      rewrite Hw in Hw'. discriminate.
    + intros x1 x x2 Hc' Hw'. rewrite Hc in Hc'. injection Hc' as <-.
      rewrite Hw in Hw'. injection Hw' as <- <-. reflexivity.
  - split.
    + split; [intros _; eauto | reflexivity].
    + intros x1 x x2 Hc' Hw'. rewrite Hc in Hc'. injection Hc' as <-.
      rewrite Hw in Hw'. discriminate.
Qed.

Lemma clicked_app t1 t2 : clicked (t1 ++ t2) = clicked t1 ++ clicked t2.
Proof.
  induction t1 as [| ev t1 IH]; [reflexivity |].
  destruct ev as [lvl msg | [] r | r]; simpl; rewrite ?IH; reflexivity.
Qed.

Lemma not_found_app t1 t2 : not_found (t1 ++ t2) = not_found t1 ++ not_found t2.
Proof.
  induction t1 as [| ev t1 IH]; [reflexivity |].
  destruct ev as [[] [] | c r | r]; simpl; rewrite ?IH; reflexivity.
Qed.

(** X16. For any list of candidate labels, the loop clicks them in order
    and stops at the first one that activates: when it yields a label, the
    labels before it were each clicked once and reported as not found, and
    none after it was clicked; when it yields none, every label was clicked
    once and reported as not found.  It never raises. *)
Theorem switch_tab_outcome popup labels (st : St E) :
  match (switch_tab popup labels st).1.1 with
  | inr (Some tab) =>
      exists before after,
        labels = before ++ tab :: after
        /\ clicked (switch_tab popup labels st).2 = before ++ [tab]
        /\ not_found (switch_tab popup labels st).2 = before
  | inr None =>
      clicked (switch_tab popup labels st).2 = labels
      /\ not_found (switch_tab popup labels st).2 = labels
  | inl _ => False
  end.
Proof.
  revert st. induction labels as [| tab labels IH]; intros st.
  - simpl. split; reflexivity.
  - cbn [switch_tab].
    destruct (activate_tab_cases popup tab st)
      as [(e & e1 & _ & Hrun) | [(e1 & e & e2 & _ & _ & Hrun)
                                | (e1 & e2 & _ & _ & Hrun)]];
      rewrite (bind_ok _ _ _ _ _ _ Hrun); cbn [fst snd].
    + specialize (IH (set_ext e1 st)).
      rewrite clicked_app, not_found_app.
      destruct (switch_tab popup labels (set_ext e1 st)) as [[[x | [t |]] s1] t1];
        cbn [fst snd] in *; [contradiction | |].
      * destruct IH as (before & after & -> & Hc & Hn).
        exists (tab :: before), after. cbn. rewrite Hc, Hn. auto.
      * destruct IH as [Hc Hn]. cbn. rewrite Hc, Hn. auto.
    + specialize (IH (set_ext e2 st)).
      rewrite clicked_app, not_found_app.
      destruct (switch_tab popup labels (set_ext e2 st)) as [[[x | [t |]] s1] t1];
        cbn [fst snd] in *; [contradiction | |].
      * destruct IH as (before & after & -> & Hc & Hn).
        exists (tab :: before), after. cbn. rewrite Hc, Hn. auto.
      * destruct IH as [Hc Hn]. cbn. rewrite Hc, Hn. auto.
    + exists [], labels. cbn. auto.
Qed.

(** X17. When the click on the company link opens no popup, the call logs
    the exception and goes straight to the cleanup: no table is scraped, no
    file is read or written, nothing is closed, and the page is sent back
    to the landing page. *)
Theorem scrape_company_tables_without_popup name (st : St E)
  e1 e2 text e3 e e4 r e5 :
  search_fill name (ext st) = (inr tt, e1) ->
  search_press "Enter" e1 = (inr tt, e2) ->
  link_text_content (time_sleep 2 e2) = (inr (Some text), e3) ->
  link_click_expect_popup e3 = (inl e, e4) ->
  page_goto landing_url e4 = (r, e5) ->
  scrape_company_tables name st
  = (r, mkSt e5 (fs st) Unbound (browser st),
     [Log INFO (MsgStart name); Did (CFill name) None;
      Did (CPress "Enter") None; Did (CSleep 2) None;
      Did CTextContent None; Opened (inl e);
      Log ERROR (MsgCompanyError name e);
      Did (CGoto landing_url) (exn_of r)]).
Proof.
  intros Hfill Hpress Htext Hpop Hgoto.
  unfold scrape_company_tables, company_body, stripped_text, open_popup,
    cleanup, close_popup_page, try_finally, try_except, bind, call, sleep,
    logging, put, get, raise, ret.
  cbn [truthy negb ext set_popup_page set_ext popup_page fs browser].
  rewrite Hfill. cbn [ext set_ext exn_of popup_page fs browser].
  rewrite Hpress. cbn [ext set_ext exn_of popup_page fs browser].
  rewrite Htext. cbn [ext set_ext exn_of popup_page fs browser].
  rewrite Hpop. simpl.
  rewrite Hgoto. destruct r as [x | []]; reflexivity.
Qed.

End TabsMore.


(** ** [retry_open_browser] and [run] *)

Section Run.

Context {E : Type} `{External E}.

Lemma launch_loop_spec n k (st : St E) :
  exists es st',
    fs st' = fs st /\ popup_page st' = popup_page st
    /\ browser st' = browser st
    /\ ((length es < n
         /\ launch_loop (seq k n) st
            = (inr (Some tt), st',
               launch_failures (k + 1) es
               ++ [Did CLaunch None;
                   Log INFO (MsgLaunched (k + length es + 1))]))
        \/ (length es = n
            /\ launch_loop (seq k n) st
               = (inr None, st',
                  launch_failures (k + 1) es ++ [Log ERROR MsgLaunchGaveUp]))).
Proof.
  revert k st. induction n as [| n IH]; intros k st.
  - exists [], st. repeat split. right. split; reflexivity.
  - cbn [seq launch_loop].
    destruct (chromium_launch (ext st)) as [[e | []] e1] eqn:Hlaunch.
    + destruct (IH (S k) (set_ext e1 st))
        as (es & st' & Hfs & Hpop & Hbr & Hrun).
      exists (e :: es), st'. repeat split; try assumption.
      assert (Hstep : try_except
                (call CLaunch chromium_launch ;;
                 logging INFO (MsgLaunched (k + 1)) ;; ret true)
                (fun e0 => logging WARNING (MsgLaunchFailed (k + 1) e0) ;;
                           ret false) st
              = (inr false, set_ext e1 st,
                 [Did CLaunch (Some e);
                  Log WARNING (MsgLaunchFailed (k + 1) e)])).
      { unfold try_except, bind, call, logging, ret. rewrite Hlaunch.
        reflexivity. }
      rewrite (bind_ok _ _ _ _ _ _ Hstep). cbn [fst snd length].
      replace (S k + 1) with (S (k + 1)) in Hrun by lia.
      destruct Hrun as [[Hlen Hrun] | [Hlen Hrun]]; rewrite Hrun;
        [left | right]; (split; [lia |]); cbn [fst snd launch_failures app].
      * replace (S k + length es + 1) with (k + S (length es) + 1) by lia.
        reflexivity.
      * reflexivity.
    + exists [], (set_ext e1 st). repeat split. left. split; [cbn; lia |].
      unfold try_except, bind, call, logging, ret. rewrite Hlaunch.
      cbn. replace (k + 0 + 1) with (k + 1) by lia. reflexivity.
Qed.

(** X18. [retry_open_browser] never raises and launches the browser at most
    three times, stopping at the first launch that goes through: either
    fewer than three launches raised, each logged with a warning, and the
    next one succeeded and is logged under its number; or three launches
    raised and the function gives up with an error record and no browser.
    No file is touched. *)
Theorem retry_open_browser_outcome (st : St E) :
  exists es st',
    fs st' = fs st
    /\ ((length es < 3
         /\ retry_open_browser st
            = (inr (Some tt), st',
               launch_failures 1 es
               ++ [Did CLaunch None; Log INFO (MsgLaunched (length es + 1))]))
        \/ (length es = 3
            /\ retry_open_browser st
               = (inr None, st',
                  launch_failures 1 es ++ [Log ERROR MsgLaunchGaveUp]))).
Proof.
  destruct (launch_loop_spec 3 0 st) as (es & st' & Hfs & _ & _ & Hrun).
  exists es, st'. split; [exact Hfs | exact Hrun].
Qed.

(** X19. When the browser cannot be launched, three times in a row, [run]
    logs that it exits and stops there: no login, no company, no file
    touched, nothing to close; it returns normally. *)
Theorem run_without_browser (st : St E) x1 e1 x2 e2 x3 e3 :
  chromium_launch (ext st) = (inl x1, e1) ->
  chromium_launch e1 = (inl x2, e2) ->
  chromium_launch e2 = (inl x3, e3) ->
  run st
  = (inr tt, mkSt e3 (fs st) (popup_page st) (Bound None),
     [Did CLaunch (Some x1); Log WARNING (MsgLaunchFailed 1 x1);
      Did CLaunch (Some x2); Log WARNING (MsgLaunchFailed 2 x2);
      Did CLaunch (Some x3); Log WARNING (MsgLaunchFailed 3 x3);
      Log ERROR MsgLaunchGaveUp;
      Log CRITICAL MsgExiting]).
Proof.
  intros H1 H2 H3.
  unfold run, retry_open_browser, close_browser, try_finally, try_except,
    bind, call, logging, put, get, raise, ret.
  cbn [seq launch_loop]. unfold try_except, bind, call, logging, ret.
  cbn [ext set_browser set_ext]. rewrite H1.
  cbn [ext set_browser set_ext]. rewrite H2.
  cbn [ext set_browser set_ext]. rewrite H3. reflexivity.
Qed.

(** X20. When the first launch goes through and the login raises, [run]
    logs the exception as critical, starts no company, and closes the
    browser, whatever the close does; it returns normally. *)
Theorem run_login_raises (st : St E) e1 e e2 r e3 :
  chromium_launch (ext st) = (inr tt, e1) ->
  login_steps e1 = (inl e, e2) ->
  browser_close e2 = (r, e3) ->
  run st
  = (inr tt, mkSt e3 (fs st) (popup_page st) (Bound (Some tt)),
     [Did CLaunch None; Log INFO (MsgLaunched 1);
      Did CLogin (Some e); Log CRITICAL (MsgUnexpected e);
      Did CBrowserClose (exn_of r)]).
Proof.
  intros Hlaunch Hlogin Hclose.
  unfold run, retry_open_browser, close_browser, try_finally, try_except,
    bind, call, logging, put, get, raise, ret.
  cbn [seq launch_loop]. unfold try_except, bind, call, logging, ret.
  cbn [ext set_browser set_ext]. rewrite Hlaunch.
  cbn [ext set_browser set_ext browser exn_of]. rewrite Hlogin.
  cbn [ext set_browser set_ext browser exn_of]. rewrite Hclose.
  destruct r as [x | []]; reflexivity.
Qed.

End Run.


Section RunShape.

Context {E : Type} `{External E}.

Lemma run_unfold :
  run (E := E)
  = (put (set_browser Unbound) ;;
     try_finally
       (try_except
          (opened <- retry_open_browser ;;
           put (set_browser (Bound opened)) ;;
           after_launch opened)
          (fun e => logging CRITICAL (MsgUnexpected e)))
       (try_except close_browser (fun _ => ret tt))).
Proof. reflexivity. Qed.

(** The merge leaves the locals alone. *)
Lemma append_to_excel_keeps_browser df path sheet :
  respects (keeps (browser (E := E))) (append_to_excel df path sheet).
Proof.
  assert (Hread : respects (keeps (browser (E := E))) (read_excel path sheet)).
  { intros st. unfold read_excel, keeps.
    destruct (excel_read_fault path sheet (ext st)) as [[e |] e'];
      reflexivity. }
  assert (Hnew : forall d,
             respects (keeps (browser (E := E))) (to_excel_new d path sheet)).
  { intros d st. unfold to_excel_new, keeps.
    destruct (excel_write_fault path sheet (ext st)) as [[[e [n |]] |] e'];
      reflexivity. }
  assert (Hrep : forall d,
             respects (keeps (browser (E := E)))
                      (to_excel_replace d path sheet)).
  { intros d st. unfold to_excel_replace, keeps.
    destruct (excel_write_fault path sheet (ext st)) as [[[e [n |]] |] e'];
      try destruct (fs st !! path); reflexivity. }
  unfold append_to_excel, os_path_exists.
  walk ltac:(intros; reflexivity);
    first [apply Hread | apply Hnew | apply Hrep].
Qed.

Lemma scrape_all_keeps_browser companies :
  respects (keeps (browser (E := E))) (scrape_all companies).
Proof.
  apply (scrape_all_whole (keeps (browser (E := E))));
    try (intros; reflexivity).
  - intros st. unfold keeps, open_popup.
    destruct (link_click_expect_popup (ext st)) as [[e | q] e']; reflexivity.
  - intros popup name text.
    apply (main_table_step_respects _ (fun _ _ => True));
      try exact I; try (intros; reflexivity).
    intros df path sheet _. apply append_to_excel_keeps_browser.
  - intros popup name text tab. unfold historical_table_step.
    walk ltac:(intros; reflexivity).
    + apply (scrape_table_respects (keeps (browser (E := E))));
        intros; reflexivity.
    + apply append_to_excel_keeps_browser.
Qed.

Lemma after_launch_keeps_browser opened :
  respects (keeps (browser (E := E))) (after_launch opened).
Proof.
  unfold after_launch. walk ltac:(intros; reflexivity).
  apply scrape_all_keeps_browser.
Qed.

(** The [finally] block of [run], from a state whose [browser] is bound. *)
Lemma close_browser_run (st : St E) opened :
  browser st = Bound opened ->
  exists close_r st',
    try_except close_browser (fun _ => ret tt) st
    = (inr tt, st',
       match opened with
       | Some _ => [Did CBrowserClose close_r]
       | None => []
       end)
    /\ fs st' = fs st.
Proof.
  intros Hbr. unfold close_browser, try_except, bind, get, call, raise, ret.
  rewrite Hbr. destruct opened as [[] |]; simpl.
  - destruct (browser_close (ext st)) as [[e | []] e']; simpl.
    + exists (Some e). eexists. split; reflexivity.
    + exists None. eexists. split; reflexivity.
  - exists None, st. split; reflexivity.
Qed.

Lemma browser_closes_app t1 t2 :
  browser_closes (t1 ++ t2) = browser_closes t1 ++ browser_closes t2.
Proof.
  induction t1 as [| ev t1 IH]; [reflexivity |].
  destruct ev as [lvl msg | [] r | r]; simpl; rewrite ?IH; reflexivity.
Qed.

Lemma browser_closes_none tr : Forall not_a_close tr -> browser_closes tr = [].
Proof.
  induction 1 as [| ev tr Hev _ IH]; [reflexivity |].
  destruct ev as [lvl msg | [] r | r]; simpl in *; try exact IH; contradiction.
Qed.

Lemma launch_failures_no_close k es :
  Forall not_a_close (launch_failures k es).
Proof.
  revert k. induction es as [| e es IH]; intros k; simpl; [constructor |].
  constructor; [exact I |]. constructor; [exact I | apply IH].
Qed.

Lemma body_event_not_a_close ev : body_event ev -> not_a_close ev.
Proof. destruct ev as [lvl msg | [] r | r]; simpl; tauto. Qed.

Lemma append_to_excel_never_closes df path sheet :
  respects (emits (E := E) not_a_close) (append_to_excel df path sheet).
Proof.
  intros st. unfold emits.
  eapply Forall_impl; [apply (append_to_excel_no_navigation df path sheet st) |].
  apply body_event_not_a_close.
Qed.

(** The batch loop never closes the browser. *)
Lemma scrape_all_never_closes companies :
  respects (emits (E := E) not_a_close) (scrape_all companies).
Proof.
  assert (Hcall : forall c r (st : St E) e,
             inner_call c -> emits not_a_close st (set_ext e st) [Did c r]).
  { intros c r st e Hc. apply emits_one. destruct c; try exact I; contradiction. }
  apply (scrape_all_whole (emits not_a_close)).
  - intros lvl msg st. apply emits_one. exact I.
  - intros c r st e Hc. apply emits_one.
    destruct c; try exact I; contradiction.
  - intros st. unfold open_popup.
    destruct (link_click_expect_popup (ext st)) as [[e | q] e'];
      apply emits_one; exact I.
  - intros l st. constructor.
  - intros popup name text.
    apply (main_table_step_respects _ (fun _ _ => True)); try exact I.
    + intros lvl msg st _. apply emits_one. exact I.
    + exact Hcall.
    + intros df path sheet _. apply append_to_excel_never_closes.
  - intros popup name text tab. unfold historical_table_step.
    walk ltac:(intros; apply emits_one; exact I).
    + apply (scrape_table_respects (emits not_a_close)).
      * intros lvl msg st _. apply emits_one. exact I.
      * exact Hcall.
    + apply append_to_excel_never_closes.
Qed.

Lemma after_launch_never_closes opened :
  respects (emits (E := E) not_a_close) (after_launch opened).
Proof.
  unfold after_launch. walk ltac:(intros; apply emits_one; exact I).
  apply scrape_all_never_closes.
Qed.

(** X21. [run] never raises.  Whatever happens after the launch attempts
    (a failed login, a batch cut short), its last act is to close the
    browser when one was launched, the outcome of the close being ignored,
    and nothing before that closes it.  When none was launched, [run] only
    logs that it exits, and the browser is never closed. *)
Theorem run_always_returns (st : St E) :
  exists opened st0 t0 t1 close_r st',
    retry_open_browser (set_browser Unbound st) = (inr opened, st0, t0)
    /\ run st
       = (inr tt, st',
          t0 ++ t1 ++ match opened with
                      | Some _ => [Did CBrowserClose close_r]
                      | None => []
                      end)
    /\ browser_closes (t0 ++ t1) = []
    /\ browser_closes (run st).2
       = match opened with
         | Some _ => [close_r]
         | None => []
         end
    /\ match opened with
       | Some _ => True
       | None => t1 = [Log CRITICAL MsgExiting]
       end.
Proof.
  destruct (launch_loop_spec 3 0 (set_browser Unbound st))
    as (es & st0 & _ & _ & Hbr0 & Hlaunch).
  assert (Hretry : exists opened t0,
             retry_open_browser (set_browser Unbound st)
             = (inr opened, st0, t0)
             /\ Forall not_a_close t0).
  { destruct Hlaunch as [[_ Hrun] | [_ Hrun]]; eexists; eexists;
      (split; [exact Hrun |]);
      apply Forall_app; (split; [apply launch_failures_no_close |]);
      repeat constructor. }
  destruct Hretry as (opened & t0 & Hretry & Hquiet0).
  pose proof (after_launch_keeps_browser opened
                (set_browser (Bound opened) st0)) as Hkeep.
  pose proof (after_launch_never_closes opened
                (set_browser (Bound opened) st0)) as Hquiet.
  unfold keeps in Hkeep. unfold emits in Hquiet.
  assert (Hnone : opened = None ->
                  after_launch opened (set_browser (Bound opened) st0)
                  = (inr tt, set_browser (Bound opened) st0,
                     [Log CRITICAL MsgExiting])).
  { intros ->. reflexivity. }
  destruct (after_launch opened (set_browser (Bound opened) st0))
    as [[ra s1] t1] eqn:Hafter. cbn [fst snd] in Hkeep, Hquiet.
  assert (Hguard : exists t1',
    try_except
      (opened <- retry_open_browser ;;
       put (set_browser (Bound opened)) ;;
       after_launch opened)
      (fun e => logging CRITICAL (MsgUnexpected e))
      (set_browser Unbound st)
    = (inr tt, s1, t0 ++ t1')
    /\ Forall not_a_close t1'
    /\ (opened = None -> t1' = [Log CRITICAL MsgExiting])).
  { unfold try_except.
    rewrite (bind_ok _ _ _ _ _ _ Hretry). cbv beta.
    rewrite (bind_ok _ _ st0 tt (set_browser (Bound opened) st0) [])
      by reflexivity.
    rewrite Hafter. cbn [fst snd app].
    destruct ra as [e | []]; cbn.
    - exists (t1 ++ [Log CRITICAL (MsgUnexpected e)]).
      rewrite <- app_assoc. split; [reflexivity |]. split.
      + apply Forall_app. split; [exact Hquiet | repeat constructor].
      + intros Hop. specialize (Hnone Hop). discriminate.
    - exists t1. split; [reflexivity |]. split; [exact Hquiet |].
      intros Hop. specialize (Hnone Hop). congruence. }
  destruct Hguard as (t1' & Hguard & Hquiet1 & Hexit).
  destruct (close_browser_run s1 opened Hkeep) as (close_r & st' & Hclose & _).
  assert (Hrun : run st
                 = (inr tt, st',
                    t0 ++ t1' ++ match opened with
                                 | Some _ => [Did CBrowserClose close_r]
                                 | None => []
                                 end)).
  { rewrite run_unfold.
    rewrite (bind_ok _ _ st tt (set_browser Unbound st) []) by reflexivity.
    unfold try_finally. rewrite Hguard, Hclose. cbn [fst snd app].
    rewrite <- app_assoc. reflexivity. }
  assert (Hbefore : browser_closes (t0 ++ t1') = []).
  { apply browser_closes_none, Forall_app. split; assumption. }
  exists opened, st0, t0, t1', close_r, st'.
  split; [exact Hretry |]. split; [exact Hrun |]. split; [exact Hbefore |].
  split.
  - rewrite Hrun. cbn [snd]. rewrite app_assoc, browser_closes_app, Hbefore.
    destruct opened; reflexivity.
  - destruct opened; [exact I | apply Hexit; reflexivity].
Qed.

(** X22. How [run] and the batch loop compose.  When the first launch, the
    login, the wait for the operator and the load of the company list all
    go through, the trace of [run] is the six events of that preamble, then
    the trace of [scrape_all] on the list loaded, then a critical record
    when the loop raised, then the close of the browser; the files are
    those the loop left. *)
Theorem run_runs_the_batch (st : St E) e1 e2 e3 companies e4 :
  chromium_launch (ext st) = (inr tt, e1) ->
  login_steps e1 = (inr tt, e2) ->
  console_input e2 = (inr tt, e3) ->
  load_company_list e3 = (inr companies, e4) ->
  let batch :=
    scrape_all companies (mkSt e4 (fs st) (popup_page st) (Bound (Some tt)))
  in
  exists close_r st',
    run st
    = (inr tt, st',
       [Did CLaunch None; Log INFO (MsgLaunched 1); Did CLogin None;
        Log INFO MsgWaitCaptcha; Did CInput None; Did CLoadCompanies None]
       ++ batch.2
       ++ match batch.1.1 with
          | inl e => [Log CRITICAL (MsgUnexpected e)]
          | inr _ => []
          end
       ++ [Did CBrowserClose close_r])
    /\ fs st' = fs batch.1.2.
Proof.
  intros Hlaunch Hlogin Hinput Hload batch.
  pose proof (scrape_all_keeps_browser companies
                (mkSt e4 (fs st) (popup_page st) (Bound (Some tt)))) as Hkeep.
  unfold keeps in Hkeep. fold batch in Hkeep. cbn [browser] in Hkeep.
  assert (Hguard :
    try_except
      (opened <- retry_open_browser ;;
       put (set_browser (Bound opened)) ;;
       after_launch opened)
      (fun e => logging CRITICAL (MsgUnexpected e))
      (set_browser Unbound st)
    = (inr tt, batch.1.2,
       [Did CLaunch None; Log INFO (MsgLaunched 1); Did CLogin None;
        Log INFO MsgWaitCaptcha; Did CInput None; Did CLoadCompanies None]
       ++ batch.2
       ++ match batch.1.1 with
          | inl e => [Log CRITICAL (MsgUnexpected e)]
          | inr _ => []
          end)).
  { unfold retry_open_browser, after_launch. cbn [seq launch_loop].
    unfold try_except, bind, call, logging, put, ret.
    cbn [ext set_browser set_ext]. rewrite Hlaunch.
    cbn [ext set_browser set_ext browser exn_of fs popup_page].
    rewrite Hlogin. cbn [ext set_browser set_ext browser exn_of fs popup_page].
    rewrite Hinput. cbn [ext set_browser set_ext browser exn_of fs popup_page].
    rewrite Hload. cbn [ext set_browser set_ext browser exn_of fs popup_page].
    match goal with
    | |- context [scrape_all companies ?s] =>
        change (scrape_all companies s) with batch
    end.
    destruct batch as [[[e | []] sb] tb]; cbn;
      rewrite ?app_nil_r; reflexivity. }
  destruct (close_browser_run batch.1.2 (Some tt) Hkeep)
    as (close_r & st' & Hclose & Hfs).
  exists close_r, st'. split; [| exact Hfs].
  rewrite run_unfold.
  rewrite (bind_ok _ _ st tt (set_browser Unbound st) []) by reflexivity.
  unfold try_finally. rewrite Hguard, Hclose. cbn [fst snd app].
  rewrite <- ?app_assoc. reflexivity.
Qed.

End RunShape.


(** ** The further properties on examples *)

Lemma scrape_table_third_poll :
  scrape_table 1 "甲公司" "天眼查" "股东信息" (sim_state sim_slow ∅)
  = (inr (Some (mkDF ["Original Company Name"; "Matched Company Name";
                      "股东"; "持股比例"]
                     [[Str "甲公司"; Str "天眼查"; Str "甲"; Str "60%"];
                      [Str "甲公司"; Str "天眼查"; Str "丙"; Str "40%"]])),
     set_ext (mkSim [] [table_markup] [] [] [] [] []) (sim_state sim_slow ∅),
     Log INFO (MsgScraping "股东信息" "甲公司")
     :: loading_rounds 1 0 2
     ++ [Did (CInnerHtml 1) None; Log DEBUG (MsgTableHtml "股东信息");
         Log WARNING (MsgIncompleteRow ["乙"])]).
Proof.
  rewrite (scrape_table_loaded 1 "甲公司" "天眼查" "股东信息"
             (sim_state sim_slow ∅) 2 table_markup
             (mkSim [] [table_markup] [] [] [] [] [])
             ["股东"; "持股比例"] [["甲"; "60%"]; ["乙"]; ["丙"; "40%"]]).
  - reflexivity.
  - vm_compute. lia.
  - simpl. exists loading_markup, (mkSim [] [loading_markup; table_markup] [] [] [] [] []).
    split; [reflexivity | split; [vm_compute; reflexivity |]].
    exists loading_markup, (mkSim [] [table_markup] [] [] [] [] []).
    split; [reflexivity | split; [vm_compute; reflexivity |]].
    split; [reflexivity | vm_compute; reflexivity].
  - vm_compute. reflexivity.
  - vm_compute. reflexivity.
  - vm_compute. reflexivity.
  - vm_compute. reflexivity.
Defined.

Lemma scrape_table_unreadable :
  scrape_table 1 "甲公司" "天眼查" "股东信息" (sim_state sim_no_table ∅)
  = (inr None, set_ext sim_no_table (sim_state sim_no_table ∅),
     Log INFO (MsgScraping "股东信息" "甲公司")
     :: loading_rounds 1 0 0
     ++ [Did (CInnerHtml 1) (Some TimeoutError);
         Log ERROR (MsgTableError "股东信息" TimeoutError)]).
Proof.
  apply (scrape_table_poll_raises 1 "甲公司" "天眼查" "股东信息"
           (sim_state sim_no_table ∅) 0 TimeoutError sim_no_table).
  - vm_compute. lia.
  - simpl. split; [reflexivity | exact I].
Defined.

Lemma scrape_table_without_body :
  scrape_table 1 "甲公司" "天眼查" "股东信息" (lab_state lab_headless ∅)
  = (inr None, set_ext lab_headless (lab_state lab_headless ∅),
     Log INFO (MsgScraping "股东信息" "甲公司")
     :: loading_rounds 1 0 0
     ++ [Did (CInnerHtml 1) None; Log DEBUG (MsgTableHtml "股东信息");
         Log ERROR (MsgTableError "股东信息" AttributeError)]).
Proof.
  apply (scrape_table_missing_section 1 "甲公司" "天眼查" "股东信息"
           (lab_state lab_headless ∅) 0 headless_markup lab_headless).
  - vm_compute. lia.
  - simpl. split; [reflexivity | vm_compute; reflexivity].
  - right. vm_compute. reflexivity.
Defined.

Lemma scrape_table_with_clashing_header :
  scrape_table 1 "甲公司" "天眼查" "股东信息" (lab_state lab_clash ∅)
  = (inr None, set_ext lab_clash (lab_state lab_clash ∅),
     Log INFO (MsgScraping "股东信息" "甲公司")
     :: loading_rounds 1 0 0
     ++ Did (CInnerHtml 1) None
     :: Log DEBUG (MsgTableHtml "股东信息")
     :: map is_warning
          (List.filter
             (fun cols => negb (fits ["Original Company Name"; "股东"] cols))
             [["甲"; "乙"]])
     ++ [Log ERROR (MsgTableError "股东信息" ValueError)]).
Proof.
  apply (scrape_table_header_clash 1 "甲公司" "天眼查" "股东信息"
           (lab_state lab_clash ∅) 0 clash_markup lab_clash
           ["Original Company Name"; "股东"] [["甲"; "乙"]]).
  - vm_compute. lia.
  - simpl. split; [reflexivity | vm_compute; reflexivity].
  - vm_compute. reflexivity.
  - vm_compute. reflexivity.
  - vm_compute. reflexivity.
Defined.

Lemma first_merge_creates_workbook :
  append_to_excel dfA output_file "Shareholders" (sim_state sim_ok ∅)
  = (inr tt,
     set_fs (<[output_file := {[ "Shareholders" := dfA ]}]> ∅)
            (set_ext sim_ok (sim_state sim_ok ∅)),
     [Did (CWriteExcel output_file "Shareholders" false) None;
      Log INFO (MsgAppended output_file "Shareholders")]).
Proof.
  apply (append_to_excel_creates_file dfA output_file "Shareholders"
           (sim_state sim_ok ∅) sim_ok).
  - reflexivity.
  - reflexivity.
Defined.

Lemma merge_adds_historical_sheet :
  append_to_excel dfB output_file "Historical Shareholders"
    (sim_state sim_ok book_A)
  = (inr tt,
     set_fs (<[output_file := <["Historical Shareholders" := dfB]>
                                {[ "Shareholders" := dfA ]}]> book_A)
            (set_ext sim_ok (sim_state sim_ok book_A)),
     [Did (CReadExcel output_file "Historical Shareholders") (Some ValueError);
      Log WARNING (MsgSheetMissing "Historical Shareholders");
      Did (CWriteExcel output_file "Historical Shareholders" true) None;
      Log INFO (MsgAppended output_file "Historical Shareholders")]).
Proof.
  apply (append_to_excel_adds_sheet dfB output_file "Historical Shareholders"
           (sim_state sim_ok book_A) {[ "Shareholders" := dfA ]} sim_ok sim_ok);
    vm_compute; reflexivity.
Defined.

Lemma failed_read_drops_stored_rows :
  sheet_of (append_to_excel dfB output_file "Shareholders"
              (sim_state sim_read_fails book_A)).1.2
           output_file "Shareholders"
  = Some dfB.
Proof.
  refine (proj2 (append_to_excel_read_raises dfB output_file "Shareholders"
                   (sim_state sim_read_fails book_A)
                   {[ "Shareholders" := dfA ]} OSError
                   (mkSim [] [table_markup] [] [] [] [] [])
                   (mkSim [] [table_markup] [] [] [] [] []) _ _ _));
    vm_compute; reflexivity.
Defined.

Lemma merge_adds_row_counts :
  exists df',
    sheet_of (append_to_excel dfC output_file "Shareholders"
                (sim_state sim_ok book_A)).1.2
             output_file "Shareholders" = Some df'
    /\ length (rows df') = length (rows dfA) + length (rows dfC).
Proof.
  apply (append_to_excel_row_count dfC output_file "Shareholders"
           (sim_state sim_ok book_A) {[ "Shareholders" := dfA ]} dfA sim_ok).
  - vm_compute. reflexivity.
  - vm_compute. reflexivity.
  - reflexivity.
  - vm_compute. in_list.
Defined.

Lemma no_sheet_in_empty_files {E : Type} (st : St E) p s d :
  fs st = ∅ -> sheet_of st p s = Some d -> rectangular d.
Proof.
  intros Hfs. unfold sheet_of. rewrite Hfs, lookup_empty. discriminate.
Qed.

Lemma single_sheet_rectangular {E : Type} (st : St E) path sheet d0 p s d :
  fs st = {[ path := {[ sheet := d0 ]} ]} ->
  rectangular d0 ->
  sheet_of st p s = Some d -> rectangular d.
Proof.
  intros Hfs Hd0. unfold sheet_of. rewrite Hfs.
  destruct (decide (p = path)) as [-> | Hp].
  - rewrite lookup_singleton_eq.
    destruct (decide (s = sheet)) as [-> | Hs].
    + rewrite lookup_singleton_eq. intros Hd. injection Hd as <-. exact Hd0.
    + rewrite lookup_singleton_ne by congruence. discriminate.
  - rewrite lookup_singleton_ne by congruence. discriminate.
Qed.

(** A snapshot under another column label is merged into a sheet that
    holds a row: both rows are realigned to four columns. *)
Lemma realigned_merge_is_rectangular :
  exists d,
    sheet_of (append_to_excel dfC output_file "Shareholders"
                (sim_state sim_ok book_A)).1.2 output_file "Shareholders"
    = Some d
    /\ length (columns d) = 4
    /\ length (rows d) = 2
    /\ rectangular d.
Proof.
  destruct (sheet_of (append_to_excel dfC output_file "Shareholders"
                        (sim_state sim_ok book_A)).1.2
              output_file "Shareholders") as [d |] eqn:Hd;
    [| vm_compute in Hd; discriminate].
  exists d. split; [reflexivity |].
  split; [vm_compute in Hd; injection Hd as <-; reflexivity |].
  split; [vm_compute in Hd; injection Hd as <-; reflexivity |].
  apply (append_to_excel_rectangular dfC output_file "Shareholders"
           (sim_state sim_ok book_A))
    with (p := output_file) (s := "Shareholders").
  - unfold rectangular. simpl. repeat constructor.
  - intros p s d0.
    apply (single_sheet_rectangular _ output_file "Shareholders" dfA);
      [reflexivity |].
    unfold rectangular. simpl. repeat constructor.
  - exact Hd.
Defined.


Lemma batch_leaves_other_files :
  sheet_of (scrape_all ["甲公司"; "乙公司"]
              (sim_state sim_ok {[ "notes.xlsx" := {[ "Sheet1" := dfA ]} ]})).1.2
           "notes.xlsx" "Sheet1"
  = sheet_of (sim_state sim_ok {[ "notes.xlsx" := {[ "Sheet1" := dfA ]} ]})
             "notes.xlsx" "Sheet1".
Proof.
  apply (scrape_all_touches_two_sheets ["甲公司"; "乙公司"]
           (sim_state sim_ok {[ "notes.xlsx" := {[ "Sheet1" := dfA ]} ]})
           "notes.xlsx" "Sheet1").
  - vm_compute. discriminate.
  - vm_compute. discriminate.
Defined.

Lemma batch_keeps_stored_sheet :
  is_Some (sheet_of (scrape_all ["甲公司"; "乙公司"]
                       (sim_state sim_locked book_A)).1.2
                    output_file "Shareholders").
Proof.
  apply (scrape_all_keeps_sheets ["甲公司"; "乙公司"]
           (sim_state sim_locked book_A) output_file "Shareholders").
  exists dfA. vm_compute. reflexivity.
Defined.

Lemma batch_from_scratch_is_rectangular :
  exists d,
    sheet_of (scrape_all ["甲公司"; "乙公司"] (sim_state sim_ok ∅)).1.2
             output_file "Historical Shareholders"
    = Some d
    /\ length (rows d) = 4
    /\ rectangular d.
Proof.
  destruct (sheet_of (scrape_all ["甲公司"; "乙公司"] (sim_state sim_ok ∅)).1.2
              output_file "Historical Shareholders") as [d |] eqn:Hd;
    [| vm_compute in Hd; discriminate].
  exists d. split; [reflexivity |]. split.
  - vm_compute in Hd. injection Hd as <-. reflexivity.
  - apply (scrape_all_rectangular ["甲公司"; "乙公司"] (sim_state sim_ok ∅))
      with (p := output_file) (s := "Historical Shareholders").
    + intros p s d0. apply no_sheet_in_empty_files. reflexivity.
    + exact Hd.
Defined.

Lemma clicked_tab_reported_missing :
  activate_tab 1 "历史股东信息" (lab_state lab_unsettled ∅)
  = (inr false, set_ext lab_unsettled (lab_state lab_unsettled ∅),
     [Did (CClickTab 1 "历史股东信息") None;
      Did (CWaitTimeout 1 3000) (Some TimeoutError);
      Log WARNING (MsgTabNotFound "历史股东信息")]).
Proof.
  apply (proj2 (activate_tab_outcome 1 "历史股东信息"
                  (lab_state lab_unsettled ∅))
           lab_unsettled TimeoutError lab_unsettled);
    vm_compute; reflexivity.
Defined.

Lemma company_without_popup :
  scrape_company_tables "甲公司" (lab_state lab_no_popup ∅)
  = (inr tt, mkSt lab_no_popup ∅ Unbound Unbound,
     [Log INFO (MsgStart "甲公司"); Did (CFill "甲公司") None;
      Did (CPress "Enter") None; Did (CSleep 2) None;
      Did CTextContent None; Opened (inl TimeoutError);
      Log ERROR (MsgCompanyError "甲公司" TimeoutError);
      Did (CGoto landing_url) None]).
Proof.
  apply (scrape_company_tables_without_popup "甲公司"
           (lab_state lab_no_popup ∅)
           lab_no_popup lab_no_popup " 天眼查科技有限公司 " lab_no_popup
           TimeoutError lab_no_popup (inr tt) lab_no_popup);
    vm_compute; reflexivity.
Defined.

Lemma run_when_no_browser_starts :
  run (lab_state lab_no_browser ∅)
  = (inr tt, mkSt (mkLab sim_ok [] None None None) ∅ Unbound (Bound None),
     [Did CLaunch (Some OSError); Log WARNING (MsgLaunchFailed 1 OSError);
      Did CLaunch (Some OSError); Log WARNING (MsgLaunchFailed 2 OSError);
      Did CLaunch (Some OSError); Log WARNING (MsgLaunchFailed 3 OSError);
      Log ERROR MsgLaunchGaveUp;
      Log CRITICAL MsgExiting]).
Proof.
  apply (run_without_browser (lab_state lab_no_browser ∅)
           OSError (mkLab sim_ok [Some OSError; Some OSError] None None None)
           OSError (mkLab sim_ok [Some OSError] None None None)
           OSError (mkLab sim_ok [] None None None));
    vm_compute; reflexivity.
Defined.

Lemma run_when_login_fails :
  run (lab_state lab_login_fails ∅)
  = (inr tt, mkSt lab_login_fails ∅ Unbound (Bound (Some tt)),
     [Did CLaunch None; Log INFO (MsgLaunched 1);
      Did CLogin (Some TimeoutError);
      Log CRITICAL (MsgUnexpected TimeoutError);
      Did CBrowserClose None]).
Proof.
  apply (run_login_raises (lab_state lab_login_fails ∅)
           lab_login_fails TimeoutError lab_login_fails (inr tt)
           lab_login_fails);
    vm_compute; reflexivity.
Defined.

Lemma run_on_three_companies :
  exists close_r st',
    run (lab_state lab_plain ∅)
    = (inr tt, st',
       [Did CLaunch None; Log INFO (MsgLaunched 1); Did CLogin None;
        Log INFO MsgWaitCaptcha; Did CInput None; Did CLoadCompanies None]
       ++ (scrape_all ["甲公司"; "乙公司"; "丙公司"]
             (mkSt lab_plain ∅ Unbound (Bound (Some tt)))).2
       ++ match (scrape_all ["甲公司"; "乙公司"; "丙公司"]
                   (mkSt lab_plain ∅ Unbound (Bound (Some tt)))).1.1 with
          | inl e => [Log CRITICAL (MsgUnexpected e)]
          | inr _ => []
          end
       ++ [Did CBrowserClose close_r])
    /\ fs st'
       = fs (scrape_all ["甲公司"; "乙公司"; "丙公司"]
               (mkSt lab_plain ∅ Unbound (Bound (Some tt)))).1.2.
Proof.
  apply (run_runs_the_batch (lab_state lab_plain ∅)
           lab_plain lab_plain lab_plain ["甲公司"; "乙公司"; "丙公司"]
           lab_plain);
    vm_compute; reflexivity.
Defined.
